(** * The golem dialog state-machine engine

    A shallow embedding of [golem/core/dialog_manager.py] (class
    [DialogManager]): the per-turn algorithm [process], the transition
    procedure [move_to], the transition rules [check_state_transition],
    [check_intent_transition], [run_accept], [move_by_entities], the
    persistence step [save_state] and the constructor [__init__].

    Python objects are mutable and methods may raise.  A method of the
    dialog manager is therefore a function from the manager's state to an
    outcome: the state it leaves behind, the calls it made on its
    collaborators (channel adapter, loggers, recorder, scheduler, actions)
    in order, and either a return value or the exception that escaped. *)

From Stdlib Require Import Ascii.
From stdpp Require Import gmap strings list.

Local Open Scope string_scope.
Local Open Scope Z_scope.

(** ** Values, responses, events *)

(** Entity values, as far as the engine inspects them: [move_to] tells a
    string from an [int] with [isinstance]. *)
Inductive Value : Type :=
| VStr (s : string)
| VInt (n : Z).

(** Python truthiness ([if not x]) of a value. *)
Definition truthy (v : Value) : bool :=
  match v with
  | VStr s => negb (String.eqb s "")
  | VInt n => negb (Z.eqb n 0)
  end.

(** Argument of [move_to]: [None], a state name, or an [int]. *)
Inductive Target : Type :=
| TNone
| TName (s : string)
| TInt (n : Z).

Definition target_of_value (o : option Value) : Target :=
  match o with
  | None => TNone
  | Some (VStr s) => TName s
  | Some (VInt n) => TInt n
  end.

(** Outbound messages: a bare [str], a [TextMessage], or another message
    object (one without a [text] attribute). *)
Inductive Response : Type :=
| RStr (s : string)
| RTextMessage (text : string)
| ROther (label : string).

(** The [responses] argument of [send_response]: [None], one response, or
    a list of them. *)
Inductive ResponseArg : Type :=
| RANone
| RAOne (r : Response)
| RAList (l : list Response).

(** Exceptions (instances of [Exception]). *)
Inductive Exn : Type :=
| AttributeError
| ValueError
| ActionFailure (what : string).

Inductive LogMsg : Type :=
| MsgInitializing (chat : string)
| MsgSessionExists (st : string)
| MsgCreatingSession
| MsgUserMessage
| MsgProcessing
| MsgRunningAction (st : string)
| MsgNoAction
| MsgIntentWithoutFlow (intent : Value)
| MsgMovingOnIntent (intent : Value)
| MsgStateDoesNotExist (wanted staying : string)
| MsgMoving (previous new : string) (action : option string)
| MsgPlain (s : string)
| MsgStars
| MsgExceptionOccurred (action : option string) (st : string)
| MsgChatId (chat : string)
| MsgContext (dump : string)
| MsgSavingState (st : string)
| MsgChatbotMessage
| MsgMessage (r : Response)
| MsgInactivity (name : string) (seconds : Z).

(** Calls on collaborators, in the order they are made.  A call is
    recorded and taken to return: the exceptions of this model are those
    the engine's own code raises (a missing attribute, a look-up that
    fails) and those an action raises. *)
Inductive Event : Type :=
| IfaceProcessingStart
| IfaceProcessingEnd
| IfaceStateChange (st : string)
| IfacePostMessage (r : Response)
| LogInfo (m : LogMsg)
| LogWarning (m : LogMsg)
| LogError (m : LogMsg)
| LogException
| PrintFoo (keys : list string)
| RecorderStart
| RecorderStop
| RecorderUserMessage (message_type : string) (ents : gmap string Value)
| RecorderStateChange (st : string)
| RecorderBotMessage (r : Response)
| LoggerLogUser
| LoggerLogUserMessage (message_type : string) (ents : gmap string Value)
    (accepted_time : Z) (accepted_state : string)
| LoggerLogBotMessage (r : Response) (st : string)
| MessageLoggerOnMessage (text : string)
| ScheduleInactivity (name : string) (counter : Z) (seconds : Z)
| CallAction (st : string)
| CallRequirementAction (st : string) (index : nat).

(** ** Strings *)

(** [split_first c s]: the parts of [s] before and after the first [c];
    [None] when [c] does not occur.  [s.split(c, 1)] has two elements in
    the first case and one in the second. *)
Fixpoint split_first (c : ascii) (s : string) : option (string * string) :=
  match s with
  | EmptyString => None
  | String a rest =>
      if Ascii.eqb a c then Some (EmptyString, rest)
      else match split_first c rest with
           | Some (l, r) => Some (String a l, r)
           | None => None
           end
  end.

(** [c in s]. *)
Definition contains (c : ascii) (s : string) : bool :=
  match split_first c s with Some _ => true | None => false end.

(** [s.split(c)[0]]. *)
Definition before_first (c : ascii) (s : string) : string :=
  match split_first c s with Some (l, _) => l | None => s end.

Definition dot : ascii := "."%char.
Definition colon : ascii := ":"%char.

(** ** The Context Store *)

Record HistoryEntry : Type := mkEntry {
  h_name : string;
  h_timestamp : Z
}.

Record Context : Type := mkContext {
  counter : Z;
  entities : gmap string (Value * nat);
  history : list HistoryEntry
}.

(** The dictionary form of a Context, as persisted. *)
Inductive ContextDict : Type :=
| EmptyDict
| DictOf (c : Context).

Module Ctx.

Definition empty : Context :=
  {| counter := 0; entities := ∅; history := [] |}.

(** Modelled from the spec: [Context.from_dict] and [Context.to_dict]
    (golem/core/context.py is not among the sources).  A Context is
    created empty from the empty dictionary and saving then loading
    yields an equal Context. *)
Definition from_dict (data : ContextDict) : Context :=
  match data with
  | EmptyDict => empty
  | DictOf c => c
  end.

Definition to_dict (c : Context) : ContextDict := DictOf c.

(** Modelled from the spec: [Context.get(name, max_age)] returns the
    value only if its age is at most [max_age]. *)
Definition get (c : Context) (name : string) (max_age : nat) : option Value :=
  match entities c !! name with
  | Some (v, age) => if (age <=? max_age)%nat then Some v else None
  | None => None
  end.

(** Modelled from the spec: [Context.get_age(name)], the entity and its
    age. *)
Definition get_age (c : Context) (name : string) : option (Value * nat) :=
  entities c !! name.

(** Modelled from the spec: [context.intent.get()]; the intent is stored
    as an aged entity and is read at any age. *)
Definition intent_get (c : Context) : option Value :=
  fst <$> (entities c !! "intent").

(** Modelled from the spec: [Context.add_entities].  New entities enter
    at age 0, every entity not in this turn's set ages by one; the
    entities of the turn are returned. *)
Definition add_entities (c : Context) (new : gmap string Value)
  : Context * gmap string Value :=
  ({| counter := counter c;
      entities := ((λ v, (v, 0%nat)) <$> new)
                    ∪ ((λ p : Value * nat, (p.1, S p.2)) <$> entities c);
      history := history c |},
   new).

(** Modelled from the spec: [Context.add_state] appends
    [{name, now}] to the history. *)
Definition add_state (c : Context) (name : string) (now : Z) : Context :=
  {| counter := counter c;
     entities := entities c;
     history := history c ++ [mkEntry name now] |}.

(** Modelled from the spec: [Context.get_history_state(k)], the entry
    [k] places before the last one, so that offset 0 is the current
    entry and offset [k >= 1] is the [k]-th entry from the end not
    counting the current one; nothing when the history is too short
    (and, by choice of this model, for a negative offset). *)
Definition get_history_state (c : Context) (k : Z) : option HistoryEntry :=
  if k <? 0 then None else rev (history c) !! Z.to_nat k.

Definition incr_counter (c : Context) : Context :=
  {| counter := counter c + 1;
     entities := entities c;
     history := history c |}.

End Ctx.

(** [entities.keys()]. *)
Definition keys (ents : gmap string Value) : list string :=
  (map_to_list ents).*1.

(** ** The persistence backend *)

Record Store : Type := mkStore {
  dialog_version : option string;
  session_state : gmap string string;
  session_context : gmap string ContextDict;
  session_interface : gmap string string;
  chat_session : gmap string string;
  session_active : gmap string Z
}.

(** ** The dialog manager's state *)

(** [context] is [None] until the constructor has finished; [recording]
    is an attribute that only [test_record_message] creates; [clock] is
    what [time.time()] reads. *)
Record Dialog : Type := mkDialog {
  current_state_name : string;
  context : option Context;
  recording : option bool;
  db : Store;
  clock : Z
}.

Inductive Res (A : Type) : Type :=
| Ok (a : A)
| Raised (e : Exn).
Arguments Ok {A} a.
Arguments Raised {A} e.

Record Outcome (A : Type) : Type := mkOut {
  out_dialog : Dialog;
  out_events : list Event;
  out_result : Res A
}.
Arguments mkOut {A} _ _ _.
Arguments out_dialog {A} _.
Arguments out_events {A} _.
Arguments out_result {A} _.

(** A method of the dialog manager. *)
Definition M (A : Type) : Type := Dialog -> Outcome A.

Definition ret {A} (a : A) : M A := fun d => mkOut d [] (Ok a).

Definition bind {A B} (m : M A) (f : A -> M B) : M B :=
  fun d =>
    let o := m d in
    match out_result o with
    | Ok a =>
        let o' := f a (out_dialog o) in
        mkOut (out_dialog o') (out_events o ++ out_events o') (out_result o')
    | Raised e => mkOut (out_dialog o) (out_events o) (Raised e)
    end.

Definition raise {A} (e : Exn) : M A := fun d => mkOut d [] (Raised e).

Definition tell (e : Event) : M unit := fun d => mkOut d [e] (Ok tt).

Definition gets {A} (f : Dialog -> A) : M A := fun d => mkOut d [] (Ok (f d)).

Definition modify (f : Dialog -> Dialog) : M unit := fun d => mkOut (f d) [] (Ok tt).

(** [try: body except Exception as e: handler]. *)
Definition try_except {A} (body : M A) (handler : Exn -> M A) : M A :=
  fun d =>
    let o := body d in
    match out_result o with
    | Ok a => o
    | Raised e =>
        let o' := handler e (out_dialog o) in
        mkOut (out_dialog o') (out_events o ++ out_events o') (out_result o')
    end.

Declare Scope dm_scope.
Delimit Scope dm_scope with dm.
Notation "x <- m ;; k" := (bind m (fun x => k))
  (at level 100, m at next level, right associativity) : dm_scope.
Notation "m ;; k" := (bind m (fun _ => k))
  (at level 100, right associativity) : dm_scope.
Local Open Scope dm_scope.

Definition when (b : bool) (m : M unit) : M unit := if b then m else ret tt.

(** ** Flows, states, requirements *)

(** An action is called with the dialog manager and may do anything a
    method can. *)
Definition Action : Type := M unit.

Record Requirement : Type := mkRequirement {
  req_matches : Context -> bool;
  req_action : Action
}.

(** [accepts_message] is the state's own method, kept as the state
    supplies it. *)
Record State : Type := mkState {
  state_action : option Action;
  requirements : list Requirement;
  accepts_message : list string -> bool
}.

(** [get_state_for_intent] and [matches_intent] are the flow's own
    methods, kept as the flow supplies them. *)
Record Flow : Type := mkFlow {
  flow_name : string;
  states : list (string * State);
  get_state_for_intent : Value -> option string;
  matches_intent : Value -> bool
}.

Fixpoint assoc {A} (k : string) (l : list (string * A)) : option A :=
  match l with
  | [] => None
  | (k', a) :: rest => if String.eqb k k' then Some a else assoc k rest
  end.

Module FlowOps.

(** Modelled from the spec: [Flow.get_state(name)] looks the local name
    up in the flow's mapping of states. *)
Definition get_state (f : Flow) (state_name : string) : option State :=
  assoc state_name (states f).

(** Modelled from the spec: [State.check_requirements()] evaluates the
    requirements in declared order, each a predicate over the
    Context. *)
Definition check_requirements (s : State) (c : Context) : bool :=
  forallb (fun r => req_matches r c) (requirements s).

(** Modelled from the spec: [State.get_first_requirement()] is the
    first unmet requirement in declared order (with its position). *)
Fixpoint first_unmet (rs : list Requirement) (c : Context) (i : nat)
  : option (nat * Requirement) :=
  match rs with
  | [] => None
  | r :: rest =>
      if req_matches r c then first_unmet rest c (S i) else Some (i, r)
  end.

Definition get_first_requirement (s : State) (c : Context)
  : option (nat * Requirement) :=
  first_unmet (requirements s) c 0.

End FlowOps.

(** Settings and collaborators fixed for the life of a dialog manager.
    [flows] is a dictionary in insertion order.  [context_debug] is
    [Context.debug()], [None] when it raises.  [entity_equals] is the
    comparison [record == 'start'] of an entity with a string. *)
Record Config : Type := mkConfig {
  flows : list (string * Flow);
  chat_id : string;
  interface_name : string;
  session_json : string;
  error_message_text : string;
  should_log_messages : bool;
  inactive_callbacks : list (string * Z);
  context_debug : Context -> option string;
  entity_equals : Value -> string -> bool;
  record_start_response : ResponseArg;
  record_stop_response : ResponseArg
}.

Definition version : string := "1.32".

(** ** The dialog manager *)

Definition set_current (n : string) (d : Dialog) : Dialog :=
  mkDialog n (context d) (recording d) (db d) (clock d).

Definition set_context (c : option Context) (d : Dialog) : Dialog :=
  mkDialog (current_state_name d) c (recording d) (db d) (clock d).

Definition set_recording (r : option bool) (d : Dialog) : Dialog :=
  mkDialog (current_state_name d) (context d) r (db d) (clock d).

Definition set_db (s : Store) (d : Dialog) : Dialog :=
  mkDialog (current_state_name d) (context d) (recording d) s (clock d).

(** [self.context.<attr>]: an [AttributeError] while the context is
    [None]. *)
Definition get_context : M Context :=
  fun d => match context d with
           | Some c => ret c d
           | None => raise AttributeError d
           end.

(** [self.recording]: an [AttributeError] while the attribute is unset. *)
Definition get_recording : M bool :=
  fun d => match recording d with
           | Some b => ret b d
           | None => raise AttributeError d
           end.

Fixpoint for_each {A} (f : A -> M unit) (l : list A) : M unit :=
  match l with
  | [] => ret tt
  | a :: rest => f a;; for_each f rest
  end.

Definition nonempty (s : string) : bool := negb (String.eqb s "").

Module DialogManager.
Section Engine.

Variable cfg : Config.

(** [get_flow(flow_name=None)] *)
Definition get_flow (flow_name : option string) : M (option Flow) :=
  name <- match flow_name with
          | Some n =>
              if nonempty n then ret n
              else
                cur <- gets current_state_name;;
                match split_first dot cur with
                | Some (f, _) => ret f
                | None => raise ValueError
                end
          | None =>
              cur <- gets current_state_name;;
              match split_first dot cur with
              | Some (f, _) => ret f
              | None => raise ValueError
              end
          end;;
  ret (assoc name (flows cfg)).

(** [get_state(flow_state_name=None)] *)
Definition get_state (flow_state_name : option string) : M (option State) :=
  cur <- gets current_state_name;;
  let full := match flow_state_name with
              | Some n => if nonempty n then n else cur
              | None => cur
              end in
  match split_first dot full with
  | None => raise ValueError
  | Some (fname, sname) =>
      flow <- get_flow (Some fname);;
      ret (match flow with
           | Some f => FlowOps.get_state f sname
           | None => None
           end)
  end.

(** The writes of [save_state]: three [hset]s under the session id, the
    version marker and the session blob. *)
Definition saved_store (cur : string) (c : Context) (s : Store) : Store :=
  {| dialog_version := Some version;
     session_state := <[chat_id cfg := cur]> (session_state s);
     session_context := <[chat_id cfg := Ctx.to_dict c]> (session_context s);
     session_interface := <[chat_id cfg := interface_name cfg]> (session_interface s);
     chat_session := <[chat_id cfg := session_json cfg]> (chat_session s);
     session_active := session_active s |}.

(** [save_state()] *)
Definition save_state : M unit :=
  ctx <- gets context;;
  match ctx with
  | None => ret tt
  | Some c =>
      cur <- gets current_state_name;;
      tell (LogInfo (MsgSavingState cur));;
      modify (fun d => set_db (saved_store cur c (db d)) d)
  end.

(** The two loops of [send_response]. *)
Definition as_message (r : Response) : Response :=
  match r with
  | RStr s => RTextMessage s
  | _ => r
  end.

Definition response_text (r : Response) : option string :=
  match r with
  | RStr s => Some s
  | RTextMessage t => Some t
  | ROther _ => None
  end.

Definition post_response (r : Response) : M unit :=
  tell (IfacePostMessage (as_message r));;
  rec <- get_recording;;
  when rec (tell (RecorderBotMessage (as_message r))).

Definition log_response (r : Response) : M unit :=
  tell (LogInfo (MsgMessage r));;
  cur <- gets current_state_name;;
  tell (LoggerLogBotMessage r cur);;
  match response_text r with
  | Some t =>
      when (nonempty t && should_log_messages cfg) (tell (MessageLoggerOnMessage t))
  | None => ret tt
  end.

Definition send_list (l : list Response) : M unit :=
  match l with
  | [] => ret tt
  | _ =>
      tell (LogInfo MsgChatbotMessage);;
      for_each post_response l;;
      for_each log_response l
  end.

Definition response_truthy (r : Response) : bool :=
  match r with
  | RStr s => nonempty s
  | _ => true
  end.

(** [send_response(responses)] with [next] left at [None]: a single
    response is wrapped in a list and sent by a second call. *)
Definition send_response_only (responses : ResponseArg) : M unit :=
  match responses with
  | RANone => ret tt
  | RAOne r =>
      if response_truthy r
      then tell (LogInfo MsgChatbotMessage);; send_list [r]
      else ret tt
  | RAList l => send_list l
  end.

(** [run_accept(save_identical=False)]: the argument is not used by the
    body. *)
Definition run_accept (save_identical : bool) : M unit :=
  cur <- gets current_state_name;;
  tell (LogInfo (MsgRunningAction cur));;
  st <- get_state None;;
  match st with
  | None => raise AttributeError
  | Some s =>
      match state_action s with
      | None => tell (LogWarning MsgNoAction)
      | Some a => tell (CallAction cur);; a
      end
  end.

(** Lines 235-238 of [move_to]: an [int] is looked up in the history;
    [action] starts as ['init']. *)
Definition resolve_target (t : Target) : M (option string * option string) :=
  match t with
  | TNone => ret (None, Some "init")
  | TName s => ret (Some s, Some "init")
  | TInt n =>
      c <- get_context;;
      ret (h_name <$> Ctx.get_history_state c (n - 1), None)
  end.

(** Lines 239-244 of [move_to]. *)
Definition qualify (cur : string) (name : option string) (action : option string)
  : string * option string :=
  let n1 := match name with
            | Some s => if nonempty s then s else cur
            | None => cur
            end in
  let '(n2, act) := match split_first colon n1 with
                    | Some (l, r) => (l, Some r)
                    | None => (n1, action)
                    end in
  let n3 := if contains dot n2 then n2
            else before_first dot cur +:+ "." +:+ n2 in
  (n3, act).

(** The body of the [try] in [move_to]. *)
Definition enter_state (previous_state new_state_name : string) : M unit :=
  tell (LogError (MsgPlain previous_state));;
  tell (LogError (MsgPlain new_state_name));;
  if String.eqb previous_state new_state_name then ret tt
  else
    new_state <- get_state (Some new_state_name);;
    match new_state with
    | None => raise AttributeError
    | Some s =>
        c <- get_context;;
        if FlowOps.check_requirements s c then run_accept false
        else
          match FlowOps.get_first_requirement s c with
          | None => raise AttributeError
          | Some (i, requirement) =>
              tell (CallRequirementAction new_state_name i);;
              req_action requirement
          end
    end.

(** The inner [try] of the handler: the snapshot of the Context, with
    anything it raises discarded. *)
Definition log_context_snapshot : M unit :=
  try_except
    (st <- get_state None;;
     match st with
     | None => raise AttributeError
     | Some _ =>
         c <- get_context;;
         match context_debug cfg c with
         | Some dump => tell (LogError (MsgContext dump))
         | None => raise (ActionFailure "debug")
         end
     end)
    (fun _ => ret tt).

(** The [except] handler of [move_to]. *)
Definition report_failure (action : option string) (new_state_name : string)
  : M unit :=
  tell (LogError MsgStars);;
  tell (LogError (MsgExceptionOccurred action new_state_name));;
  tell (LogError (MsgChatId (chat_id cfg)));;
  log_context_snapshot;;
  tell LogException;;
  send_response_only (RAList [RTextMessage (error_message_text cfg)]).

(** [self.context.add_state(new_state_name)] *)
Definition record_state (name : string) : M unit :=
  c <- get_context;;
  now <- gets clock;;
  modify (set_context (Some (Ctx.add_state c name now))).

(** Lines 253-289 of [move_to]: the transition itself. *)
Definition do_transition (previous_state new_state_name : string)
    (action : option string) (initializing : bool) : M bool :=
  modify (set_current new_state_name);;
  when (negb initializing)
    (tell (LogInfo (MsgMoving previous_state new_state_name action));;
     tell (IfaceStateChange new_state_name);;
     rec <- get_recording;;
     when rec (tell (RecorderStateChange new_state_name));;
     try_except (enter_state previous_state new_state_name)
                (fun _ => report_failure action new_state_name));;
  save_state;;
  ret true.

(** [move_to(new_state_name, initializing=False, save_identical=False)] *)
Definition move_to (new_state_name : Target) (initializing save_identical : bool)
  : M bool :=
  r <- resolve_target new_state_name;;
  cur <- gets current_state_name;;
  let '(name, action) := qualify cur r.1 r.2 in
  st <- get_state (Some name);;
  match st with
  | None =>
      tell (LogInfo (MsgStateDoesNotExist name cur));;
      ret false
  | Some _ =>
      let identical := String.eqb name cur in
      when (negb initializing && (negb identical || save_identical))
        (record_state name);;
      if negb (nonempty name) || identical then ret false
      else do_transition cur name action initializing
  end.

(** [send_response(responses, next=None)] *)
Definition send_response (responses : ResponseArg) (next : option Target)
  : M unit :=
  send_response_only responses;;
  match next with
  | None => ret tt
  | Some t =>
      match responses with
      | RANone => ret tt
      | RAOne r => if response_truthy r then _ <- move_to t false false;; ret tt else ret tt
      | RAList [] => ret tt
      | RAList _ => _ <- move_to t false false;; ret tt
      end
  end.

(** [move_by_entities(entities)] *)
Definition move_by_entities (ents : gmap string Value) : M unit :=
  _ <- move_to (TName "default.root") false false;; ret tt.

(** [check_state_transition()] *)
Definition check_state_transition : M bool :=
  c <- get_context;;
  move_to (target_of_value (Ctx.get c "_state" 0)) false false.

Fixpoint first_flow_for (intent : Value) (fl : list (string * Flow))
  : option string :=
  match fl with
  | [] => None
  | (_, f) :: rest =>
      if matches_intent f intent then Some (flow_name f +:+ ".root")
      else first_flow_for intent rest
  end.

Definition name_given (o : option string) : bool :=
  match o with
  | Some s => nonempty s
  | None => false
  end.

(** [check_intent_transition()] *)
Definition check_intent_transition : M bool :=
  c <- get_context;;
  match Ctx.intent_get c with
  | None => ret false
  | Some intent =>
      if negb (truthy intent) then ret false
      else
        flow <- get_flow None;;
        match flow with
        | None => raise AttributeError
        | Some f =>
            let n1 := get_state_for_intent f intent in
            let n2 := if name_given n1 then n1
                      else first_flow_for intent (flows cfg) in
            match n2 with
            | Some n =>
                if nonempty n
                then tell (LogInfo (MsgMovingOnIntent intent));;
                     move_to (TName n) false false
                else tell (LogError (MsgIntentWithoutFlow intent));; ret false
            | None =>
                tell (LogError (MsgIntentWithoutFlow intent));; ret false
            end
        end
  end.

(** [inactive(callback_name, seconds)] *)
Definition inactive (name : string) (seconds : Z) : M unit :=
  tell (LogInfo (MsgInactivity name seconds));;
  c <- get_context;;
  tell (ScheduleInactivity name (counter c) seconds).

Definition touched_store (now : Z) (s : Store) : Store :=
  {| dialog_version := dialog_version s;
     session_state := session_state s;
     session_context := session_context s;
     session_interface := session_interface s;
     chat_session := chat_session s;
     session_active := <[chat_id cfg := now]> (session_active s) |}.

(** [save_inactivity_callback()] *)
Definition save_inactivity_callback : M unit :=
  modify (fun d => set_db (touched_store (clock d) (db d)) d);;
  for_each (fun p : string * Z => inactive p.1 p.2) (inactive_callbacks cfg).

(** Lines 157-162 of [test_record_message]: the answer to a recorder
    command. *)
Definition answer_record_command (v : Value) : M unit :=
  match v with
  | VStr "start" =>
      tell RecorderStart;; send_response (record_start_response cfg) None
  | VStr "stop" =>
      tell RecorderStop;; send_response (record_stop_response cfg) None
  | _ =>
      send_response
        (RAOne (RStr "Use /test_record/start/ or /test_record/stop/")) None
  end.

(** [test_record_message(message_type, entities)]: an entity that is
    present counts as true in [if not record]. *)
Definition test_record_message (message_type : string) (ents : gmap string Value)
  : M bool :=
  c <- get_context;;
  modify (set_recording (Some false));;
  match Ctx.get_age c "test_record" with
  | None => ret false
  | Some (v, age) =>
      if (age =? 0)%nat then
        answer_record_command v;;
        save_state;;
        ret true
      else if entity_equals cfg v "start" then
        tell (RecorderUserMessage message_type ents);;
        modify (set_recording (Some true));;
        ret false
      else ret false
  end.

Definition accepted_type (message_type : string) : bool :=
  String.eqb message_type "message"
  || String.eqb message_type "postback"
  || String.eqb message_type "schedule".

(** Lines 110-118 of [process]: the transition rules. *)
Definition apply_rules (ents : gmap string Value) : M unit :=
  moved <- check_state_transition;;
  when (negb moved)
    (moved' <- check_intent_transition;;
     when (negb moved')
       (tell (PrintFoo (keys ents));;
        st <- get_state None;;
        match st with
        | None => raise AttributeError
        | Some s =>
            if accepts_message s (keys ents)
            then run_accept true;; save_state
            else move_by_entities ents;; save_state
        end)).

(** Lines 95-100 of [process]. *)
Definition begin_turn (entities : gmap string Value) : M (gmap string Value) :=
  tell (LogInfo MsgUserMessage);;
  c <- get_context;;
  modify (set_context (Some (Ctx.incr_counter c)));;
  c' <- get_context;;
  modify (set_context (Some (Ctx.add_entities c' entities).1));;
  ret (Ctx.add_entities c' entities).2.

(** [process(message_type, entities)] *)
Definition process (message_type : string) (entities : gmap string Value)
  : M unit :=
  tell IfaceProcessingStart;;
  accepted_time <- gets clock;;
  accepted_state <- gets current_state_name;;
  if negb (accepted_type message_type) then ret tt
  else
    ents <- begin_turn entities;;
    stop <- test_record_message message_type ents;;
    if stop then ret tt
    else
      when (negb (String.eqb message_type "schedule")) save_inactivity_callback;;
      tell (LogInfo MsgProcessing);;
      apply_rules ents;;
      tell IfaceProcessingEnd;;
      tell (LoggerLogUserMessage message_type ents accepted_time accepted_state).

(** Lines 43-44 of [__init__]: the stored session is used when the
    version marker equals the engine's and the store has a context under
    the session id. *)
Definition trusted (store : Store) : bool :=
  match dialog_version store with
  | Some v => nonempty v && String.eqb v version
  | None => false
  end
  && bool_decide (is_Some (session_context store !! chat_id cfg)).

(** [__init__(session)], from the store and the clock the new object
    sees.  Loading the flow definitions is the loader's part; [flows cfg]
    is what it produced. *)
Definition init (store : Store) (now : Z) : Outcome unit :=
  (tell (LogInfo (MsgInitializing (chat_id cfg)));;
   modify (set_current "default.root");;
   context_dict <-
     (if trusted store
      then
        match session_state store !! chat_id cfg with
        | None => raise AttributeError
        | Some state =>
            tell (LogInfo (MsgSessionExists state));;
            _ <- move_to (TName state) true false;;
            match session_context store !! chat_id cfg with
            | Some blob => ret blob
            | None => raise AttributeError
            end
        end
      else
        modify (set_current "default.root");;
        tell (LogInfo MsgCreatingSession);;
        tell LoggerLogUser;;
        ret EmptyDict);;
   modify (set_context (Some (Ctx.from_dict context_dict))))
    (mkDialog "" None None store now).

End Engine.

(** ** The Transition Resolver as a decision

  The decisions the engine takes before anything is changed, as
  functions of the current state name and the Context: which state
  [get_state] finds, what lines 235-252 of [move_to] decide, and which of
  the four rules of [process] ends up acting. *)
Section Resolver.

Variable cfg : Config.

Definition find_flow (cur : string) (flow_name : option string)
  : Res (option Flow) :=
  match flow_name with
  | Some n =>
      if nonempty n then Ok (assoc n (flows cfg))
      else match split_first dot cur with
           | Some (f, _) => Ok (assoc f (flows cfg))
           | None => Raised ValueError
           end
  | None =>
      match split_first dot cur with
      | Some (f, _) => Ok (assoc f (flows cfg))
      | None => Raised ValueError
      end
  end.

Definition find_state (cur : string) (flow_state_name : option string)
  : Res (option State) :=
  let full := match flow_state_name with
              | Some n => if nonempty n then n else cur
              | None => cur
              end in
  match split_first dot full with
  | None => Raised ValueError
  | Some (fname, sname) =>
      match find_flow cur (Some fname) with
      | Raised e => Raised e
      | Ok (Some f) => Ok (FlowOps.get_state f sname)
      | Ok None => Ok None
      end
  end.

Definition target_name (ctx : option Context) (t : Target)
  : Res (option string * option string) :=
  match t with
  | TNone => Ok (None, Some "init")
  | TName s => Ok (Some s, Some "init")
  | TInt n =>
      match ctx with
      | Some c => Ok (h_name <$> Ctx.get_history_state c (n - 1), None)
      | None => Raised AttributeError
      end
  end.

(** What [move_to] is going to do. *)
Inductive Plan : Type :=
| NoSuchState (name : string)
| Stay (name : string)
| Go (name : string) (action : option string).

Definition plan (cur : string) (ctx : option Context) (t : Target) : Res Plan :=
  match target_name ctx t with
  | Raised e => Raised e
  | Ok r =>
      let '(name, action) := qualify cur r.1 r.2 in
      match find_state cur (Some name) with
      | Raised e => Raised e
      | Ok None => Ok (NoSuchState name)
      | Ok (Some _) =>
          if negb (nonempty name) || String.eqb name cur then Ok (Stay name)
          else Ok (Go name action)
      end
  end.

Definition is_go (p : Res Plan) : bool :=
  match p with
  | Ok (Go _ _) => true
  | _ => false
  end.

(** The state name [check_intent_transition] hands to [move_to], if it
    gets that far. *)
Definition intent_target (cur : string) (c : Context) : Res (option string) :=
  match Ctx.intent_get c with
  | None => Ok None
  | Some intent =>
      if negb (truthy intent) then Ok None
      else
        match find_flow cur None with
        | Raised e => Raised e
        | Ok None => Raised AttributeError
        | Ok (Some f) =>
            let n1 := get_state_for_intent f intent in
            let n2 := if name_given n1 then n1
                      else first_flow_for intent (flows cfg) in
            Ok (if name_given n2 then n2 else None)
        end
  end.

Inductive Rule : Type :=
| Override
| Intent
| Accept
| Fallback.

Definition accept_or_fallback (cur : string) (ents : gmap string Value)
  : Res Rule :=
  match find_state cur None with
  | Raised e => Raised e
  | Ok None => Raised AttributeError
  | Ok (Some s) => Ok (if accepts_message s (keys ents) then Accept else Fallback)
  end.

Definition override_target (c : Context) : Target :=
  target_of_value (Ctx.get c "_state" 0).

(** The rule of lines 110-118 that acts: the first whose [move_to] does
    transition, else acceptance or the fallback. *)
Definition winning_rule (cur : string) (c : Context) (ents : gmap string Value)
  : Res Rule :=
  match plan cur (Some c) (override_target c) with
  | Raised e => Raised e
  | Ok (Go _ _) => Ok Override
  | Ok _ =>
      match intent_target cur c with
      | Raised e => Raised e
      | Ok None => accept_or_fallback cur ents
      | Ok (Some n) =>
          match plan cur (Some c) (TName n) with
          | Raised e => Raised e
          | Ok (Go _ _) => Ok Intent
          | Ok _ => accept_or_fallback cur ents
          end
      end
  end.

End Resolver.

Arguments find_flow : simpl never.
Arguments find_state : simpl never.
Arguments plan : simpl never.
Arguments qualify : simpl never.

(** An outcome with events put in front. *)
Definition with_events {A} (evs : list Event) (o : Outcome A) : Outcome A :=
mkOut (out_dialog o) (evs ++ out_events o) (out_result o).

(** The messages posted to the channel, in order. *)
Definition posted (evs : list Event) : list Response :=
omap (fun e => match e with IfacePostMessage r => Some r | _ => None end) evs.

(** The actions of a state: its own and those of its requirements. *)
Definition state_actions (s : State) : list Action :=
match state_action s with
| Some a => [a]
| None => []
end ++ map req_action (requirements s).

Definition all_actions (cfg : Config) : list Action :=
flat_map (fun p : string * Flow =>
            flat_map (fun q : string * State => state_actions q.2) (states p.2))
         (flows cfg).

(** [m] leaves the observation [f] of the dialog manager as it found it,
  however it ends. *)
Definition Preserves {X A} (f : Dialog -> X) (m : M A) : Prop :=
forall d, f (out_dialog (m d)) = f d.

Definition counter_of (d : Dialog) : option Z := counter <$> context d.
Definition history_of (d : Dialog) : option (list HistoryEntry) :=
history <$> context d.

Arguments get_flow : simpl never.
Arguments get_state : simpl never.
Arguments save_state : simpl never.
Arguments send_response_only : simpl never.
Arguments run_accept : simpl never.
Arguments enter_state : simpl never.
Arguments report_failure : simpl never.
Arguments log_context_snapshot : simpl never.
Arguments record_state : simpl never.
Arguments do_transition : simpl never.
Arguments move_to : simpl never.
Arguments check_state_transition : simpl never.
Arguments check_intent_transition : simpl never.
Arguments move_by_entities : simpl never.
Arguments save_inactivity_callback : simpl never.
Arguments test_record_message : simpl never.
Arguments answer_record_command : simpl never.
Arguments begin_turn : simpl never.
Arguments apply_rules : simpl never.
Arguments process : simpl never.

End DialogManager.

Import DialogManager.

Section Observations.

Variable cfg : Config.

(** What [send_response([TextMessage(error_message_text)])] emits when
    the manager is at [cur] with [self.recording = rec]. *)
Definition apology : Response := RTextMessage (error_message_text cfg).

Definition apology_events (cur : string) (rec : bool) : list Event :=
  [LogInfo MsgChatbotMessage; IfacePostMessage apology]
  ++ (if rec then [RecorderBotMessage apology] else [])
  ++ [LogInfo (MsgMessage apology); LoggerLogBotMessage apology cur]
  ++ (if nonempty (error_message_text cfg) && should_log_messages cfg
      then [MessageLoggerOnMessage (error_message_text cfg)] else []).

(** What [move_to] emits between the change of state and the [try]. *)
Definition moving_events (cur name : string) (action : option string)
    (rec : bool) : list Event :=
  [LogInfo (MsgMoving cur name action); IfaceStateChange name]
  ++ (if rec then [RecorderStateChange name] else []).

(** The dialog manager after [save_state]. *)
Definition saved (d : Dialog) : Dialog :=
  match context d with
  | Some c => set_db (saved_store cfg (current_state_name d) c (db d)) d
  | None => d
  end.

End Observations.

Section Transition.

Variable cfg : Config.

(** The dialog manager when the [try] of [move_to] begins: the target
    is in the history and is the current state. *)
Definition entered (d : Dialog) (c : Context) (name : string) : Dialog :=
  set_current name (set_context (Some (Ctx.add_state c name (clock d))) d).

(** What [move_to] does once the body of its [try] has ended with
    outcome [o]: the handler if it raised, then [save_state] and
    [return True]. *)
Definition finish_transition (action : option string) (name : string)
    (o : Outcome unit) : Outcome bool :=
  with_events (out_events o)
    (match out_result o with
     | Ok _ => (save_state cfg;; ret true) (out_dialog o)
     | Raised _ =>
         (report_failure cfg action name;; save_state cfg;; ret true)
           (out_dialog o)
     end).

End Transition.

(** A qualified state name: [<flow>.<state>] without an [:<action>]
    suffix.  ['default.root'] is one and [move_to] only ever stores such
    names in [current_state_name]. *)
Definition well_formed (name : string) : Prop :=
  contains dot name = true /\ contains colon name = false.

(** The Context when the rules of a turn run: the counter has been
    incremented and the entities of the turn merged in. *)
Definition merged (c : Context) (ents : gmap string Value) : Context :=
  (Ctx.add_entities (Ctx.incr_counter c) ents).1.

(** What the constructor requires of the store before it trusts it: the
    version marker equals the engine's and there is a context blob under
    the session id. *)
Definition session_persisted (cfg : Config) (store : Store) : Prop :=
  dialog_version store = Some version
  /\ is_Some (session_context store !! chat_id cfg).

(** ** The claims as the specification words them *)

(** C1 as stated: whenever the merged Context yields a ['_state'] at
    age 0, the turn ends at that state and the rules after the override
    are not evaluated (line 112 is not reached). *)
Definition override_always_wins (cfg : Config) (mt : string)
    (ents : gmap string Value) (d : Dialog) : Prop :=
  forall c s,
    context d = Some c ->
    Ctx.get (merged c ents) "_state" 0 = Some (VStr s) ->
    current_state_name (out_dialog (process cfg mt ents d)) = s
    /\ ~ In (PrintFoo (keys ents)) (out_events (process cfg mt ents d)).

(** C3 as stated: when the fallback is the rule that acts, the turn ends
    at the root state of the flow the session was in. *)
Definition fallback_goes_to_flow_root (cfg : Config) (mt : string)
    (ents : gmap string Value) (d : Dialog) : Prop :=
  forall c,
    context d = Some c ->
    winning_rule cfg (current_state_name d) (merged c ents) ents = Ok Fallback ->
    current_state_name (out_dialog (process cfg mt ents d))
    = before_first dot (current_state_name d) +:+ ".root".

(** ** A small bot *)

Module Example.

Definition say (s : string) : Action := tell (IfacePostMessage (RTextMessage s)).

Definition fail_with (s : string) : Action := raise (ActionFailure s).

Definition has_entity (name : string) (c : Context) : bool :=
  bool_decide (is_Some (entities c !! name)).

Definition accepts (names : list string) (ks : list string) : bool :=
  existsb (fun k => existsb (String.eqb k) names) ks.

Definition root_state : State :=
  mkState (Some (say "Hello")) [] (accepts []).

Definition collect_amount : State :=
  mkState (Some (say "How much?"))
    [mkRequirement (has_entity "account") (say "Which account?")]
    (accepts ["amount"]).

Definition pay : State :=
  mkState (Some (fail_with "payment backend down")) [] (accepts []).

Definition no_intents (name : string) (sts : list (string * State)) : Flow :=
  mkFlow name sts (fun _ => None) (fun _ => false).

Definition cfg : Config :=
  {| flows := [("default", no_intents "default" [("root", root_state)]);
               ("billing", no_intents "billing"
                             [("root", root_state);
                              ("collect_amount", collect_amount)]);
               ("checkout", no_intents "checkout"
                              [("root", root_state); ("pay", pay)])];
     chat_id := "test_1";
     interface_name := "test";
     session_json := "{}";
     error_message_text := "Oh no! You broke me! :(";
     should_log_messages := false;
     inactive_callbacks := [];
     context_debug := fun _ => None;
     entity_equals := fun _ _ => false;
     record_start_response := RANone;
     record_stop_response := RANone |}.

Definition empty_store : Store := mkStore None ∅ ∅ ∅ ∅ ∅.

(** A session in the middle of the billing flow. *)
Definition visited : Context :=
  {| counter := 2;
     entities := ∅;
     history := [mkEntry "default.root" 10; mkEntry "billing.root" 20;
                 mkEntry "billing.collect_amount" 30] |}.

Definition at_collect : Dialog :=
  mkDialog "billing.collect_amount" (Some visited) (Some false) empty_store 40.

Definition at_root : Dialog :=
  mkDialog "default.root" (Some Ctx.empty) (Some false) empty_store 40.

(** The entities of four turns. *)
Definition amount_with_unknown_override : gmap string Value :=
  <["amount" := VInt 42]> (<["_state" := VStr "default.nowhere"]> ∅).

Definition amount_with_override : gmap string Value :=
  <["amount" := VInt 42]> (<["_state" := VStr "billing.root"]> ∅).

Definition amount_only : gmap string Value := <["amount" := VInt 42]> ∅.

Definition small_talk : gmap string Value := <["mood" := VStr "fine"]> ∅.

(** The dialog manager when the rules of a turn with entities [ents]
    start. *)
Definition rules_start (ents : gmap string Value) : Dialog :=
  mkDialog "billing.collect_amount" (Some (merged visited ents)) (Some false)
    empty_store 40.

Definition saved_store_of (c : Context) : Store :=
  {| dialog_version := Some version;
     session_state := <["test_1" := "billing.collect_amount"]> ∅;
     session_context := <["test_1" := DictOf c]> ∅;
     session_interface := <["test_1" := "test"]> ∅;
     chat_session := <["test_1" := "{}"]> ∅;
     session_active := ∅ |}.

End Example.

(** ** The rest of the dialog manager *)

(** [clear_chat(chat_id)], a static method: two [hdel]s on the store. *)
Definition clear_chat (chat : string) (s : Store) : Store :=
  {| dialog_version := dialog_version s;
     session_state := delete chat (session_state s);
     session_context := delete chat (session_context s);
     session_interface := session_interface s;
     chat_session := chat_session s;
     session_active := session_active s |}.

(** A [datetime] as far as [schedule] looks at it: [tzinfo] is [None],
    or an object whose [utcoffset] gives [None] or an offset. *)
Record Datetime : Type := mkDatetime {
  dt_timestamp : Z;
  dt_tzinfo : option (option Z)
}.

(** What [schedule] does to the logger and the task queue. *)
Inductive SchedulerCall : Type :=
| LogScheduling (callback_name : string) (at_ : option Datetime)
    (seconds : option Z)
| ApplyAsyncEta (session callback_name : string) (eta : Datetime)
| ApplyAsyncCountdown (session callback_name : string) (countdown : Z).

(** The two [Exception]s of [schedule]. *)
Inductive ScheduleError : Type :=
| NaiveDatetime
| NoTimeGiven.

Section Housekeeping.

Variable cfg : Config.

(** [schedule(callback_name, at=None, seconds=None)]: a [datetime] is
    always true in [if at], a number of seconds is true unless it is
    zero. *)
Definition schedule (callback_name : string) (at_ : option Datetime)
    (seconds : option Z) : list SchedulerCall * (ScheduleError + unit) :=
  let log := LogScheduling callback_name at_ seconds in
  match at_ with
  | Some eta =>
      match dt_tzinfo eta with
      | Some (Some _) =>
          ([log; ApplyAsyncEta (session_json cfg) callback_name eta], inr tt)
      | _ => ([log], inl NaiveDatetime)
      end
  | None =>
      match seconds with
      | Some s =>
          if s =? 0 then ([log], inl NoTimeGiven)
          else ([log; ApplyAsyncCountdown (session_json cfg) callback_name s],
                inr tt)
      | None => ([log], inl NoTimeGiven)
      end
  end.

(** What the two loops of [send_response] emit for a list of
    responses. *)
Definition post_events (rec : bool) (l : list Response) : list Event :=
  flat_map (fun r => IfacePostMessage (as_message r)
                     :: if rec then [RecorderBotMessage (as_message r)] else [])
           l.

Definition log_events (cur : string) (l : list Response) : list Event :=
  flat_map (fun r => ([LogInfo (MsgMessage r); LoggerLogBotMessage r cur]
                      ++ match response_text r with
                         | Some t =>
                             if nonempty t && should_log_messages cfg
                             then [MessageLoggerOnMessage t] else []
                         | None => []
                         end)%list)
           l.

(** [if not responses] is false. *)
Definition responses_given (a : ResponseArg) : bool :=
  match a with
  | RANone => false
  | RAOne r => response_truthy r
  | RAList [] => false
  | RAList _ => true
  end.

(** What [save_inactivity_callback] emits for the configured
    callbacks. *)
Definition inactivity_events (c : Context) (l : list (string * Z))
  : list Event :=
  flat_map (fun p : string * Z =>
              [LogInfo (MsgInactivity p.1 p.2);
               ScheduleInactivity p.1 (counter c) p.2])
           l.

End Housekeeping.

(** The responses [send_response] goes through: a single response is
    wrapped in a list, and a false [responses] gives none. *)
Definition responses_of (a : ResponseArg) : list Response :=
  match a with
  | RANone => []
  | RAOne r => if response_truthy r then [r] else []
  | RAList l => l
  end.

(** The messages handed to the test recorder, in order. *)
Definition recorded (evs : list Event) : list Response :=
  omap (fun e => match e with RecorderBotMessage r => Some r | _ => None end) evs.

(** The calls on collaborators other than the text log. *)
Definition is_log (e : Event) : bool :=
  match e with
  | LogInfo _ | LogWarning _ | LogError _ => true
  | _ => false
  end.

Definition calls (evs : list Event) : list Event :=
  List.filter (fun e => negb (is_log e)) evs.

(** An outcome without its log lines. *)
Definition effects {A} (o : Outcome A) : Dialog * list Event * Res A :=
  (out_dialog o, calls (out_events o), out_result o).

(** Two methods that differ in their log lines at most. *)
Definition same_effects {A} (m m' : M A) : Prop :=
  forall d, effects (m d) = effects (m' d).

(** ** Invariants of a run *)

(** Every run of [m] relates the dialog manager it starts from to the
    one it leaves, however it ends. *)
Definition Steps {A} (R : Dialog -> Dialog -> Prop) (m : M A) : Prop :=
  forall d, R d (out_dialog (m d)).

(** The current state name stays a qualified name. *)
Definition keeps_qualified (d d' : Dialog) : Prop :=
  well_formed (current_state_name d) -> well_formed (current_state_name d').

(** The history is only appended to. *)
Definition history_extended (d d' : Dialog) : Prop :=
  forall h, history_of d = Some h ->
            exists h', history_of d' = Some (h ++ h')%list.

(** [n] is a state [move_to] can decide to enter from [cur]. *)
Definition target_of (cfg : Config) (cur n : string) : Prop :=
  exists ctx t a, plan cfg cur ctx t = Ok (Go n a).

(** ** The chat interface registry ([golm/core/interfaces/all.py]) *)

Module Interfaces.

(** An interface class: its [name] and [prefix] attributes. *)
Record Interface : Type := mkInterface {
  name : string;
  prefix : string
}.

(** The four classes [get_interfaces] imports; their modules are not
    among the sources, so they are left open. *)
Record Builtins : Type := mkBuiltins {
  FacebookInterface : Interface;
  TelegramInterface : Interface;
  MicrosoftInterface : Interface;
  TestInterface : Interface
}.

Definition underscore : ascii := "_"%char.

(** [register_chat_interface(interface)], on the module's list
    [interfaces]. *)
Definition register_chat_interface (interface : Interface)
    (interfaces : list Interface) : list Interface :=
  (interfaces ++ [interface])%list.

(** [get_interfaces()] *)
Definition get_interfaces (b : Builtins) (interfaces : list Interface)
  : list Interface :=
  (interfaces ++ [FacebookInterface b; TelegramInterface b;
                  MicrosoftInterface b; TestInterface b])%list.

(** The loops of [create_from_name] and [create_from_prefix]: the first
    match is returned, [None] when the loop ends. *)
Fixpoint first_named (n : string) (ifs : list Interface) : option Interface :=
  match ifs with
  | [] => None
  | i :: rest => if String.eqb (name i) n then Some i else first_named n rest
  end.

Fixpoint first_prefixed (p : string) (ifs : list Interface)
  : option Interface :=
  match ifs with
  | [] => None
  | i :: rest =>
      if String.eqb (prefix i) p then Some i else first_prefixed p rest
  end.

(** [create_from_name(name)] *)
Definition create_from_name (b : Builtins) (interfaces : list Interface)
    (n : string) : option Interface :=
  first_named n (get_interfaces b interfaces).

(** [create_from_prefix(prefix)] *)
Definition create_from_prefix (b : Builtins) (interfaces : list Interface)
    (p : string) : option Interface :=
  first_prefixed p (get_interfaces b interfaces).

(** [create_from_chat_id(chat_id)] *)
Definition create_from_chat_id (b : Builtins) (interfaces : list Interface)
    (chat : string) : option Interface :=
  create_from_prefix b interfaces (before_first underscore chat).

(** The loop of [uid_to_interface_name]. *)
Fixpoint name_of_prefixed (p : string) (ifs : list Interface) : option string :=
  match ifs with
  | [] => None
  | i :: rest =>
      if String.eqb (prefix i) p then Some (name i)
      else name_of_prefixed p rest
  end.

Inductive LookupError : Type :=
| NoInterfaceFor (uid : string).

(** [uid_to_interface_name(uid)] *)
Definition uid_to_interface_name (b : Builtins) (interfaces : list Interface)
    (uid : string) : LookupError + string :=
  match name_of_prefixed (before_first underscore uid)
          (get_interfaces b interfaces) with
  | Some n => inr n
  | None => inl (NoInterfaceFor uid)
  end.

End Interfaces.

(** ** The training command ([golem/management/commands/train_nlp.py]) *)

Module TrainNlp.

(** A call of [train.train_all], with its argument if it has one. *)
Inductive TrainCall : Type :=
| TrainAll (entities : option (list string)).

Inductive CommandError : Type :=
| NoEntityGiven.

(** [handle], from what [options.get('entity')] gives: the calls made
    on the trainer and how the command ends. *)
Definition handle (entity : option (list string))
  : list TrainCall * (CommandError + unit) :=
  match entity with
  | Some (first :: rest) =>
      (((if String.eqb first "all" then [TrainAll None] else [])
        ++ [TrainAll (Some (first :: rest))])%list,
       inr tt)
  | _ => ([], inl NoEntityGiven)
  end.

End TrainNlp.

(** ** A bot with intents and inactivity callbacks *)

Module Shop.

Definition wants (name : string) (v : Value) : bool :=
  match v with
  | VStr s => String.eqb s name
  | VInt _ => false
  end.

(** The billing flow maps the intent [amount] to its own state
    [collect_amount]; billing and checkout both match the intent
    [pay]. *)
Definition billing : Flow :=
  mkFlow "billing"
    [("root", Example.root_state);
     ("collect_amount", Example.collect_amount)]
    (fun v => if wants "amount" v then Some "collect_amount" else None)
    (wants "pay").

Definition checkout : Flow :=
  mkFlow "checkout" [("root", Example.root_state); ("pay", Example.pay)]
    (fun _ => None) (wants "pay").

Definition cfg : Config :=
  {| flows := [("default",
                Example.no_intents "default" [("root", Example.root_state)]);
               ("billing", billing);
               ("checkout", checkout)];
     chat_id := "test_1";
     interface_name := "test";
     session_json := "{}";
     error_message_text := "Oh no! You broke me! :(";
     should_log_messages := true;
     inactive_callbacks := [("remind", 60); ("goodbye", 3600)];
     context_debug := fun _ => None;
     entity_equals := fun v s => wants s v;
     record_start_response := RAOne (RStr "Recording");
     record_stop_response := RAList [RStr "Done"; RStr "Recorded"] |}.

Definition with_intent (name : string) : Context :=
  {| counter := 3;
     entities := <["intent" := (VStr name, 0%nat)]> ∅;
     history := [mkEntry "default.root" 10] |}.

Definition at_root (c : Context) : Dialog :=
  mkDialog "default.root" (Some c) (Some false) Example.empty_store 40.

Definition at_billing (c : Context) : Dialog :=
  mkDialog "billing.root" (Some c) (Some false) Example.empty_store 40.

Definition record_command : gmap string Value :=
  <["test_record" := VStr "stop"]> ∅.

Definition telegram : Interfaces.Interface :=
  Interfaces.mkInterface "telegram" "tg".

Definition custom_telegram : Interfaces.Interface :=
  Interfaces.mkInterface "my_telegram" "tg".

Definition builtins : Interfaces.Builtins :=
  Interfaces.mkBuiltins (Interfaces.mkInterface "facebook" "fb") telegram
    (Interfaces.mkInterface "microsoft" "ms")
    (Interfaces.mkInterface "test" "test").

End Shop.

(** ** The Flow Registry and the failure handler, as observed *)

(** The state a qualified name denotes in the Flow Registry: the flow
    named before the first dot and, in it, the state named after it.
    The look-up does not depend on where the session is. *)
Definition registry_state (cfg : Config) (name : string) : option State :=
  match split_first dot name with
  | Some (f, s) =>
      match assoc f (flows cfg) with
      | Some fl => FlowOps.get_state fl s
      | None => None
      end
  | None => None
  end.

Definition registered (cfg : Config) (name : string) : bool :=
  match registry_state cfg name with
  | Some _ => true
  | None => false
  end.

(** Line 281, [self.get_state().dialog.context.debug()]: the dump, or
    [None] when a step of the expression raises (no dot in the current
    name, no such state, no Context, [debug()] itself). *)
Definition context_snapshot (cfg : Config) (d : Dialog) : option string :=
  match find_state cfg (current_state_name d) None with
  | Ok (Some _) =>
      match context d with
      | Some c => context_debug cfg c
      | None => None
      end
  | _ => None
  end.

(** What the handler of [move_to] logs before it apologises: the
    banner, the action and the new state, the chat id, the snapshot of
    the Context if there is one, and the traceback. *)
Definition diagnostic_events (cfg : Config) (action : option string)
    (name : string) (snapshot : option string) : list Event :=
  [LogError MsgStars; LogError (MsgExceptionOccurred action name);
   LogError (MsgChatId (chat_id cfg))]
  ++ match snapshot with
     | Some dump => [LogError (MsgContext dump)]
     | None => []
     end
  ++ [LogException].

(** C2 as stated: whenever the body of the [try] raises, [move_to]
    returns [True], one apology has been posted, and the target is the
    current state and is persisted. *)
Definition failure_always_contained (cfg : Config) (t : Target) (d : Dialog)
  : Prop :=
  forall c rec n a d2 ev2 e,
    context d = Some c ->
    recording d = Some rec ->
    plan cfg (current_state_name d) (Some c) t = Ok (Go n a) ->
    enter_state cfg (current_state_name d) n (entered d c n)
    = mkOut d2 ev2 (Raised e) ->
    out_result (move_to cfg t false false d) = Ok true
    /\ posted (out_events (move_to cfg t false false d))
       = (posted ev2 ++ [apology cfg])%list
    /\ current_state_name (out_dialog (move_to cfg t false false d)) = n
    /\ session_state (db (out_dialog (move_to cfg t false false d)))
         !! chat_id cfg = Some n.

(** ** Two more bots *)

Module Faulty.

(** An action that removes the [recording] attribute of the manager
    ([del dialog.recording]) and then fails. *)
Definition lose_recording : Action :=
  modify (set_recording None);; Example.fail_with "lost".

Definition reset : State :=
  mkState (Some lose_recording) [] (Example.accepts []).

Definition with_flows (fl : list (string * Flow))
    (debug : Context -> option string) : Config :=
  {| flows := fl;
     chat_id := "test_1";
     interface_name := "test";
     session_json := "{}";
     error_message_text := "Oh no! You broke me! :(";
     should_log_messages := false;
     inactive_callbacks := [];
     context_debug := debug;
     entity_equals := fun _ _ => false;
     record_start_response := RANone;
     record_stop_response := RANone |}.

Definition cfg : Config :=
  with_flows
    [("default", Example.no_intents "default"
                   [("root", Example.root_state); ("reset", reset)])]
    (fun _ => None).

(** The small bot with a [Context.debug()] that returns. *)
Definition debugging : Config :=
  with_flows (flows Example.cfg) (fun c => Some "1 state visited").

(** A trusted store with the session of the small bot at [state]. *)
Definition stored_at (state : string) : Store :=
  mkStore (Some version) (<["test_1" := state]> ∅)
    (<["test_1" := DictOf Example.visited]> ∅) ∅ ∅ ∅.

End Faulty.

(** ** Running a method step by step *)

Lemma with_events_nil {A} (o : Outcome A) : with_events [] o = o.
Proof. destruct o; reflexivity. Qed.

Lemma with_events_app {A} (e1 e2 : list Event) (o : Outcome A) :
  with_events e1 (with_events e2 o) = with_events (e1 ++ e2) o.
Proof. unfold with_events; simpl. by rewrite app_assoc. Qed.

Lemma with_events_out {A} ev d ev' (r : Res A) :
  with_events ev (mkOut d ev' r) = mkOut d (ev ++ ev') r.
Proof. reflexivity. Qed.

Lemma bind_ok {A B} (m : M A) (k : A -> M B) d d' ev a :
  m d = mkOut d' ev (Ok a) ->
  (x <- m;; k x) d = with_events ev (k a d').
Proof. intros H. unfold bind. rewrite H. reflexivity. Qed.

Lemma bind_raised {A B} (m : M A) (k : A -> M B) d d' ev e :
  m d = mkOut d' ev (Raised e) ->
  (x <- m;; k x) d = mkOut d' ev (Raised e).
Proof. intros H. unfold bind. rewrite H. reflexivity. Qed.

Lemma bind_pure {A B} (m : M A) (k : A -> M B) d a :
  m d = mkOut d [] (Ok a) ->
  (x <- m;; k x) d = k a d.
Proof. intros H. rewrite (bind_ok _ _ _ _ _ _ H). apply with_events_nil. Qed.

Lemma bind_quiet {A B} (m : M A) (k : A -> M B) d r :
  m d = mkOut d [] r ->
  (x <- m;; k x) d =
  match r with
  | Ok a => k a d
  | Raised e => mkOut d [] (Raised e)
  end.
Proof.
  intros H. unfold bind. rewrite H. simpl.
  destruct r; [destruct (k a d)|]; reflexivity.
Qed.

Lemma bind_tell {B} e (k : unit -> M B) d :
  (x <- tell e;; k x) d = with_events [e] (k tt d).
Proof. reflexivity. Qed.

Lemma bind_gets {A B} (g : Dialog -> A) (k : A -> M B) d :
  (x <- gets g;; k x) d = k (g d) d.
Proof. apply bind_pure. reflexivity. Qed.

Lemma bind_ret {A B} (a : A) (k : A -> M B) d :
  (x <- ret a;; k x) d = k a d.
Proof. apply bind_pure. reflexivity. Qed.

Lemma bind_modify {B} (g : Dialog -> Dialog) (k : unit -> M B) d :
  (x <- modify g;; k x) d = k tt (g d).
Proof. unfold bind, modify. simpl. destruct (k tt (g d)); reflexivity. Qed.

Lemma bind_get_recording {B} (k : bool -> M B) d r :
  recording d = Some r -> (x <- get_recording;; k x) d = k r d.
Proof. intros H. apply bind_pure. unfold get_recording. by rewrite H. Qed.

Lemma bind_get_context {B} (k : Context -> M B) d c :
  context d = Some c -> (x <- get_context;; k x) d = k c d.
Proof. intros H. apply bind_pure. unfold get_context. by rewrite H. Qed.

Lemma bind_get_context_none {B} (k : Context -> M B) d :
  context d = None -> (x <- get_context;; k x) d = mkOut d [] (Raised AttributeError).
Proof.
  intros H. eapply bind_raised. unfold get_context. by rewrite H.
Qed.

Lemma bind_assoc {A B C} (m : M A) (k : A -> M B) (h : B -> M C) d :
  (y <- (x <- m;; k x);; h y) d = (x <- m;; y <- k x;; h y) d.
Proof.
  unfold bind. destruct (m d) as [d1 e1 [a|e]]; simpl; [|reflexivity].
  destruct (k a d1) as [d2 e2 [b|e]]; simpl; [|reflexivity].
  by rewrite app_assoc.
Qed.

Lemma when_true (m : M unit) : when true m = m.
Proof. reflexivity. Qed.

Lemma when_false (m : M unit) : when false m = ret tt.
Proof. reflexivity. Qed.

Lemma for_each_cons {A} (g : A -> M unit) a l :
  for_each g (a :: l) = (g a;; for_each g l).
Proof. reflexivity. Qed.

Lemma for_each_nil {A} (g : A -> M unit) : for_each g [] = ret tt.
Proof. reflexivity. Qed.

(** One step of a method whose head is a primitive. *)
Ltac mstep :=
  first
    [ rewrite bind_tell
    | rewrite bind_gets
    | rewrite bind_ret
    | rewrite bind_modify
    | rewrite when_true
    | rewrite when_false
    | rewrite for_each_cons
    | rewrite for_each_nil ].

Ltac mrun :=
  repeat first [rewrite bind_assoc | mstep];
  rewrite ?with_events_app, ?with_events_out.

Section Facts.

Variable cfg : Config.

Lemma get_flow_eq (n : option string) (d : Dialog) :
  get_flow cfg n d = mkOut d [] (find_flow cfg (current_state_name d) n).
Proof.
  unfold get_flow, find_flow, bind, gets, ret, raise.
  destruct n as [n|]; [destruct (nonempty n)|]; simpl;
    try reflexivity;
    destruct (split_first dot (current_state_name d)) as [[f r]|]; reflexivity.
Qed.

Lemma get_state_eq (n : option string) (d : Dialog) :
  get_state cfg n d = mkOut d [] (find_state cfg (current_state_name d) n).
Proof.
  unfold get_state, find_state. unfold bind at 1, gets. simpl.
  destruct (split_first dot _) as [[f r]|]; [|reflexivity].
  unfold bind. rewrite get_flow_eq. simpl.
  destruct (find_flow cfg (current_state_name d) (Some f)) as [[fl|]|e];
    reflexivity.
Qed.

Lemma resolve_target_eq (t : Target) (d : Dialog) :
  resolve_target t d = mkOut d [] (target_name (context d) t).
Proof.
  destruct t; simpl; try reflexivity.
  unfold bind, get_context. destruct (context d); reflexivity.
Qed.

(** Lines 235-252 of [move_to] carry out the plan. *)
Lemma move_to_plan (t : Target) (init si : bool) (d : Dialog) :
  move_to cfg t init si d =
  match plan cfg (current_state_name d) (context d) t with
  | Raised e => mkOut d [] (Raised e)
  | Ok (NoSuchState n) =>
      mkOut d [LogInfo (MsgStateDoesNotExist n (current_state_name d))] (Ok false)
  | Ok (Stay n) =>
      (when (negb init && (negb (String.eqb n (current_state_name d)) || si))
         (record_state n);; ret false) d
  | Ok (Go n a) =>
      (when (negb init) (record_state n);;
       do_transition cfg (current_state_name d) n a init) d
  end.
Proof.
  unfold move_to, plan.
  rewrite (bind_quiet _ _ _ _ (resolve_target_eq _ _)).
  destruct (target_name (context d) t) as [r|e]; [|reflexivity].
  rewrite (bind_pure (gets current_state_name) _ d _ eq_refl).
  destruct (qualify (current_state_name d) r.1 r.2) as [name action].
  rewrite (bind_quiet _ _ _ _ (get_state_eq _ _)).
  destruct (find_state cfg (current_state_name d) (Some name)) as [[s|]|e];
    [|reflexivity|reflexivity].
  destruct (negb (nonempty name) || String.eqb name (current_state_name d)) eqn:E.
  - reflexivity.
  - apply orb_false_iff in E as [_ E]. rewrite E.
    rewrite orb_true_l, andb_true_r. reflexivity.
Qed.

End Facts.

Section Facts2.

Variable cfg : Config.

Lemma split_first_nonempty c s p : split_first c s = Some p -> nonempty s = true.
Proof. destruct s; [discriminate|reflexivity]. Qed.

Lemma nonempty_app_dot a b : nonempty (a +:+ "." +:+ b) = true.
Proof. destruct a; reflexivity. Qed.

Lemma qualify_nonempty cur n a : nonempty (qualify cur n a).1 = true.
Proof.
  unfold qualify.
  destruct (split_first colon _) as [[l r]|]; simpl;
    unfold contains;
    match goal with |- context [split_first dot ?x] =>
      destruct (split_first dot x) eqn:E end;
    eauto using split_first_nonempty, nonempty_app_dot.
Qed.

Lemma plan_stay cur ctx t n :
  plan cfg cur ctx t = Ok (Stay n) -> n = cur.
Proof.
  unfold plan. destruct (target_name ctx t) as [r|]; [|discriminate].
  pose proof (qualify_nonempty cur r.1 r.2) as Hn.
  destruct (qualify cur r.1 r.2) as [name act]. simpl in Hn.
  destruct (find_state cfg cur (Some name)) as [[s|]|]; try discriminate.
  rewrite Hn. simpl.
  destruct (String.eqb_spec name cur); intros [= <-]; done.
Qed.

Lemma plan_go cur ctx t n a :
  plan cfg cur ctx t = Ok (Go n a) ->
  n <> cur /\ exists s, find_state cfg cur (Some n) = Ok (Some s).
Proof.
  unfold plan. destruct (target_name ctx t) as [r|]; [|discriminate].
  destruct (qualify cur r.1 r.2) as [name act].
  destruct (find_state cfg cur (Some name)) as [[s|]|] eqn:F; try discriminate.
  destruct (negb (nonempty name) || _) eqn:E; [discriminate|].
  intros [= <- <-]. apply orb_false_iff in E as [_ E].
  apply String.eqb_neq in E. eauto.
Qed.

Lemma save_state_eq d :
  save_state cfg d =
  mkOut (saved cfg d)
    (match context d with
     | Some _ => [LogInfo (MsgSavingState (current_state_name d))]
     | None => []
     end) (Ok tt).
Proof.
  unfold save_state, saved, bind, gets, tell, modify, ret. simpl.
  destruct (context d); reflexivity.
Qed.

Lemma send_apology d rec :
  recording d = Some rec ->
  send_response_only cfg (RAList [apology cfg]) d =
  mkOut d (apology_events cfg (current_state_name d) rec) (Ok tt).
Proof.
  intros H. unfold send_response_only, send_list, apology_events, apology.
  unfold post_response, log_response, response_text, as_message.
  mrun. rewrite (bind_get_recording _ _ _ H).
  destruct rec; mrun;
    destruct (nonempty (error_message_text cfg) && should_log_messages cfg);
    mrun; reflexivity.
Qed.

Lemma send_apology_unset d :
  recording d = None ->
  send_response_only cfg (RAList [apology cfg]) d =
  mkOut d [LogInfo MsgChatbotMessage; IfacePostMessage (apology cfg)]
    (Raised AttributeError).
Proof.
  intros H. unfold send_response_only, send_list, apology.
  unfold post_response, as_message.
  mrun. erewrite bind_raised; [reflexivity|].
  unfold get_recording. by rewrite H.
Qed.

(** The snapshot of the Context never lets an exception out and changes
    nothing. *)
Lemma log_context_snapshot_eq d :
  log_context_snapshot cfg d =
  mkOut d (out_events (log_context_snapshot cfg d)) (Ok tt).
Proof.
  unfold log_context_snapshot, try_except.
  rewrite (bind_quiet _ _ _ _ (get_state_eq cfg _ _)).
  destruct (find_state cfg (current_state_name d) None) as [[s|]|e];
    try reflexivity.
  unfold bind, get_context, tell, raise, ret.
  destruct (context d) as [c|]; simpl; [|reflexivity].
  destruct (context_debug cfg c); reflexivity.
Qed.

End Facts2.

Section Facts3.

Variable cfg : Config.

Lemma try_except_eq {A} (body : M A) (handler : Exn -> M A) d :
  try_except body handler d =
  match out_result (body d) with
  | Ok _ => body d
  | Raised e => with_events (out_events (body d)) (handler e (out_dialog (body d)))
  end.
Proof. unfold try_except. destruct (out_result (body d)); reflexivity. Qed.

Lemma do_transition_eq cur n a d rec :
  recording d = Some rec ->
  do_transition cfg cur n a false d =
  with_events (moving_events cur n a rec)
    (finish_transition cfg a n (enter_state cfg cur n (set_current n d))).
Proof.
  intros H. unfold do_transition, finish_transition, moving_events.
  unfold negb. mrun.
  rewrite (bind_get_recording _ (set_current n d) rec H).
  assert (Hw : forall (k : unit -> M bool) x,
             (y <- when rec (tell (RecorderStateChange n));; k y) x
             = with_events (if rec then [RecorderStateChange n] else []) (k tt x)).
  { intros k x. destruct rec; mrun; [reflexivity|by rewrite with_events_nil]. }
  rewrite bind_assoc, Hw, with_events_app.
  unfold bind at 1. rewrite try_except_eq.
  destruct (enter_state cfg cur n (set_current n d)) as [d2 ev2 [[]|e]];
    cbn [out_result out_dialog out_events].
  - unfold with_events. cbn [out_result out_dialog out_events app].
    f_equal. by rewrite <- !app_assoc.
  - destruct (report_failure cfg a n d2) as [d3 ev3 [[]|e3]] eqn:E.
    + rewrite (bind_ok _ _ _ _ _ _ E).
      unfold with_events. cbn [out_result out_dialog out_events app].
      f_equal. by rewrite <- !app_assoc.
    + rewrite (bind_raised _ _ _ _ _ _ E).
      unfold with_events. cbn [out_result out_dialog out_events app].
      f_equal. by rewrite <- !app_assoc.
Qed.

Lemma do_transition_init cur n a d :
  do_transition cfg cur n a true d =
  (save_state cfg;; ret true) (set_current n d).
Proof. unfold do_transition, negb. mrun. reflexivity. Qed.

End Facts3.

Section Facts4.

Variable cfg : Config.

Lemma record_state_eq n d c :
  context d = Some c ->
  record_state n d =
  mkOut (set_context (Some (Ctx.add_state c n (clock d))) d) [] (Ok tt).
Proof.
  intros H. unfold record_state, bind, get_context, gets, modify. rewrite H.
  reflexivity.
Qed.

(** A transition into another state, outside the constructor. *)
Lemma move_to_go t si d c rec n a :
  context d = Some c ->
  recording d = Some rec ->
  plan cfg (current_state_name d) (Some c) t = Ok (Go n a) ->
  move_to cfg t false si d =
  with_events (moving_events (current_state_name d) n a rec)
    (finish_transition cfg a n
       (enter_state cfg (current_state_name d) n (entered d c n))).
Proof.
  intros Hc Hr Hp. rewrite move_to_plan, Hc, Hp. unfold negb. mrun.
  rewrite (bind_ok _ _ _ _ _ _ (record_state_eq n d c Hc)), with_events_nil.
  rewrite (do_transition_eq cfg _ _ _ _ rec); [reflexivity|exact Hr].
Qed.

Lemma find_state_self cur : find_state cfg cur (Some cur) = find_state cfg cur None.
Proof. unfold find_state. destruct (nonempty cur); reflexivity. Qed.

Lemma run_accept_eq b d s :
  find_state cfg (current_state_name d) None = Ok (Some s) ->
  run_accept cfg b d =
  with_events [LogInfo (MsgRunningAction (current_state_name d))]
    (match state_action s with
     | Some a => with_events [CallAction (current_state_name d)] (a d)
     | None => mkOut d [LogWarning MsgNoAction] (Ok tt)
     end).
Proof.
  intros H. unfold run_accept.
  rewrite (bind_pure (gets current_state_name) _ d _ eq_refl).
  rewrite (bind_ok _ _ _ d [LogInfo (MsgRunningAction (current_state_name d))] tt eq_refl).
  rewrite (bind_quiet _ _ _ _ (get_state_eq cfg _ _)), H.
  destruct (state_action s) as [a|]; [|reflexivity].
  rewrite (bind_ok _ _ _ d [CallAction (current_state_name d)] tt eq_refl).
  reflexivity.
Qed.

Lemma enter_state_eq prev n d c s :
  prev <> n ->
  context d = Some c ->
  find_state cfg (current_state_name d) (Some n) = Ok (Some s) ->
  enter_state cfg prev n d =
  with_events [LogError (MsgPlain prev); LogError (MsgPlain n)]
    (if FlowOps.check_requirements s c then run_accept cfg false d
     else match FlowOps.get_first_requirement s c with
          | Some (i, rq) =>
              with_events [CallRequirementAction n i] (req_action rq d)
          | None => mkOut d [] (Raised AttributeError)
          end).
Proof.
  intros Hne Hc Hs. unfold enter_state.
  rewrite (bind_ok _ _ _ d [LogError (MsgPlain prev)] tt eq_refl).
  rewrite (bind_ok _ _ _ d [LogError (MsgPlain n)] tt eq_refl).
  rewrite with_events_app. simpl. f_equal.
  apply String.eqb_neq in Hne. rewrite Hne.
  rewrite (bind_quiet _ _ _ _ (get_state_eq cfg _ _)), Hs.
  unfold bind at 1, get_context. rewrite Hc. simpl.
  destruct (FlowOps.check_requirements s c).
  - destruct (run_accept cfg false d); reflexivity.
  - destruct (FlowOps.get_first_requirement s c) as [[i rq]|]; [|reflexivity].
    rewrite (bind_ok _ _ _ d [CallRequirementAction n i] tt eq_refl).
    unfold with_events; simpl. destruct (req_action rq d); reflexivity.
Qed.

Lemma first_unmet_spec rs c k i rq :
  FlowOps.first_unmet rs c k = Some (i, rq) ->
  exists j, i = (k + j)%nat /\ rs !! j = Some rq /\ req_matches rq c = false
            /\ forall j' r', (j' < j)%nat -> rs !! j' = Some r' ->
                             req_matches r' c = true.
Proof.
  revert k. induction rs as [|r rs IH]; intros k; simpl; [discriminate|].
  destruct (req_matches r c) eqn:E.
  - intros H. destruct (IH _ H) as (j & -> & Hj & Hm & Hlt).
    exists (S j). repeat split; [lia|exact Hj|exact Hm|].
    intros [|j'] r' Hl Hr'; simpl in Hr'.
    + by injection Hr' as <-.
    + eapply Hlt; [|exact Hr']. lia.
  - intros [= <- <-]. exists 0%nat. repeat split; [lia|exact E|].
    intros j' r' Hl. lia.
Qed.

Lemma first_unmet_some rs c k :
  forallb (fun r => req_matches r c) rs = false ->
  is_Some (FlowOps.first_unmet rs c k).
Proof.
  revert k. induction rs as [|r rs IH]; intros k; simpl; [discriminate|].
  destruct (req_matches r c); simpl; eauto.
Qed.

End Facts4.

Section Facts5.

Variable cfg : Config.

Lemma contains_app_dot a b : contains dot (a +:+ "." +:+ b) = true.
Proof.
  unfold contains. induction a as [|x a IH]; simpl; [reflexivity|].
  destruct (Ascii.eqb x dot); [reflexivity|].
  destruct (split_first dot (a +:+ "." +:+ b)) as [[l r]|]; [reflexivity|].
  discriminate.
Qed.

Lemma qualify_contains_dot cur n a : contains dot (qualify cur n a).1 = true.
Proof.
  unfold qualify.
  destruct (split_first colon _) as [[l r]|]; simpl;
    match goal with |- context [if contains dot ?x then _ else _] =>
      destruct (contains dot x) eqn:E end;
    auto using contains_app_dot.
Qed.

(** A well-formed name is qualified to itself. *)
Lemma qualify_well_formed cur n a :
  well_formed n -> qualify cur (Some n) a = (n, a).
Proof.
  intros [Hd Hc]. unfold qualify.
  assert (Hn : nonempty n = true).
  { unfold contains in Hd. destruct (split_first dot n) eqn:E; [|discriminate].
    eauto using split_first_nonempty. }
  rewrite Hn. unfold contains in Hc.
  destruct (split_first colon n) as [[l r]|]; [discriminate|].
  by rewrite Hd.
Qed.

Lemma qualify_none cur a :
  well_formed cur -> qualify cur None a = (cur, a).
Proof.
  intros [Hd Hc]. unfold qualify. unfold contains in Hc.
  destruct (split_first colon cur) as [[l r]|]; [discriminate|].
  by rewrite Hd.
Qed.

(** Looking up a name that has a dot never raises when the current
    name has one too. *)
Lemma find_state_total cur n :
  contains dot n = true -> contains dot cur = true ->
  exists o, find_state cfg cur (Some n) = Ok o.
Proof.
  unfold contains, find_state, find_flow. intros Hn Hc.
  assert (nonempty n = true) as ->.
  { destruct (split_first dot n) eqn:E; [|discriminate].
    eauto using split_first_nonempty. }
  destruct (split_first dot n) as [[f s]|]; [|discriminate].
  destruct (nonempty f).
  - destruct (assoc f (flows cfg)); eauto.
  - destruct (split_first dot cur) as [[f' s']|]; [|discriminate].
    destruct (assoc f' (flows cfg)); eauto.
Qed.

(** When the qualified target is the current state the plan is to stay
    (or to report that the state is unknown). *)
Lemma plan_identical cur ctx t r :
  target_name ctx t = Ok r ->
  (qualify cur r.1 r.2).1 = cur ->
  plan cfg cur ctx t = Ok (Stay cur) \/ plan cfg cur ctx t = Ok (NoSuchState cur).
Proof.
  intros Ht Hq. unfold plan. rewrite Ht.
  pose proof (qualify_contains_dot cur r.1 r.2) as Hd.
  destruct (qualify cur r.1 r.2) as [n a]. simpl in *. subst n.
  destruct (find_state_total cur cur Hd Hd) as [[s|] ->]; [|by right].
  rewrite String.eqb_refl, orb_true_r. by left.
Qed.

Lemma move_to_stay t init d :
  plan cfg (current_state_name d) (context d) t = Ok (Stay (current_state_name d)) ->
  move_to cfg t init false d = mkOut d [] (Ok false).
Proof.
  intros H. rewrite move_to_plan, H, String.eqb_refl. simpl.
  rewrite andb_false_r. reflexivity.
Qed.

Lemma move_to_missing t init si d n :
  plan cfg (current_state_name d) (context d) t = Ok (NoSuchState n) ->
  move_to cfg t init si d =
  mkOut d [LogInfo (MsgStateDoesNotExist n (current_state_name d))] (Ok false).
Proof. intros H. by rewrite move_to_plan, H. Qed.

(** Without a transition planned, [move_to] (not asked to record an
    identical state) returns [False] and changes nothing. *)
Lemma move_to_no_go t init d p :
  plan cfg (current_state_name d) (context d) t = Ok p ->
  is_go (Ok p) = false ->
  move_to cfg t init false d =
  mkOut d (out_events (move_to cfg t init false d)) (Ok false).
Proof.
  intros H Hg. destruct p as [n|n|n a]; [| |discriminate].
  - by rewrite (move_to_missing _ _ _ _ _ H).
  - pose proof (plan_stay _ _ _ _ _ H) as ->.
    by rewrite (move_to_stay _ _ _ H).
Qed.

Lemma bind_result_not {A} (m : M A) (k : A -> M bool) d :
  (forall a d', out_result (k a d') <> Ok false) ->
  out_result ((x <- m;; k x) d) <> Ok false.
Proof.
  intros H. unfold bind. destruct (out_result (m d)); simpl; [apply H|discriminate].
Qed.

(** A planned transition never reports [False]. *)
Lemma move_to_go_result t init si d n a :
  plan cfg (current_state_name d) (context d) t = Ok (Go n a) ->
  out_result (move_to cfg t init si d) <> Ok false.
Proof.
  intros H. rewrite move_to_plan, H.
  apply bind_result_not. intros _ d'. unfold do_transition.
  repeat (apply bind_result_not; intros).
  discriminate.
Qed.

End Facts5.

(** ** The transition procedure *)

Section MoveTo.

Variable cfg : Config.

(** With a flow part in the name, the look-up of [get_state] is the
    registry's own, wherever the session is. *)
Lemma find_state_registry cur n :
  contains dot n = true ->
  nonempty (before_first dot n) = true ->
  find_state cfg cur (Some n) = Ok (registry_state cfg n).
Proof.
  unfold contains, before_first, find_state, find_flow, registry_state.
  destruct (split_first dot n) as [[f s]|] eqn:E; [|discriminate].
  intros _ Hf. rewrite (split_first_nonempty _ _ _ E), E, Hf.
  by destruct (assoc f (flows cfg)).
Qed.

(** A name with an empty flow part is looked up in the flow of the
    current state: line 223 takes [''] for no name given. *)
Lemma find_state_default_flow n :
  contains dot n = true ->
  nonempty (before_first dot n) = false ->
  find_state cfg "default.root" (Some n)
  = Ok (registry_state cfg ("default" +:+ n)).
Proof.
  unfold contains, before_first, find_state, find_flow, registry_state.
  destruct (split_first dot n) as [[f s]|] eqn:E; [|discriminate].
  intros _ Hf. rewrite (split_first_nonempty _ _ _ E), E, Hf.
  destruct f; [|discriminate]. destruct n as [|x n]; [discriminate|].
  simpl in E. destruct (Ascii.eqb x dot) eqn:Ex.
  - injection E as <-. apply Ascii.eqb_eq in Ex as ->.
    change (split_first dot ("default" +:+ String dot n))
      with (Some ("default", n)).
    change (split_first dot "default.root") with (Some ("default", "root")).
    cbv iota beta. by destruct (assoc "default" (flows cfg)).
  - destruct (split_first dot n) as [[]|]; discriminate.
Qed.

(** The inner [try] logs the snapshot if there is one, lets nothing
    out and changes nothing. *)
Lemma log_context_snapshot_events d :
  log_context_snapshot cfg d
  = mkOut d
      match context_snapshot cfg d with
      | Some dump => [LogError (MsgContext dump)]
      | None => []
      end (Ok tt).
Proof.
  unfold log_context_snapshot, context_snapshot, try_except.
  rewrite (bind_quiet _ _ _ _ (get_state_eq cfg _ _)).
  destruct (find_state cfg (current_state_name d) None) as [[s|]|e];
    try reflexivity.
  unfold bind, get_context, tell, raise, ret.
  destruct (context d) as [c|]; simpl; [|reflexivity].
  destruct (context_debug cfg c); reflexivity.
Qed.

Lemma report_failure_events action name d rec :
  recording d = Some rec ->
  report_failure cfg action name d
  = mkOut d
      (diagnostic_events cfg action name (context_snapshot cfg d)
       ++ apology_events cfg (current_state_name d) rec)%list (Ok tt).
Proof.
  intros H. unfold report_failure, diagnostic_events. mrun.
  rewrite (bind_ok _ _ _ _ _ _ (log_context_snapshot_events d)). mrun.
  change (RTextMessage (error_message_text cfg)) with (apology cfg).
  rewrite (send_apology cfg d rec H). mrun.
  f_equal; by rewrite <- ?app_assoc.
Qed.

(** The handler when the [recording] attribute is gone: the apology
    is posted and the [AttributeError] of line 321 leaves the
    handler. *)
Lemma report_failure_unset action name d :
  recording d = None ->
  report_failure cfg action name d
  = mkOut d
      (diagnostic_events cfg action name (context_snapshot cfg d)
       ++ [LogInfo MsgChatbotMessage; IfacePostMessage (apology cfg)])%list
      (Raised AttributeError).
Proof.
  intros H. unfold report_failure, diagnostic_events. mrun.
  rewrite (bind_ok _ _ _ _ _ _ (log_context_snapshot_events d)). mrun.
  change (RTextMessage (error_message_text cfg)) with (apology cfg).
  rewrite (send_apology_unset cfg d H). mrun.
  f_equal; by rewrite <- ?app_assoc.
Qed.

Lemma posted_diagnostic action name snapshot :
  posted (diagnostic_events cfg action name snapshot) = [].
Proof. by destruct snapshot. Qed.

Lemma posted_apology cur rec :
  posted (apology_events cfg cur rec) = [apology cfg].
Proof.
  unfold apology_events.
  by destruct rec,
    (nonempty (error_message_text cfg) && should_log_messages cfg).
Qed.

Lemma posted_moving cur n a rec : posted (moving_events cur n a rec) = [].
Proof. by destruct rec. Qed.

(** The body of the [try] starts by logging the previous and the new
    state. *)
Lemma enter_state_logs prev n d d2 ev2 r :
  enter_state cfg prev n d = mkOut d2 ev2 r ->
  exists rest,
    ev2 = LogError (MsgPlain prev) :: LogError (MsgPlain n) :: rest.
Proof.
  unfold enter_state. rewrite bind_tell, bind_tell. intros H.
  apply (f_equal out_events) in H. simpl in H. eauto.
Qed.

(** C2.  When the body of the [try] in [move_to] (the state's action
    or the remediation action of a requirement) raises, leaving the
    dialog manager as [d2] after the calls [ev2]: the previous and the
    new state were logged when the [try] began.  If the failed action
    left the Context and the [recording] attribute in place, [move_to]
    returns [True] and its outcome is exactly this: after [ev2] the
    banner, the action and the new state, the chat id, the snapshot of
    the Context when line 281 yields one (and nothing in its place
    when any step of it raises), the traceback, the one apology, and
    the save; the dialog manager is the one the action left, with the
    state and the Context persisted under the session id; the state is
    the target unless the action itself moved on.  If the action
    removed the [recording] attribute, the apology is posted, its
    [AttributeError] leaves [move_to] and nothing is saved. *)
Theorem action_failure_contained t si d c rec n a d2 ev2 e :
  context d = Some c ->
  recording d = Some rec ->
  plan cfg (current_state_name d) (Some c) t = Ok (Go n a) ->
  enter_state cfg (current_state_name d) n (entered d c n)
  = mkOut d2 ev2 (Raised e) ->
  (exists rest,
     ev2 = LogError (MsgPlain (current_state_name d))
             :: LogError (MsgPlain n) :: rest)
  /\ (forall c2 rec2,
        context d2 = Some c2 ->
        recording d2 = Some rec2 ->
        move_to cfg t false si d
        = mkOut
            (set_db (saved_store cfg (current_state_name d2) c2 (db d2)) d2)
            (moving_events (current_state_name d) n a rec ++ ev2
             ++ diagnostic_events cfg a n (context_snapshot cfg d2)
             ++ apology_events cfg (current_state_name d2) rec2
             ++ [LogInfo (MsgSavingState (current_state_name d2))])%list
            (Ok true)
        /\ posted (out_events (move_to cfg t false si d))
           = (posted ev2 ++ [apology cfg])%list
        /\ session_context (db (out_dialog (move_to cfg t false si d)))
             !! chat_id cfg = Some (Ctx.to_dict c2)
        /\ (current_state_name d2 = n ->
            current_state_name (out_dialog (move_to cfg t false si d)) = n
            /\ session_state (db (out_dialog (move_to cfg t false si d)))
                 !! chat_id cfg = Some n))
  /\ (recording d2 = None ->
      move_to cfg t false si d
      = mkOut d2
          (moving_events (current_state_name d) n a rec ++ ev2
           ++ diagnostic_events cfg a n (context_snapshot cfg d2)
           ++ [LogInfo MsgChatbotMessage; IfacePostMessage (apology cfg)])%list
          (Raised AttributeError)).
Proof.
  intros Hc Hr Hp He.
  split; [exact (enter_state_logs _ _ _ _ _ _ He)|]. split.
  - intros c2 rec2 Hc2 Hr2.
    assert (E : move_to cfg t false si d
                = mkOut (set_db (saved_store cfg (current_state_name d2) c2
                                   (db d2)) d2)
                    (moving_events (current_state_name d) n a rec ++ ev2
                     ++ diagnostic_events cfg a n (context_snapshot cfg d2)
                     ++ apology_events cfg (current_state_name d2) rec2
                     ++ [LogInfo (MsgSavingState (current_state_name d2))])%list
                    (Ok true)).
    { rewrite (move_to_go cfg t si d c rec n a Hc Hr Hp), He.
      unfold finish_transition. cbn [out_result out_dialog out_events].
      rewrite (bind_ok _ _ _ _ _ _ (report_failure_events a n d2 rec2 Hr2)).
      rewrite (bind_ok _ _ _ _ _ _ (save_state_eq cfg d2)).
      unfold saved. rewrite Hc2.
      unfold with_events, ret. cbn [out_result out_dialog out_events].
      by rewrite app_nil_r, <- !app_assoc. }
    rewrite E. cbn [out_result out_dialog out_events].
    split; [reflexivity|]. split.
    { unfold posted. rewrite !omap_app. fold posted.
      rewrite posted_moving, posted_diagnostic, posted_apology. simpl.
      reflexivity. }
    split; [apply lookup_insert_eq|].
    intros Hn. simpl. rewrite Hn.
    split; [reflexivity|apply lookup_insert_eq].
  - intros Hr2.
    rewrite (move_to_go cfg t si d c rec n a Hc Hr Hp), He.
    unfold finish_transition. cbn [out_result out_dialog out_events].
    rewrite (bind_raised _ _ _ _ _ _ (report_failure_unset a n d2 Hr2)).
    unfold with_events. cbn [out_result out_dialog out_events].
    by rewrite <- ?app_assoc.
Qed.

(** C4.  On a transition into a state [s] outside the constructor, with
    [c'] the Context at that point: if a requirement of [s] is unmet,
    what runs between the announcement of the move and the end of the
    transition is the remediation action of the first unmet requirement
    in declared order (every requirement before it is met) and not the
    action of [s]; if all requirements are met it is the action of
    [s]. *)
Theorem requirement_gate t si d c rec n a s :
  context d = Some c ->
  recording d = Some rec ->
  plan cfg (current_state_name d) (Some c) t = Ok (Go n a) ->
  find_state cfg n (Some n) = Ok (Some s) ->
  (FlowOps.check_requirements s (Ctx.add_state c n (clock d)) = false ->
   exists i rq,
     requirements s !! i = Some rq
     /\ req_matches rq (Ctx.add_state c n (clock d)) = false
     /\ (forall j r', (j < i)%nat -> requirements s !! j = Some r' ->
                      req_matches r' (Ctx.add_state c n (clock d)) = true)
     /\ move_to cfg t false si d
        = with_events
            (moving_events (current_state_name d) n a rec
             ++ [LogError (MsgPlain (current_state_name d));
                 LogError (MsgPlain n); CallRequirementAction n i])%list
            (finish_transition cfg a n (req_action rq (entered d c n))))
  /\ (FlowOps.check_requirements s (Ctx.add_state c n (clock d)) = true ->
      forall act, state_action s = Some act ->
        move_to cfg t false si d
        = with_events
            (moving_events (current_state_name d) n a rec
             ++ [LogError (MsgPlain (current_state_name d));
                 LogError (MsgPlain n); LogInfo (MsgRunningAction n);
                 CallAction n])%list
            (finish_transition cfg a n (act (entered d c n)))).
Proof.
  intros Hc Hr Hp Hs.
  destruct (plan_go cfg _ _ _ _ _ Hp) as [Hne _].
  rewrite (move_to_go cfg t si d c rec n a Hc Hr Hp).
  rewrite (enter_state_eq cfg _ n (entered d c n) (Ctx.add_state c n (clock d)) s);
    [|congruence|reflexivity|exact Hs].
  split.
  - intros Hreq. rewrite Hreq.
    destruct (first_unmet_some (requirements s) _ 0%nat Hreq) as [[i rq] Hf].
    unfold FlowOps.get_first_requirement. rewrite Hf.
    destruct (first_unmet_spec _ _ _ _ _ Hf) as (j & -> & Hj & Hm & Hlt).
    exists j, rq. repeat split; try assumption.
    unfold finish_transition, with_events. cbn [out_result out_dialog out_events].
    simpl. f_equal. by rewrite <- !app_assoc.
  - intros Hreq act Hact. rewrite Hreq.
    rewrite (run_accept_eq cfg false (entered d c n) s);
      [|simpl; by rewrite <- find_state_self].
    rewrite Hact.
    unfold finish_transition, with_events. cbn [out_result out_dialog out_events].
    simpl. f_equal. by rewrite <- !app_assoc.
Qed.

End MoveTo.

Section BackNavigation.

Variable cfg : Config.

Lemma plan_well_formed_name cur ctx t n a s :
  target_name ctx t = Ok (Some n, a) ->
  well_formed n -> n <> cur ->
  find_state cfg cur (Some n) = Ok (Some s) ->
  plan cfg cur ctx t = Ok (Go n a).
Proof.
  intros Ht Hw Hne Hs. unfold plan. rewrite Ht. simpl.
  rewrite (qualify_well_formed cur n a Hw), Hs.
  apply String.eqb_neq in Hne. rewrite Hne.
  destruct Hw as [Hd _]. unfold contains in Hd.
  destruct (split_first dot n) eqn:E; [|discriminate].
  by rewrite (split_first_nonempty _ _ _ E).
Qed.

(** C9.  With an [int] [N], [move_to] looks the target up in the
    history at offset [N - 1]; that lookup yields the entry followed by
    exactly [N - 1] later entries (the current one and [N - 2] more), so
    with history [A, B, C] and [N = 2] it yields [B]; the engine then
    transitions into the state named there; and when the lookup yields
    nothing the call returns [False] and changes nothing. *)
Theorem move_to_history_offset N d c :
  context d = Some c ->
  resolve_target (TInt N) d
    = mkOut d [] (Ok (h_name <$> Ctx.get_history_state c (N - 1), None))
  /\ (forall before e after,
        history c = (before ++ e :: after)%list ->
        Z.of_nat (length after) = N - 1 ->
        Ctx.get_history_state c (N - 1) = Some e)
  /\ (forall e s rec si,
        Ctx.get_history_state c (N - 1) = Some e ->
        well_formed (h_name e) ->
        h_name e <> current_state_name d ->
        find_state cfg (current_state_name d) (Some (h_name e)) = Ok (Some s) ->
        recording d = Some rec ->
        move_to cfg (TInt N) false si d
        = with_events (moving_events (current_state_name d) (h_name e) None rec)
            (finish_transition cfg None (h_name e)
               (enter_state cfg (current_state_name d) (h_name e)
                  (entered d c (h_name e)))))
  /\ (forall init,
        Ctx.get_history_state c (N - 1) = None ->
        well_formed (current_state_name d) ->
        out_result (move_to cfg (TInt N) init false d) = Ok false
        /\ out_dialog (move_to cfg (TInt N) init false d) = d).
Proof.
  intros Hc. split; [|split; [|split]].
  - rewrite resolve_target_eq, Hc. reflexivity.
  - intros before e after Hh Hlen. unfold Ctx.get_history_state.
    destruct (Z.ltb_spec (N - 1) 0) as [Hneg|_]; [lia|].
    rewrite Hh, rev_app_distr. simpl. rewrite <- app_assoc. simpl.
    rewrite <- Hlen, Nat2Z.id, <- length_rev.
    apply list_lookup_middle. reflexivity.
  - intros e s rec si He Hw Hne Hs Hr.
    apply move_to_go; [exact Hc|exact Hr|].
    eapply plan_well_formed_name; [|exact Hw|exact Hne|exact Hs].
    simpl. by rewrite He.
  - intros init He Hw.
    assert (Ht : target_name (context d) (TInt N) = Ok (None, None)).
    { rewrite Hc. simpl. by rewrite He. }
    destruct (plan_identical cfg (current_state_name d) _ _ _ Ht) as [Hp|Hp].
    + simpl. by rewrite (qualify_none _ _ Hw).
    + by rewrite (move_to_stay cfg _ _ _ Hp).
    + by rewrite (move_to_missing cfg _ _ _ _ _ Hp).
Qed.

End BackNavigation.

(** ** What the engine leaves alone *)

Section Frame.

Context {X : Type} (f : Dialog -> X).

Lemma preserves_ret {A} (a : A) : Preserves f (ret a).
Proof. intros d. reflexivity. Qed.

Lemma preserves_raise {A} (e : Exn) : Preserves f (@raise A e).
Proof. intros d. reflexivity. Qed.

Lemma preserves_tell (e : Event) : Preserves f (tell e).
Proof. intros d. reflexivity. Qed.

Lemma preserves_gets {A} (g : Dialog -> A) : Preserves f (gets g).
Proof. intros d. reflexivity. Qed.

Lemma preserves_modify (g : Dialog -> Dialog) :
  (forall d, f (g d) = f d) -> Preserves f (modify g).
Proof. intros H d. apply H. Qed.

Lemma preserves_bind {A B} (m : M A) (k : A -> M B) :
  Preserves f m -> (forall a, Preserves f (k a)) -> Preserves f (x <- m;; k x).
Proof.
  intros Hm Hk d. unfold bind. specialize (Hm d).
  destruct (out_result (m d)) as [a|e]; simpl; [|exact Hm].
  rewrite Hk. exact Hm.
Qed.

Lemma preserves_try {A} (body : M A) (handler : Exn -> M A) :
  Preserves f body -> (forall e, Preserves f (handler e)) ->
  Preserves f (try_except body handler).
Proof.
  intros Hm Hk d. unfold try_except. specialize (Hm d).
  destruct (out_result (body d)) as [a|e]; simpl; [exact Hm|].
  rewrite Hk. exact Hm.
Qed.

Lemma preserves_when (b : bool) (m : M unit) :
  Preserves f m -> Preserves f (when b m).
Proof. destruct b; [done|]. intros _. apply preserves_ret. Qed.

Lemma preserves_for_each {A} (g : A -> M unit) (l : list A) :
  (forall a, Preserves f (g a)) -> Preserves f (for_each g l).
Proof.
  intros H. induction l as [|a l IH]; simpl; [apply preserves_ret|].
  apply preserves_bind; auto.
Qed.

Lemma preserves_get_context : Preserves f get_context.
Proof. intros d. unfold get_context. destruct (context d); reflexivity. Qed.

Lemma preserves_get_recording : Preserves f get_recording.
Proof. intros d. unfold get_recording. destruct (recording d); reflexivity. Qed.

End Frame.

Create HintDb frame.
#[export] Hint Resolve preserves_ret preserves_raise preserves_tell
  preserves_gets preserves_get_context preserves_get_recording : frame.

(** Peel the binds of a method off one by one. *)
Ltac frame_step :=
  lazymatch goal with
  | |- Preserves _ (bind _ _) => apply preserves_bind; [|intros ?]
  | |- Preserves _ (try_except _ _) => apply preserves_try; [|intros ?]
  | |- Preserves _ (when _ _) => apply preserves_when
  | |- Preserves _ (for_each _ _) => apply preserves_for_each; intros ?
  | |- Preserves _ (modify _) => apply preserves_modify; intros ?
  end;
  auto with frame.

Ltac frame := repeat frame_step; auto with frame.

Section EngineFrame.

Variable cfg : Config.
Context {X : Type} (f : Dialog -> X).

(** [f] does not look at the state pointer, the recording flag or the
    store... *)
Hypothesis f_current : forall n d, f (set_current n d) = f d.
Hypothesis f_recording : forall r d, f (set_recording r d) = f d.
Hypothesis f_db : forall s d, f (set_db s d) = f d.
(** ...nor at the history... *)
Hypothesis f_add_state :
  forall c n t d, context d = Some c ->
                  f (set_context (Some (Ctx.add_state c n t)) d) = f d.
(** ...and no action of the registry changes it. *)
Hypothesis f_actions : Forall (Preserves f) (all_actions cfg).

Lemma preserves_get_state n : Preserves f (get_state cfg n).
Proof. intros d. by rewrite get_state_eq. Qed.

Lemma preserves_get_flow n : Preserves f (get_flow cfg n).
Proof. intros d. by rewrite get_flow_eq. Qed.

Lemma preserves_save_state : Preserves f (save_state cfg).
Proof.
  intros d. rewrite save_state_eq. unfold saved. simpl.
  destruct (context d); [apply f_db|reflexivity].
Qed.

Lemma preserves_send_list l : Preserves f (send_list cfg l).
Proof.
  unfold send_list. destruct l as [|r l]; [apply preserves_ret|].
  frame; unfold post_response, log_response; frame.
  all: destruct (response_text _); frame.
Qed.

Lemma preserves_send_response_only r : Preserves f (send_response_only cfg r).
Proof.
  unfold send_response_only. destruct r as [|r|l]; auto with frame.
  - destruct (response_truthy r); frame. apply preserves_send_list.
  - apply preserves_send_list.
Qed.

Lemma preserves_log_context_snapshot : Preserves f (log_context_snapshot cfg).
Proof. intros d. by rewrite log_context_snapshot_eq. Qed.

Lemma preserves_report_failure a n : Preserves f (report_failure cfg a n).
Proof.
  unfold report_failure. frame.
  - apply preserves_log_context_snapshot.
  - apply preserves_send_response_only.
Qed.

Lemma preserves_record_state n : Preserves f (record_state n).
Proof.
  intros d. unfold record_state, bind, get_context, gets, modify.
  destruct (context d) as [c|] eqn:E; simpl; [|reflexivity].
  by apply f_add_state.
Qed.

End EngineFrame.

Section Registry.

Variable cfg : Config.

Lemma assoc_In {A} k (l : list (string * A)) a :
  assoc k l = Some a -> In (k, a) l.
Proof.
  induction l as [|[k' a'] l IH]; simpl; [discriminate|].
  destruct (String.eqb_spec k k') as [->|_]; [intros [= ->]; by left|].
  intros H. right. by apply IH.
Qed.

Lemma find_flow_In cur n fl :
  find_flow cfg cur n = Ok (Some fl) -> exists k, In (k, fl) (flows cfg).
Proof.
  unfold find_flow. intros H.
  destruct n as [n|]; [destruct (nonempty n)|];
    try (destruct (split_first dot cur) as [[f' r']|]; [|discriminate]);
    injection H as H; eauto using assoc_In.
Qed.

(** A state [get_state] finds is one of the registry, and so are its
    actions. *)
Lemma find_state_actions cur n s (P : Action -> Prop) :
  find_state cfg cur n = Ok (Some s) ->
  Forall P (all_actions cfg) -> Forall P (state_actions s).
Proof.
  unfold find_state. intros H Hall.
  destruct (split_first dot _) as [[fname sname]|]; [|discriminate].
  destruct (find_flow cfg cur (Some fname)) as [[fl|]|] eqn:Hf; try discriminate.
  injection H as H. apply assoc_In in H.
  destruct (find_flow_In _ _ _ Hf) as [k Hk].
  rewrite Forall_forall in *. intros a Ha. apply Hall.
  apply list_elem_of_In. apply list_elem_of_In in Ha.
  unfold all_actions. apply in_flat_map. exists (k, fl). split; [exact Hk|].
  apply in_flat_map. exists (sname, s). split; [exact H|exact Ha].
Qed.

(** The answer to a recorder command is one of three. *)
Lemma answer_record_command_cases v (Q : M unit -> Prop) :
  Q (tell RecorderStart;; send_response cfg (record_start_response cfg) None) ->
  Q (tell RecorderStop;; send_response cfg (record_stop_response cfg) None) ->
  Q (send_response cfg
       (RAOne (RStr "Use /test_record/start/ or /test_record/stop/")) None) ->
  Q (answer_record_command cfg v).
Proof.
  unfold answer_record_command.
  generalize (tell RecorderStart;;
              send_response cfg (record_start_response cfg) None).
  generalize (tell RecorderStop;;
              send_response cfg (record_stop_response cfg) None).
  generalize (send_response cfg
       (RAOne (RStr "Use /test_record/start/ or /test_record/stop/")) None).
  intros m3 m2 m1 H1 H2 H3.
  destruct v as [s|z]; [|exact H3].
  repeat match goal with
         | |- Q (match ?s with EmptyString => _ | String _ _ => _ end) =>
             destruct s; try assumption
         | |- Q (match ?a with Ascii _ _ _ _ _ _ _ _ => _ end) =>
             destruct a; try assumption
         | |- Q (if ?b then _ else _) => destruct b; try assumption
         end.
Qed.

End Registry.

Section EngineFrame2.

Variable cfg : Config.
Context {X : Type} (f : Dialog -> X).

Hypothesis f_current : forall n d, f (set_current n d) = f d.
Hypothesis f_recording : forall r d, f (set_recording r d) = f d.
Hypothesis f_db : forall s d, f (set_db s d) = f d.
Hypothesis f_add_state :
  forall c n t d, context d = Some c ->
                  f (set_context (Some (Ctx.add_state c n t)) d) = f d.
Hypothesis f_actions : Forall (Preserves f) (all_actions cfg).

Lemma preserves_with_state {B} n (k : option State -> M B) :
  (forall s, Forall (Preserves f) (state_actions s) -> Preserves f (k (Some s))) ->
  Preserves f (k None) ->
  Preserves f (st <- get_state cfg n;; k st).
Proof.
  intros Hs Hn d. rewrite (bind_quiet _ _ _ _ (get_state_eq cfg _ _)).
  destruct (find_state cfg (current_state_name d) n) as [[s|]|e] eqn:E;
    [|apply Hn|reflexivity].
  apply Hs. eapply find_state_actions; eauto.
Qed.

Lemma own_action_preserves s a :
  Forall (Preserves f) (state_actions s) -> state_action s = Some a ->
  Preserves f a.
Proof.
  unfold state_actions. intros H E. rewrite E in H. simpl in H.
  by inversion H.
Qed.

Lemma requirement_preserves s c i rq :
  Forall (Preserves f) (state_actions s) ->
  FlowOps.get_first_requirement s c = Some (i, rq) ->
  Preserves f (req_action rq).
Proof.
  unfold state_actions, FlowOps.get_first_requirement. intros H E.
  apply Forall_app in H as [_ H].
  destruct (first_unmet_spec _ _ _ _ _ E) as (j & _ & Hj & _).
  rewrite Forall_forall in H. apply H. apply list_elem_of_In, in_map.
  apply list_elem_of_In. eapply list_elem_of_lookup_2. exact Hj.
Qed.

Ltac sframe_step :=
  lazymatch goal with
  | |- Preserves _ (bind (get_state _ _) _) =>
      apply preserves_with_state; [intros ? ?|]
  | |- Preserves _ (bind (get_flow _ _) _) =>
      apply preserves_bind; [apply preserves_get_flow|intros ?]
  | |- Preserves _ (save_state _) => by apply preserves_save_state
  | |- Preserves _ (record_state _) => by apply preserves_record_state
  | |- Preserves _ (send_response_only _ _) => by apply preserves_send_response_only
  | |- Preserves _ (report_failure _ _ _) => by apply preserves_report_failure
  | _ => frame_step
  end.

Ltac sframe := repeat sframe_step; auto with frame.

Lemma preserves_run_accept b : Preserves f (run_accept cfg b).
Proof.
  unfold run_accept. sframe.
  destruct (state_action _) as [act|] eqn:E; sframe.
  eapply own_action_preserves; eauto.
Qed.

Lemma preserves_enter_state prev n : Preserves f (enter_state cfg prev n).
Proof.
  unfold enter_state. sframe. destruct (String.eqb prev n); sframe.
  destruct (FlowOps.check_requirements _ _).
  - apply preserves_run_accept.
  - destruct (FlowOps.get_first_requirement _ _) as [[i rq]|] eqn:E; sframe.
    eapply requirement_preserves; eauto.
Qed.

Lemma preserves_do_transition cur n a init :
  Preserves f (do_transition cfg cur n a init).
Proof. unfold do_transition. sframe. apply preserves_enter_state. Qed.

Lemma preserves_move_to t init si : Preserves f (move_to cfg t init si).
Proof.
  intros d. rewrite move_to_plan.
  destruct (plan cfg _ _ t) as [[n|n|n a]|e]; try reflexivity.
  - generalize (negb init && (negb (n =? current_state_name d)%string || si)).
    intros b. revert d.
    change (Preserves f (when b (record_state n);; ret false)). sframe.
  - generalize (current_state_name d). intros cur. revert d.
    change (Preserves f (when (negb init) (record_state n);;
                         do_transition cfg cur n a init)).
    sframe. apply preserves_do_transition.
Qed.

Lemma preserves_check_state_transition :
  Preserves f (check_state_transition cfg).
Proof. unfold check_state_transition. sframe. apply preserves_move_to. Qed.

Lemma preserves_check_intent_transition :
  Preserves f (check_intent_transition cfg).
Proof.
  unfold check_intent_transition. sframe.
  destruct (Ctx.intent_get _) as [i|]; sframe.
  destruct (negb (truthy i)); sframe.
  match goal with |- context [match ?x with Some _ => _ | None => _ end] =>
    destruct x as [fl|] end; sframe.
  match goal with |- context [match ?x with Some _ => _ | None => _ end] =>
    destruct x as [nm|] end; sframe.
  destruct (nonempty nm); sframe. apply preserves_move_to.
Qed.

Lemma preserves_move_by_entities ents : Preserves f (move_by_entities cfg ents).
Proof. unfold move_by_entities. sframe. apply preserves_move_to. Qed.

Lemma preserves_apply_rules ents : Preserves f (apply_rules cfg ents).
Proof.
  unfold apply_rules. sframe;
    try apply preserves_check_state_transition;
    try apply preserves_check_intent_transition.
  destruct (accepts_message _ _); sframe.
  - apply preserves_run_accept.
  - apply preserves_move_by_entities.
Qed.

Lemma preserves_save_inactivity_callback :
  Preserves f (save_inactivity_callback cfg).
Proof.
  unfold save_inactivity_callback. sframe. unfold inactive. sframe.
Qed.

Lemma preserves_send_response r : Preserves f (send_response cfg r None).
Proof. unfold send_response. sframe. Qed.

Lemma preserves_answer_record_command v :
  Preserves f (answer_record_command cfg v).
Proof.
  apply answer_record_command_cases; sframe; apply preserves_send_response.
Qed.

Lemma preserves_test_record_message mt ents :
  Preserves f (test_record_message cfg mt ents).
Proof.
  unfold test_record_message. sframe.
  destruct (Ctx.get_age _ _) as [[v age]|]; sframe.
  destruct (age =? 0)%nat.
  - sframe. apply preserves_answer_record_command.
  - destruct (entity_equals cfg v "start"); sframe.
Qed.

End EngineFrame2.

Section Rules.

Variable cfg : Config.

Lemma check_state_transition_eq d c :
  context d = Some c ->
  check_state_transition cfg d = move_to cfg (override_target c) false false d.
Proof.
  intros H. unfold check_state_transition.
  by rewrite (bind_get_context _ _ _ H).
Qed.

(** [check_intent_transition] gives up without touching anything, or
    hands a state name to [move_to]. *)
Lemma check_intent_transition_eq d c :
  context d = Some c ->
  match intent_target cfg (current_state_name d) c with
  | Raised e => check_intent_transition cfg d = mkOut d [] (Raised e)
  | Ok None =>
      check_intent_transition cfg d =
      mkOut d (out_events (check_intent_transition cfg d)) (Ok false)
  | Ok (Some n) =>
      exists i, check_intent_transition cfg d =
                with_events [LogInfo (MsgMovingOnIntent i)]
                  (move_to cfg (TName n) false false d)
  end.
Proof.
  intros H. unfold check_intent_transition, intent_target.
  rewrite (bind_get_context _ _ _ H).
  destruct (Ctx.intent_get c) as [i|]; [|reflexivity].
  destruct (negb (truthy i)); [reflexivity|].
  rewrite (bind_quiet _ _ _ _ (get_flow_eq cfg _ _)).
  destruct (find_flow cfg (current_state_name d) None) as [[fl|]|e];
    [|reflexivity|reflexivity].
  destruct (if name_given (get_state_for_intent fl i)
            then get_state_for_intent fl i
            else first_flow_for i (flows cfg)) as [n|]; simpl.
  - destruct (nonempty n); [|reflexivity].
    exists i. by rewrite bind_tell.
  - reflexivity.
Qed.

Lemma rule1_no_transition d c p :
  context d = Some c ->
  plan cfg (current_state_name d) (Some c) (override_target c) = Ok p ->
  is_go (Ok p) = false ->
  check_state_transition cfg d =
  mkOut d (out_events (check_state_transition cfg d)) (Ok false).
Proof.
  intros H Hp Hg. rewrite (check_state_transition_eq d c H).
  eapply move_to_no_go; [|exact Hg]. by rewrite H.
Qed.

Lemma rule2_no_transition d c n p :
  context d = Some c ->
  intent_target cfg (current_state_name d) c = Ok (Some n) ->
  plan cfg (current_state_name d) (Some c) (TName n) = Ok p ->
  is_go (Ok p) = false ->
  check_intent_transition cfg d =
  mkOut d (out_events (check_intent_transition cfg d)) (Ok false).
Proof.
  intros H Hi Hp Hg. pose proof (check_intent_transition_eq d c H) as E.
  rewrite Hi in E. destruct E as [i E]. rewrite E.
  rewrite (move_to_no_go cfg (TName n) false d p); [reflexivity| |exact Hg].
  by rewrite H.
Qed.

(** What [apply_rules] does once the first two rules have reported no
    transition. *)
Lemma apply_rules_after_two ents d ev1 ev2 :
  check_state_transition cfg d = mkOut d ev1 (Ok false) ->
  check_intent_transition cfg d = mkOut d ev2 (Ok false) ->
  apply_rules cfg ents d =
  with_events (ev1 ++ ev2 ++ [PrintFoo (keys ents)])
    (match find_state cfg (current_state_name d) None with
     | Ok (Some s) =>
         if accepts_message s (keys ents)
         then (run_accept cfg true;; save_state cfg) d
         else (move_by_entities cfg ents;; save_state cfg) d
     | Ok None => mkOut d [] (Raised AttributeError)
     | Raised e => mkOut d [] (Raised e)
     end).
Proof.
  intros H1 H2. unfold apply_rules.
  rewrite (bind_ok _ _ _ _ _ _ H1). unfold negb. rewrite when_true.
  rewrite (bind_ok _ _ _ _ _ _ H2). rewrite when_true.
  rewrite bind_tell, !with_events_app.
  rewrite (bind_quiet _ _ _ _ (get_state_eq cfg _ _)).
  rewrite <- app_assoc.
  destruct (find_state cfg (current_state_name d) None) as [[s|]|e];
    try reflexivity.
  destruct (accepts_message s (keys ents)); reflexivity.
Qed.

Lemma accept_or_fallback_inv cur ents r :
  accept_or_fallback cfg cur ents = Ok r ->
  exists s, find_state cfg cur None = Ok (Some s)
            /\ r = if accepts_message s (keys ents) then Accept else Fallback.
Proof.
  unfold accept_or_fallback.
  destruct (find_state cfg cur None) as [[s|]|]; try discriminate.
  intros [= <-]. eauto.
Qed.

(** The three ways the rules can end, read off [winning_rule]. *)
Lemma winning_rule_inv cur c ents r :
  winning_rule cfg cur c ents = Ok r ->
  (r = Override
   /\ exists n a, plan cfg cur (Some c) (override_target c) = Ok (Go n a))
  \/ (exists p1, plan cfg cur (Some c) (override_target c) = Ok p1
                 /\ is_go (Ok p1) = false
      /\ ((r = Intent
           /\ exists n m a, intent_target cfg cur c = Ok (Some n)
                            /\ plan cfg cur (Some c) (TName n) = Ok (Go m a))
          \/ ((intent_target cfg cur c = Ok None
               \/ exists n p2, intent_target cfg cur c = Ok (Some n)
                               /\ plan cfg cur (Some c) (TName n) = Ok p2
                               /\ is_go (Ok p2) = false)
              /\ accept_or_fallback cfg cur ents = Ok r))).
Proof.
  unfold winning_rule.
  destruct (plan cfg cur (Some c) (override_target c)) as [p1|] eqn:E1;
    [|discriminate].
  assert (Hcase : (exists n a, p1 = Go n a) \/ is_go (Ok p1) = false).
  { destruct p1; eauto. }
  destruct Hcase as [(n & a & ->)|Hg].
  { intros [= <-]. left. eauto. }
  intros H. right. exists p1. split; [reflexivity|]. split; [exact Hg|].
  assert (H' : match intent_target cfg cur c with
               | Ok (Some n) =>
                   match plan cfg cur (Some c) (TName n) with
                   | Ok (Go _ _) => Ok Intent
                   | Ok _ => accept_or_fallback cfg cur ents
                   | Raised e => Raised e
                   end
               | Ok None => accept_or_fallback cfg cur ents
               | Raised e => Raised e
               end = Ok r).
  { destruct p1; [exact H|exact H|discriminate]. }
  clear H. destruct (intent_target cfg cur c) as [[n|]|]; [| |discriminate].
  - destruct (plan cfg cur (Some c) (TName n)) as [p2|] eqn:E2; [|discriminate].
    destruct p2 as [m|m|m a].
    + right. split; [|exact H']. right. exists n, (NoSuchState m). eauto.
    + right. split; [|exact H']. right. exists n, (Stay m). eauto.
    + injection H' as <-. left. split; [reflexivity|]. eauto 6.
  - right. split; [by left|exact H'].
Qed.

End Rules.

(** ** The transition rules of a turn *)

Section TurnRules.

Variable cfg : Config.

Lemma rules_no_transition d c ents r :
  context d = Some c ->
  winning_rule cfg (current_state_name d) c ents = Ok r ->
  r <> Override -> r <> Intent ->
  check_state_transition cfg d
    = mkOut d (out_events (check_state_transition cfg d)) (Ok false)
  /\ check_intent_transition cfg d
     = mkOut d (out_events (check_intent_transition cfg d)) (Ok false)
  /\ accept_or_fallback cfg (current_state_name d) ents = Ok r.
Proof.
  intros Hc Hw Ho Hi.
  destruct (winning_rule_inv cfg _ _ _ _ Hw)
    as [[-> _]|(p1 & Hp1 & Hg1 & [[-> _]|[Hint Haf]])]; try done.
  split; [by eapply rule1_no_transition|]. split; [|exact Haf].
  destruct Hint as [Hn|(n & p2 & Hn & Hp2 & Hg2)].
  - pose proof (check_intent_transition_eq cfg d c Hc) as E.
    by rewrite Hn in E.
  - by eapply rule2_no_transition.
Qed.

Lemma rules_override ents d c :
  context d = Some c ->
  winning_rule cfg (current_state_name d) c ents = Ok Override ->
  apply_rules cfg ents d = (_ <- check_state_transition cfg;; ret tt) d
  /\ out_result (check_state_transition cfg d) <> Ok false.
Proof.
  intros Hc Hw.
  destruct (winning_rule_inv cfg _ _ _ _ Hw)
    as [[_ (n & a & Hp)]|(p1 & _ & _ & [[? _]|[_ Haf]])]; [|done|].
  2:{ destruct (accept_or_fallback_inv cfg _ _ _ Haf) as (s & _ & Hs).
      by destruct (accepts_message s (keys ents)). }
  assert (Hr : out_result (check_state_transition cfg d) <> Ok false).
  { rewrite (check_state_transition_eq cfg d c Hc).
    eapply move_to_go_result. rewrite Hc. exact Hp. }
  split; [|exact Hr]. unfold apply_rules, bind.
  destruct (out_result (check_state_transition cfg d)) as [[]|e];
    [reflexivity|done|reflexivity].
Qed.

Lemma rules_intent ents d c :
  context d = Some c ->
  winning_rule cfg (current_state_name d) c ents = Ok Intent ->
  check_state_transition cfg d
    = mkOut d (out_events (check_state_transition cfg d)) (Ok false)
  /\ apply_rules cfg ents d
     = with_events (out_events (check_state_transition cfg d))
         ((_ <- check_intent_transition cfg;; ret tt) d)
  /\ out_result (check_intent_transition cfg d) <> Ok false.
Proof.
  intros Hc Hw.
  destruct (winning_rule_inv cfg _ _ _ _ Hw)
    as [[? _]|(p1 & Hp1 & Hg1 & [[_ (n & m & a & Hn & Hp)]|[_ Haf]])];
    [done| |].
  2:{ destruct (accept_or_fallback_inv cfg _ _ _ Haf) as (s & _ & Hs).
      by destruct (accepts_message s (keys ents)). }
  pose proof (rule1_no_transition cfg d c p1 Hc Hp1 Hg1) as H1.
  assert (Hr : out_result (check_intent_transition cfg d) <> Ok false).
  { pose proof (check_intent_transition_eq cfg d c Hc) as E.
    rewrite Hn in E. destruct E as [i ->].
    unfold with_events. cbn [out_result].
    eapply move_to_go_result. rewrite Hc. exact Hp. }
  split; [exact H1|]. split; [|exact Hr].
  unfold apply_rules. rewrite (bind_ok _ _ _ _ _ _ H1).
  unfold negb. rewrite when_true. f_equal. unfold bind.
  destruct (out_result (check_intent_transition cfg d)) as [[]|e];
    [reflexivity|done|reflexivity].
Qed.

Lemma rules_accept ents d c :
  context d = Some c ->
  winning_rule cfg (current_state_name d) c ents = Ok Accept ->
  check_state_transition cfg d
    = mkOut d (out_events (check_state_transition cfg d)) (Ok false)
  /\ check_intent_transition cfg d
     = mkOut d (out_events (check_intent_transition cfg d)) (Ok false)
  /\ apply_rules cfg ents d
     = with_events
         (out_events (check_state_transition cfg d)
          ++ out_events (check_intent_transition cfg d)
          ++ [PrintFoo (keys ents)])%list
         ((run_accept cfg true;; save_state cfg) d).
Proof.
  intros Hc Hw.
  destruct (rules_no_transition d c ents Accept Hc Hw) as (H1 & H2 & Haf);
    [done|done|].
  split; [exact H1|]. split; [exact H2|].
  rewrite (apply_rules_after_two cfg ents d _ _ H1 H2).
  destruct (accept_or_fallback_inv cfg _ _ _ Haf) as (s & -> & Hs).
  by destruct (accepts_message s (keys ents)).
Qed.

Lemma rules_fallback ents d c :
  context d = Some c ->
  winning_rule cfg (current_state_name d) c ents = Ok Fallback ->
  check_state_transition cfg d
    = mkOut d (out_events (check_state_transition cfg d)) (Ok false)
  /\ check_intent_transition cfg d
     = mkOut d (out_events (check_intent_transition cfg d)) (Ok false)
  /\ apply_rules cfg ents d
     = with_events
         (out_events (check_state_transition cfg d)
          ++ out_events (check_intent_transition cfg d)
          ++ [PrintFoo (keys ents)])%list
         ((move_by_entities cfg ents;; save_state cfg) d).
Proof.
  intros Hc Hw.
  destruct (rules_no_transition d c ents Fallback Hc Hw) as (H1 & H2 & Haf);
    [done|done|].
  split; [exact H1|]. split; [exact H2|].
  rewrite (apply_rules_after_two cfg ents d _ _ H1 H2).
  destruct (accept_or_fallback_inv cfg _ _ _ Haf) as (s & -> & Hs).
  by destruct (accepts_message s (keys ents)).
Qed.

(** C1 (as amended).  The rules of lines 110-118 are tried in order and
    a rule is reached only when every rule before it reported no
    transition: the override rule acts alone exactly when its target is
    in the registry and is not the current state, whatever the current
    state accepts; otherwise it changes nothing and the intent rule is
    tried, which acts alone when it finds a target that is in the
    registry and is not the current state; otherwise it changes nothing
    either and the current state's action is re-run in place if the
    state accepts the arrived keys, and the fallback runs if not. *)
Theorem rules_first_transition_wins ents d c :
  context d = Some c ->
  (winning_rule cfg (current_state_name d) c ents = Ok Override ->
   apply_rules cfg ents d = (_ <- check_state_transition cfg;; ret tt) d
   /\ out_result (check_state_transition cfg d) <> Ok false)
  /\ (winning_rule cfg (current_state_name d) c ents = Ok Intent ->
      check_state_transition cfg d
        = mkOut d (out_events (check_state_transition cfg d)) (Ok false)
      /\ apply_rules cfg ents d
         = with_events (out_events (check_state_transition cfg d))
             ((_ <- check_intent_transition cfg;; ret tt) d)
      /\ out_result (check_intent_transition cfg d) <> Ok false)
  /\ (winning_rule cfg (current_state_name d) c ents = Ok Accept ->
      check_state_transition cfg d
        = mkOut d (out_events (check_state_transition cfg d)) (Ok false)
      /\ check_intent_transition cfg d
         = mkOut d (out_events (check_intent_transition cfg d)) (Ok false)
      /\ apply_rules cfg ents d
         = with_events
             (out_events (check_state_transition cfg d)
              ++ out_events (check_intent_transition cfg d)
              ++ [PrintFoo (keys ents)])%list
             ((run_accept cfg true;; save_state cfg) d))
  /\ (winning_rule cfg (current_state_name d) c ents = Ok Fallback ->
      check_state_transition cfg d
        = mkOut d (out_events (check_state_transition cfg d)) (Ok false)
      /\ check_intent_transition cfg d
         = mkOut d (out_events (check_intent_transition cfg d)) (Ok false)
      /\ apply_rules cfg ents d
         = with_events
             (out_events (check_state_transition cfg d)
              ++ out_events (check_intent_transition cfg d)
              ++ [PrintFoo (keys ents)])%list
             ((move_by_entities cfg ents;; save_state cfg) d)).
Proof.
  intros Hc. split; [|split; [|split]]; intros Hw.
  - by apply (rules_override ents d c).
  - by apply (rules_intent ents d c).
  - by apply (rules_accept ents d c).
  - by apply (rules_fallback ents d c).
Qed.

End TurnRules.

Section Turn.

Variable cfg : Config.

Lemma for_each_post_ok l d r :
  recording d = Some r ->
  exists ev, for_each (post_response) l d = mkOut d ev (Ok tt).
Proof.
  intros H. induction l as [|x l [ev IH]].
  - exists []. reflexivity.
  - rewrite for_each_cons. unfold post_response at 1. mrun.
    rewrite (bind_get_recording _ _ _ H).
    destruct r; mrun; rewrite IH; eexists; reflexivity.
Qed.

Lemma for_each_log_ok l d :
  exists ev, for_each (log_response cfg) l d = mkOut d ev (Ok tt).
Proof.
  induction l as [|x l [ev IH]].
  - exists []. reflexivity.
  - rewrite for_each_cons. unfold log_response at 1. mrun.
    destruct (response_text x) as [t|];
      [destruct (nonempty t && should_log_messages cfg)|];
      mrun; rewrite IH; eexists; reflexivity.
Qed.

Lemma send_list_ok l d r :
  recording d = Some r ->
  exists ev, send_list cfg l d = mkOut d ev (Ok tt).
Proof.
  intros H. unfold send_list. destruct l as [|x l]; [by exists []|].
  destruct (for_each_post_ok (x :: l) d r H) as [e1 H1].
  destruct (for_each_log_ok (x :: l) d) as [e2 H2].
  rewrite bind_tell, (bind_ok _ _ _ _ _ _ H1), H2. mrun.
  eexists; reflexivity.
Qed.

(** With the recording flag set, [send_response] with no [next] posts
    and logs and nothing else. *)
Lemma send_response_ok a d r :
  recording d = Some r ->
  exists ev, send_response cfg a None d = mkOut d ev (Ok tt).
Proof.
  intros H. unfold send_response, send_response_only.
  destruct a as [|x|l].
  - mrun. by eexists.
  - destruct (response_truthy x); mrun; [|by eexists].
    destruct (send_list_ok [x] d r H) as [ev E].
    rewrite (bind_ok _ _ _ _ _ _ E). mrun. by eexists.
  - destruct (send_list_ok l d r H) as [ev E].
    rewrite (bind_ok _ _ _ _ _ _ E). mrun. by eexists.
Qed.

Lemma answer_record_command_ok v d r :
  recording d = Some r ->
  exists ev, answer_record_command cfg v d = mkOut d ev (Ok tt).
Proof.
  intros H.
  apply (answer_record_command_cases cfg v
           (fun m => exists ev, m d = mkOut d ev (Ok tt))).
  - destruct (send_response_ok (record_start_response cfg) d r H) as [ev E].
    rewrite bind_tell, E. mrun. by eexists.
  - destruct (send_response_ok (record_stop_response cfg) d r H) as [ev E].
    rewrite bind_tell, E. mrun. by eexists.
  - by eapply send_response_ok.
Qed.

(** [test_record_message] ends the turn exactly when the marker arrived
    this turn; otherwise it only sets the recording flag. *)
Lemma test_record_message_cases mt ents d c :
  context d = Some c ->
  (exists v d1 ev,
      Ctx.get_age c "test_record" = Some (v, 0%nat)
      /\ test_record_message cfg mt ents d = mkOut d1 ev (Ok true)
      /\ current_state_name d1 = current_state_name d
      /\ context d1 = Some c)
  \/ ((forall v, Ctx.get_age c "test_record" <> Some (v, 0%nat))
      /\ exists r ev,
          test_record_message cfg mt ents d
          = mkOut (set_recording (Some r) d) ev (Ok false)).
Proof.
  intros H. unfold test_record_message.
  rewrite (bind_get_context _ _ _ H), bind_modify.
  destruct (Ctx.get_age c "test_record") as [[v age]|].
  2:{ right. split; [done|]. exists false, []. reflexivity. }
  destruct age as [|age]; simpl.
  - left.
    destruct (answer_record_command_ok v (set_recording (Some false) d) false
                eq_refl) as [ev E].
    rewrite (bind_ok _ _ _ _ _ _ E).
    rewrite (bind_ok _ _ _ _ _ _ (save_state_eq cfg _)). mrun.
    eexists v, _, _. split; [reflexivity|]. split; [reflexivity|].
    unfold saved. simpl. rewrite H. simpl. done.
  - right. split; [intros v' [=]|].
    destruct (entity_equals cfg v "start").
    + mrun. exists true. eexists. reflexivity.
    + exists false, []. reflexivity.
Qed.

Lemma begin_turn_eq ents d c :
  context d = Some c ->
  begin_turn ents d =
  mkOut (set_context (Some (merged c ents)) d) [LogInfo MsgUserMessage] (Ok ents).
Proof.
  intros H. unfold begin_turn. mrun.
  rewrite (bind_get_context _ _ _ H). mrun.
  rewrite (bind_get_context _ (set_context _ d) (Ctx.incr_counter c) eq_refl).
  mrun. reflexivity.
Qed.

Lemma process_rejected mt ents d :
  accepted_type mt = false ->
  process cfg mt ents d = mkOut d [IfaceProcessingStart] (Ok tt).
Proof. intros H. unfold process. mrun. rewrite H. reflexivity. Qed.

Lemma out_dialog_with_events {A} ev (o : Outcome A) :
  out_dialog (with_events ev o) = out_dialog o.
Proof. reflexivity. Qed.

Lemma out_dialog_bind_tells {A} (m : M A) e1 e2 d :
  out_dialog ((m;; tell e1;; tell e2) d) = out_dialog (m d).
Proof.
  unfold bind at 1. destruct (out_result (m d)); reflexivity.
Qed.

(** Where a turn of an accepted type ends: either the recorder command
    ended it, or the rules ran on a dialog manager with the merged
    Context, the same current state and the recording flag set. *)
Lemma process_inv (P : Dialog -> Prop) mt ents d c :
  accepted_type mt = true ->
  context d = Some c ->
  (forall d1,
      current_state_name d1 = current_state_name d ->
      context d1 = Some (merged c ents) ->
      is_Some (recording d1) ->
      (forall v, Ctx.get_age (merged c ents) "test_record" <> Some (v, 0%nat)) ->
      P (out_dialog (apply_rules cfg ents d1))) ->
  (forall d1,
      current_state_name d1 = current_state_name d ->
      context d1 = Some (merged c ents) ->
      (exists v, Ctx.get_age (merged c ents) "test_record" = Some (v, 0%nat)) ->
      P d1) ->
  P (out_dialog (process cfg mt ents d)).
Proof.
  intros Ha Hc Hrules Hstop. unfold process. mrun. rewrite Ha. unfold negb.
  rewrite (bind_ok _ _ _ _ _ _ (begin_turn_eq ents d c Hc)).
  rewrite with_events_app, out_dialog_with_events.
  set (d0 := set_context (Some (merged c ents)) d).
  destruct (test_record_message_cases mt ents d0 (merged c ents) eq_refl)
    as [(v & d1 & ev & Hv & E & Hcur & Hctx)|(Hv & r & ev & E)];
    rewrite (bind_ok _ _ _ _ _ _ E), out_dialog_with_events.
  - apply Hstop; eauto.
  - assert (Hsave : exists d2,
               current_state_name d2 = current_state_name d
               /\ context d2 = Some (merged c ents)
               /\ is_Some (recording d2)
               /\ forall (k : unit -> M unit),
                   out_dialog
                     ((x <- when (negb (String.eqb mt "schedule"))
                              (save_inactivity_callback cfg);; k x)
                        (set_recording (Some r) d0))
                   = out_dialog (k tt d2)).
    { destruct (negb (String.eqb mt "schedule")).
      - exists (set_db (touched_store cfg (clock d) (db d))
                  (set_recording (Some r) d0)).
        split; [reflexivity|]. split; [reflexivity|]. split; [by eexists|].
        intros k. rewrite when_true. unfold save_inactivity_callback. mrun.
        assert (Hl : forall l x c',
                   context x = Some c' ->
                   exists ev', for_each (fun p : string * Z => inactive p.1 p.2) l x
                               = mkOut x ev' (Ok tt)).
        { induction l as [|p l IH]; intros x c' Hx; [by exists []|].
          rewrite for_each_cons. unfold inactive at 1. mrun.
          rewrite (bind_get_context _ _ _ Hx). mrun.
          destruct (IH x c' Hx) as [ev' ->]. mrun. eexists; reflexivity. }
        destruct (Hl (inactive_callbacks cfg)
                    (set_db (touched_store cfg (clock d) (db d))
                       (set_recording (Some r) d0)) (merged c ents) eq_refl)
          as [ev' E'].
        by rewrite (bind_ok _ _ _ _ _ _ E'), out_dialog_with_events.
      - exists (set_recording (Some r) d0).
        split; [reflexivity|]. split; [reflexivity|]. split; [by eexists|].
        intros k. by rewrite when_false, bind_ret. }
    destruct Hsave as (d2 & Hcur & Hctx & Hrec & Hk).
    rewrite Hk, bind_tell, out_dialog_with_events, out_dialog_bind_tells.
    by apply Hrules.
Qed.

End Turn.

(** ** A whole turn *)

Section WholeTurn.

Variable cfg : Config.

Lemma merged_counter c ents : counter (merged c ents) = counter c + 1.
Proof. reflexivity. Qed.

Lemma merged_history c ents : history (merged c ents) = history c.
Proof. reflexivity. Qed.

(** C8.  [process] accepts exactly the types message, postback and
    schedule.  For any other type it returns at once, having only told
    the channel adapter that processing started: the dialog manager
    (current state, counter, entities, history) is unchanged.  For an
    accepted type the counter ends one above where it started, provided
    no action of the registry writes the counter itself. *)
Theorem process_event_types mt ents d :
  (accepted_type mt = true <->
   mt = "message" \/ mt = "postback" \/ mt = "schedule")
  /\ (accepted_type mt = false ->
      process cfg mt ents d = mkOut d [IfaceProcessingStart] (Ok tt))
  /\ (accepted_type mt = true ->
      forall c, context d = Some c ->
                Forall (Preserves counter_of) (all_actions cfg) ->
                counter_of (out_dialog (process cfg mt ents d))
                = Some (counter c + 1)).
Proof.
  split; [|split].
  - unfold accepted_type. rewrite !orb_true_iff, !String.eqb_eq. tauto.
  - apply process_rejected.
  - intros Ha c Hc Hact.
    apply (process_inv cfg (fun d' => counter_of d' = Some (counter c + 1))
             mt ents d c Ha Hc).
    + intros d1 _ Hctx _ _.
      rewrite (preserves_apply_rules cfg counter_of); try done.
      * unfold counter_of. by rewrite Hctx.
      * intros c0 n t d0 H0. unfold counter_of. simpl. by rewrite H0.
    + intros d1 _ Hctx _. unfold counter_of. by rewrite Hctx.
Qed.

(** C7.  When the target [move_to] resolves to is the current state and
    no re-recording is asked for, [move_to] returns [False] and the
    dialog manager, its history included, is unchanged.  Consequently a
    turn in which the acceptance rule is the one that acts (or which the
    recorder ends first) leaves the history as it was, as long as the
    accepting state's action does not append to it itself. *)
Theorem identical_move_keeps_history :
  (forall t init d r,
      target_name (context d) t = Ok r ->
      (qualify (current_state_name d) r.1 r.2).1 = current_state_name d ->
      out_result (move_to cfg t init false d) = Ok false
      /\ out_dialog (move_to cfg t init false d) = d
      /\ history_of (out_dialog (move_to cfg t init false d)) = history_of d)
  /\ (forall mt ents d c s,
         accepted_type mt = true ->
         context d = Some c ->
         winning_rule cfg (current_state_name d) (merged c ents) ents
           = Ok Accept ->
         find_state cfg (current_state_name d) None = Ok (Some s) ->
         (forall a, state_action s = Some a -> Preserves history_of a) ->
         history_of (out_dialog (process cfg mt ents d)) = Some (history c)
         /\ length <$> history_of (out_dialog (process cfg mt ents d))
            = Some (length (history c))).
Proof.
  split.
  - intros t init d r Ht Hq.
    destruct (plan_identical cfg (current_state_name d) _ _ _ Ht Hq) as [Hp|Hp].
    + by rewrite (move_to_stay cfg _ _ _ Hp).
    + by rewrite (move_to_missing cfg _ _ _ _ _ Hp).
  - intros mt ents d c s Ha Hc Hw Hs Hact.
    assert (H : history_of (out_dialog (process cfg mt ents d))
                = Some (history c)); [|by rewrite H].
    apply (process_inv cfg (fun d' => history_of d' = Some (history c))
             mt ents d c Ha Hc).
    + intros d1 Hcur Hctx _ _. rewrite <- Hcur in Hw, Hs.
      destruct (rules_accept cfg ents d1 _ Hctx Hw) as (_ & _ & ->).
      rewrite out_dialog_with_events.
      assert (Hd1 : history_of d1 = Some (history c)).
      { unfold history_of. by rewrite Hctx. }
      assert (Hra : history_of (out_dialog (run_accept cfg true d1))
                    = Some (history c)).
      { rewrite (run_accept_eq cfg true d1 s Hs).
        destruct (state_action s) as [a|] eqn:E; [|exact Hd1].
        rewrite !out_dialog_with_events. by rewrite (Hact a eq_refl d1). }
      unfold bind.
      destruct (out_result (run_accept cfg true d1));
        cbn [out_result out_dialog out_events]; [|exact Hra].
      by rewrite (preserves_save_state cfg history_of).
    + intros d1 _ Hctx _. unfold history_of. by rewrite Hctx.
Qed.

End WholeTurn.

Section Fallback.

Variable cfg : Config.

Lemma well_formed_default_root : well_formed "default.root".
Proof. split; reflexivity. Qed.

(** A name with a flow part is looked up without regard to the current
    state. *)
Lemma find_state_default_root cur cur' :
  find_state cfg cur (Some "default.root")
  = find_state cfg cur' (Some "default.root").
Proof. reflexivity. Qed.

Lemma enter_state_pointer prev n d c s :
  prev <> n ->
  context d = Some c ->
  current_state_name d = n ->
  find_state cfg n (Some n) = Ok (Some s) ->
  Forall (Preserves current_state_name) (state_actions s) ->
  current_state_name (out_dialog (enter_state cfg prev n d)) = n.
Proof.
  intros Hne Hc Hcur Hs Hact.
  rewrite (enter_state_eq cfg prev n d c s Hne Hc); [|by rewrite Hcur].
  rewrite out_dialog_with_events.
  destruct (FlowOps.check_requirements s c).
  - rewrite (run_accept_eq cfg false d s);
      [|by rewrite Hcur, <- find_state_self].
    rewrite out_dialog_with_events.
    destruct (state_action s) as [a|] eqn:E; [|exact Hcur].
    rewrite out_dialog_with_events.
    by rewrite (own_action_preserves current_state_name s a Hact E d).
  - destruct (FlowOps.get_first_requirement s c) as [[i rq]|] eqn:E;
      [|exact Hcur].
    rewrite out_dialog_with_events.
    by rewrite (requirement_preserves current_state_name s c i rq Hact E d).
Qed.

Lemma finish_transition_pointer a n (o : Outcome unit) :
  current_state_name (out_dialog (finish_transition cfg a n o))
  = current_state_name (out_dialog o).
Proof.
  unfold finish_transition. rewrite out_dialog_with_events.
  assert (Hs : forall x, current_state_name
                           (out_dialog ((save_state cfg;; ret true) x))
                         = current_state_name x).
  { intros x. rewrite (bind_ok _ _ _ _ _ _ (save_state_eq cfg x)).
    rewrite out_dialog_with_events. unfold saved.
    destruct (context x); reflexivity. }
  destruct (out_result o); [apply Hs|].
  unfold bind at 1.
  pose proof (preserves_report_failure cfg current_state_name a n
                (out_dialog o)) as Hr.
  destruct (out_result (report_failure cfg a n (out_dialog o)));
    cbn [out_result out_dialog out_events]; [|exact Hr].
  change (current_state_name
            (out_dialog ((save_state cfg;; ret true)
                           (out_dialog (report_failure cfg a n (out_dialog o)))))
          = current_state_name (out_dialog o)).
  by rewrite Hs.
Qed.

(** C3 (as amended).  In a turn of an accepted type that the recorder
    does not end and in which the fallback is the rule that acts, the
    engine calls [move_to('default.root')]: when that state is in the
    registry and is not already the current state, the turn ends with
    the session at ['default.root'], whatever flow it was in, as long as
    the actions of ['default.root'] do not move the pointer
    themselves. *)
Theorem fallback_moves_to_default_root mt ents d c s0 :
  accepted_type mt = true ->
  context d = Some c ->
  (forall v, Ctx.get_age (merged c ents) "test_record" <> Some (v, 0%nat)) ->
  winning_rule cfg (current_state_name d) (merged c ents) ents = Ok Fallback ->
  find_state cfg (current_state_name d) (Some "default.root") = Ok (Some s0) ->
  current_state_name d <> "default.root" ->
  Forall (Preserves current_state_name) (state_actions s0) ->
  current_state_name (out_dialog (process cfg mt ents d)) = "default.root".
Proof.
  intros Ha Hc Hrec Hw Hs Hne Hact.
  apply (process_inv cfg (fun d' => current_state_name d' = "default.root")
           mt ents d c Ha Hc).
  2:{ intros d1 _ _ [v Hv]. by destruct (Hrec v). }
  intros d1 Hcur Hctx [r Hr] _. rewrite <- Hcur in Hw, Hs, Hne.
  destruct (rules_fallback cfg ents d1 _ Hctx Hw) as (_ & _ & ->).
  rewrite out_dialog_with_events. unfold move_by_entities.
  assert (Hp : plan cfg (current_state_name d1) (Some (merged c ents))
                 (TName "default.root")
               = Ok (Go "default.root" (Some "init"))).
  { eapply plan_well_formed_name;
      [reflexivity|apply well_formed_default_root|congruence|exact Hs]. }
  pose proof (move_to_go cfg (TName "default.root") false d1 _ r _ _
                Hctx Hr Hp) as E.
  assert (Hm : current_state_name
                 (out_dialog (move_to cfg (TName "default.root") false false d1))
               = "default.root").
  { rewrite E, out_dialog_with_events, finish_transition_pointer.
    eapply enter_state_pointer; [congruence|reflexivity|reflexivity| |exact Hact].
    rewrite <- Hs. apply find_state_default_root. }
  rewrite bind_assoc. unfold bind at 1.
  destruct (out_result (move_to cfg (TName "default.root") false false d1));
    cbn [out_result out_dialog out_events]; [|exact Hm].
  rewrite bind_ret.
  rewrite (preserves_save_state cfg current_state_name); [exact Hm|done].
Qed.

End Fallback.

Section InPlace.

Variable cfg : Config.

(** C10.  [run_accept] looks at nothing but the action of the current
    state: it calls that action (or warns that there is none) whatever
    the state's requirements are.  So when the acceptance rule acts, the
    action of the current state is called although a requirement may be
    unmet.  [move_to] itself calls nothing when it stays on the current
    state, and the guard around the requirement check lets nothing run
    when previous and new state are the same. *)
Theorem acceptance_skips_requirements :
  (forall b d s,
      find_state cfg (current_state_name d) None = Ok (Some s) ->
      run_accept cfg b d
      = with_events [LogInfo (MsgRunningAction (current_state_name d))]
          (match state_action s with
           | Some a => with_events [CallAction (current_state_name d)] (a d)
           | None => mkOut d [LogWarning MsgNoAction] (Ok tt)
           end))
  /\ (forall ents d c s a,
         context d = Some c ->
         winning_rule cfg (current_state_name d) c ents = Ok Accept ->
         find_state cfg (current_state_name d) None = Ok (Some s) ->
         state_action s = Some a ->
         apply_rules cfg ents d
         = with_events
             (out_events (check_state_transition cfg d)
              ++ out_events (check_intent_transition cfg d)
              ++ [PrintFoo (keys ents);
                  LogInfo (MsgRunningAction (current_state_name d));
                  CallAction (current_state_name d)])%list
             ((a;; save_state cfg) d))
  /\ (forall t init d,
         plan cfg (current_state_name d) (context d) t
           = Ok (Stay (current_state_name d)) ->
         move_to cfg t init false d = mkOut d [] (Ok false))
  /\ (forall n d,
         enter_state cfg n n d
         = mkOut d [LogError (MsgPlain n); LogError (MsgPlain n)] (Ok tt)).
Proof.
  split; [|split; [|split]].
  - intros b d s Hs. by apply run_accept_eq.
  - intros ents d c s a Hc Hw Hs Ha.
    destruct (rules_accept cfg ents d c Hc Hw) as (_ & _ & ->).
    unfold bind at 1. rewrite (run_accept_eq cfg true d s Hs), Ha.
    unfold bind, with_events. cbn [out_result out_dialog out_events].
    destruct (out_result (a d)); cbn [out_result out_dialog out_events];
      f_equal; rewrite <- ?app_assoc; reflexivity.
  - intros t init d H. by apply move_to_stay.
  - intros n d. unfold enter_state. mrun. by rewrite String.eqb_refl.
Qed.

End InPlace.

(** ** Construction *)

Section Construction.

Variable cfg : Config.

Lemma trusted_spec store :
  trusted cfg store = true <-> session_persisted cfg store.
Proof.
  unfold trusted, session_persisted.
  rewrite andb_true_iff, bool_decide_eq_true.
  destruct (dialog_version store) as [v|]; [|split; intros [? ?]; done].
  rewrite andb_true_iff, String.eqb_eq. split.
  - intros [[_ ->] ?]. done.
  - intros [[= ->] ?]. done.
Qed.

Lemma init_unfold store now :
  init cfg store now =
  (tell (LogInfo (MsgInitializing (chat_id cfg)));;
   modify (set_current "default.root");;
   context_dict <-
     (if trusted cfg store
      then
        match session_state store !! chat_id cfg with
        | None => raise AttributeError
        | Some state =>
            tell (LogInfo (MsgSessionExists state));;
            _ <- move_to cfg (TName state) true false;;
            match session_context store !! chat_id cfg with
            | Some blob => ret blob
            | None => raise AttributeError
            end
        end
      else
        modify (set_current "default.root");;
        tell (LogInfo MsgCreatingSession);;
        tell LoggerLogUser;;
        ret EmptyDict);;
   modify (set_context (Some (Ctx.from_dict context_dict))))
    (mkDialog "" None None store now).
Proof. reflexivity. Qed.

Lemma plan_named cur ctx n s :
  well_formed n ->
  find_state cfg cur (Some n) = Ok (Some s) ->
  plan cfg cur ctx (TName n)
  = Ok (if String.eqb n cur then Stay n else Go n (Some "init")).
Proof.
  intros Hw Hs. unfold plan. simpl.
  rewrite (qualify_well_formed cur n _ Hw), Hs.
  destruct Hw as [Hd _]. unfold contains in Hd.
  destruct (split_first dot n) eqn:E; [|discriminate].
  rewrite (split_first_nonempty _ _ _ E). simpl.
  by destruct (String.eqb n cur).
Qed.

(** The restoring [move_to] of the constructor: no Context yet, so
    nothing is recorded, run or saved. *)
Lemma move_to_initializing state d :
  context d = None ->
  contains dot (current_state_name d) = true ->
  exists ev,
    move_to cfg (TName state) true false d
    = mkOut (match plan cfg (current_state_name d) None (TName state) with
             | Ok (Go n _) => set_current n d
             | _ => d
             end) ev
        (Ok (is_go (plan cfg (current_state_name d) None (TName state)))).
Proof.
  intros Hc Hd. rewrite move_to_plan, Hc.
  destruct (plan cfg (current_state_name d) None (TName state))
    as [[n|n|n a]|e] eqn:Hp.
  - eexists; reflexivity.
  - simpl. mrun. eexists; reflexivity.
  - simpl. mrun. rewrite do_transition_init.
    rewrite (bind_ok _ _ _ _ _ _ (save_state_eq cfg _)). mrun.
    unfold saved. simpl. rewrite Hc. eexists; reflexivity.
  - exfalso. unfold plan in Hp. simpl in Hp.
    pose proof (qualify_contains_dot (current_state_name d) (Some state)
                  (Some "init")) as Hq.
    destruct (qualify (current_state_name d) (Some state) (Some "init"))
      as [n a]. simpl in Hq.
    destruct (find_state_total cfg (current_state_name d) n Hq Hd) as [o Ho].
    rewrite Ho in Hp. destruct o; [|discriminate].
    destruct (negb (nonempty n) || _); discriminate.
Qed.

(** C5.  If the persisted version marker is absent or differs from the
    engine's version, or there is no context blob under the session id,
    the constructor returns normally with an empty Context at
    ['default.root'] and leaves the store alone.  With a matching
    version, a blob and a stored state, it returns normally with the
    Context of the blob, at the stored state when that state is a
    qualified name of the registry.  So a Context other than the empty
    one, or a state other than ['default.root'], only comes from a
    store with matching version and a blob. *)
Theorem init_fresh_or_restored store now :
  (~ session_persisted cfg store ->
   init cfg store now
   = mkOut (mkDialog "default.root" (Some Ctx.empty) None store now)
       [LogInfo (MsgInitializing (chat_id cfg)); LogInfo MsgCreatingSession;
        LoggerLogUser] (Ok tt))
  /\ (forall state blob,
         dialog_version store = Some version ->
         session_context store !! chat_id cfg = Some blob ->
         session_state store !! chat_id cfg = Some state ->
         out_result (init cfg store now) = Ok tt
         /\ context (out_dialog (init cfg store now))
            = Some (Ctx.from_dict blob)
         /\ db (out_dialog (init cfg store now)) = store
         /\ current_state_name (out_dialog (init cfg store now))
            = match plan cfg "default.root" None (TName state) with
              | Ok (Go n _) => n
              | _ => "default.root"
              end
         /\ (forall s, well_formed state ->
                       find_state cfg "default.root" (Some state) = Ok (Some s) ->
                       current_state_name (out_dialog (init cfg store now))
                       = state))
  /\ (context (out_dialog (init cfg store now)) <> Some Ctx.empty
      \/ current_state_name (out_dialog (init cfg store now)) <> "default.root" ->
      session_persisted cfg store).
Proof.
  assert (Hfresh : trusted cfg store = false ->
                   init cfg store now
                   = mkOut (mkDialog "default.root" (Some Ctx.empty) None store now)
                       [LogInfo (MsgInitializing (chat_id cfg));
                        LogInfo MsgCreatingSession; LoggerLogUser] (Ok tt)).
  { intros Ht. rewrite init_unfold, Ht. mrun. reflexivity. }
  split; [|split].
  - intros Hn. apply Hfresh. destruct (trusted cfg store) eqn:Ht; [|done].
    by apply trusted_spec in Ht.
  - intros state blob Hv Hb Hs.
    assert (Ht : trusted cfg store = true).
    { apply trusted_spec. split; [exact Hv|by eexists]. }
    rewrite init_unfold, Ht, Hs, Hb. mrun.
    set (d0 := set_current "default.root" (mkDialog "" None None store now)).
    destruct (move_to_initializing state d0 eq_refl eq_refl) as [ev E].
    rewrite (bind_ok _ _ _ _ _ _ E). mrun.
    cbn [out_result out_dialog out_events].
    change (current_state_name d0) with "default.root" in *.
    assert (Hptr : current_state_name
                     (set_context (Some (Ctx.from_dict blob))
                        match plan cfg "default.root" None (TName state) with
                        | Ok (Go n _) => set_current n d0
                        | _ => d0
                        end)
                   = match plan cfg "default.root" None (TName state) with
                     | Ok (Go n _) => n
                     | _ => "default.root"
                     end).
    { by destruct (plan cfg "default.root" None (TName state)) as [[]|]. }
    split; [reflexivity|]. split; [|split; [|split; [exact Hptr|]]].
    + by destruct (plan cfg "default.root" None (TName state)) as [[]|].
    + by destruct (plan cfg "default.root" None (TName state)) as [[]|].
    + intros s Hw Hfs. etransitivity; [exact Hptr|].
      rewrite (plan_named "default.root" None state s Hw Hfs).
      destruct (String.eqb_spec state "default.root"); done.
  - intros Hdiff. apply trusted_spec.
    destruct (trusted cfg store) eqn:Ht; [reflexivity|].
    rewrite (Hfresh eq_refl) in Hdiff. simpl in Hdiff. by destruct Hdiff.
Qed.

End Construction.

(** ** The theorems at work on the small bot *)

Module Witness.
Import Example.

Lemma no_recorder_marker ents :
  Ctx.get_age (merged visited ents) "test_record" = None ->
  forall v, Ctx.get_age (merged visited ents) "test_record" <> Some (v, 0%nat).
Proof. intros -> v. discriminate. Qed.

(** A postback carries an override to [billing.root] and an amount the
    current state accepts: the override acts alone. *)
Lemma rules_first_transition_wins_witness :
  apply_rules cfg amount_with_override (rules_start amount_with_override)
  = (_ <- check_state_transition cfg;; ret tt) (rules_start amount_with_override)
  /\ out_result (check_state_transition cfg (rules_start amount_with_override))
     <> Ok false.
Proof.
  refine (proj1 (rules_first_transition_wins cfg amount_with_override
           (rules_start amount_with_override)
           (merged visited amount_with_override) eq_refl) _).
  vm_compute. reflexivity.
Defined.

(** The override names a state the registry does not have: the turn
    ends where it began and the acceptance rule has run. *)
Lemma override_always_wins_counterexample :
  ~ override_always_wins cfg "message" amount_with_unknown_override at_collect.
Proof.
  intros H.
  assert (Hg : Ctx.get (merged visited amount_with_unknown_override) "_state" 0
               = Some (VStr "default.nowhere")) by (vm_compute; reflexivity).
  assert (E : current_state_name
                (out_dialog (process cfg "message"
                               amount_with_unknown_override at_collect))
              = "billing.collect_amount") by (vm_compute; reflexivity).
  destruct (H visited "default.nowhere" eq_refl Hg) as [Hs _].
  rewrite E in Hs. discriminate Hs.
Qed.

(** From [billing.collect_amount] the fallback leads to
    [default.root], not to [billing.root]. *)
Lemma fallback_goes_to_flow_root_counterexample :
  ~ fallback_goes_to_flow_root cfg "message" small_talk at_collect.
Proof.
  intros H.
  assert (Hw : winning_rule cfg (current_state_name at_collect)
                 (merged visited small_talk) small_talk = Ok Fallback)
    by (vm_compute; reflexivity).
  assert (E : current_state_name
                (out_dialog (process cfg "message" small_talk at_collect))
              = "default.root") by (vm_compute; reflexivity).
  assert (E' : before_first dot (current_state_name at_collect) +:+ ".root"
               = "billing.root") by (vm_compute; reflexivity).
  unfold fallback_goes_to_flow_root in H.
  specialize (H visited eq_refl Hw). rewrite E, E' in H. discriminate H.
Qed.

Lemma fallback_moves_to_default_root_witness :
  current_state_name (out_dialog (process cfg "message" small_talk at_collect))
  = "default.root".
Proof.
  refine (fallback_moves_to_default_root cfg "message" small_talk at_collect
           visited root_state eq_refl eq_refl _ _ _ _ _).
  - apply no_recorder_marker. vm_compute. reflexivity.
  - vm_compute. reflexivity.
  - vm_compute. reflexivity.
  - vm_compute. discriminate.
  - repeat constructor.
Defined.

(** Entering [checkout.pay], whose action raises, with a
    [Context.debug()] that returns. *)
Lemma action_failure_contained_witness :
  move_to Faulty.debugging (TName "checkout.pay") false false Example.at_root
  = mkOut
      (mkDialog "checkout.pay"
         (Some (Ctx.add_state Ctx.empty "checkout.pay" 40)) (Some false)
         (saved_store Faulty.debugging "checkout.pay"
            (Ctx.add_state Ctx.empty "checkout.pay" 40) Example.empty_store)
         40)
      [LogInfo (MsgMoving "default.root" "checkout.pay" (Some "init"));
       IfaceStateChange "checkout.pay";
       LogError (MsgPlain "default.root"); LogError (MsgPlain "checkout.pay");
       LogInfo (MsgRunningAction "checkout.pay"); CallAction "checkout.pay";
       LogError MsgStars;
       LogError (MsgExceptionOccurred (Some "init") "checkout.pay");
       LogError (MsgChatId "test_1");
       LogError (MsgContext "1 state visited");
       LogException;
       LogInfo MsgChatbotMessage;
       IfacePostMessage (RTextMessage "Oh no! You broke me! :(");
       LogInfo (MsgMessage (RTextMessage "Oh no! You broke me! :("));
       LoggerLogBotMessage (RTextMessage "Oh no! You broke me! :(")
         "checkout.pay";
       LogInfo (MsgSavingState "checkout.pay")]
      (Ok true)
  /\ session_state
       (db (out_dialog (move_to Faulty.debugging (TName "checkout.pay") false
                          false Example.at_root))) !! "test_1"
     = Some "checkout.pay".
Proof.
  assert (Hp : plan Faulty.debugging (current_state_name Example.at_root)
                 (Some Ctx.empty) (TName "checkout.pay")
               = Ok (Go "checkout.pay" (Some "init")))
    by (vm_compute; reflexivity).
  assert (He : enter_state Faulty.debugging
                 (current_state_name Example.at_root) "checkout.pay"
                 (entered Example.at_root Ctx.empty "checkout.pay")
               = mkOut (entered Example.at_root Ctx.empty "checkout.pay")
                   [LogError (MsgPlain "default.root");
                    LogError (MsgPlain "checkout.pay");
                    LogInfo (MsgRunningAction "checkout.pay");
                    CallAction "checkout.pay"]
                   (Raised (ActionFailure "payment backend down")))
    by (vm_compute; reflexivity).
  destruct (action_failure_contained Faulty.debugging (TName "checkout.pay")
              false Example.at_root Ctx.empty false "checkout.pay"
              (Some "init") _ _ _ eq_refl eq_refl Hp He)
    as (_ & H & _).
  destruct (H (Ctx.add_state Ctx.empty "checkout.pay" 40) false
              eq_refl eq_refl) as (H1 & _ & _ & H5).
  split; [exact H1|exact (proj2 (H5 eq_refl))].
Defined.

(** The action of [default.reset] removes the [recording] attribute
    before it fails: the apology raises inside the handler and the
    exception leaves [move_to]. *)
Lemma failure_always_contained_counterexample :
  ~ failure_always_contained Faulty.cfg (TName "default.reset") Example.at_root.
Proof.
  intros H.
  assert (Hp : plan Faulty.cfg (current_state_name Example.at_root)
                 (Some Ctx.empty) (TName "default.reset")
               = Ok (Go "default.reset" (Some "init")))
    by (vm_compute; reflexivity).
  assert (He : enter_state Faulty.cfg (current_state_name Example.at_root)
                 "default.reset"
                 (entered Example.at_root Ctx.empty "default.reset")
               = mkOut (set_recording None
                          (entered Example.at_root Ctx.empty "default.reset"))
                   [LogError (MsgPlain "default.root");
                    LogError (MsgPlain "default.reset");
                    LogInfo (MsgRunningAction "default.reset");
                    CallAction "default.reset"]
                   (Raised (ActionFailure "lost")))
    by (vm_compute; reflexivity).
  destruct (H Ctx.empty false "default.reset" (Some "init") _ _ _
              eq_refl eq_refl Hp He) as [H1 _].
  assert (E : out_result (move_to Faulty.cfg (TName "default.reset") false
                            false Example.at_root)
              = Raised AttributeError) by (vm_compute; reflexivity).
  rewrite E in H1. discriminate.
Qed.

(** Entering [billing.collect_amount] without an account. *)
Lemma requirement_gate_witness :
  exists i rq,
    requirements collect_amount !! i = Some rq
    /\ move_to cfg (TName "billing.collect_amount") false false at_root
       = with_events
           (moving_events "default.root" "billing.collect_amount"
              (Some "init") false
            ++ [LogError (MsgPlain "default.root");
                LogError (MsgPlain "billing.collect_amount");
                CallRequirementAction "billing.collect_amount" i])%list
           (finish_transition cfg (Some "init") "billing.collect_amount"
              (req_action rq (entered at_root Ctx.empty "billing.collect_amount"))).
Proof.
  assert (Hp : plan cfg (current_state_name at_root) (Some Ctx.empty)
                 (TName "billing.collect_amount")
               = Ok (Go "billing.collect_amount" (Some "init")))
    by (vm_compute; reflexivity).
  assert (Hs : find_state cfg "billing.collect_amount"
                 (Some "billing.collect_amount") = Ok (Some collect_amount))
    by (vm_compute; reflexivity).
  assert (Hu : FlowOps.check_requirements collect_amount
                 (Ctx.add_state Ctx.empty "billing.collect_amount" (clock at_root))
               = false) by (vm_compute; reflexivity).
  destruct (proj1 (requirement_gate cfg (TName "billing.collect_amount") false
                     at_root Ctx.empty false "billing.collect_amount"
                     (Some "init") collect_amount eq_refl eq_refl Hp Hs) Hu)
    as (i & rq & H1 & _ & _ & H4).
  exists i, rq. exact (conj H1 H4).
Defined.

(** A store written by [save_state], and an empty one. *)
Lemma init_fresh_or_restored_witness :
  context (out_dialog (init cfg (saved_store_of visited) 50)) = Some visited
  /\ current_state_name (out_dialog (init cfg (saved_store_of visited) 50))
     = "billing.collect_amount"
  /\ init cfg empty_store 50
     = mkOut (mkDialog "default.root" (Some Ctx.empty) None empty_store 50)
         [LogInfo (MsgInitializing "test_1"); LogInfo MsgCreatingSession;
          LoggerLogUser] (Ok tt).
Proof.
  assert (Hb : session_context (saved_store_of visited) !! chat_id cfg
               = Some (DictOf visited)) by (vm_compute; reflexivity).
  assert (Hs : session_state (saved_store_of visited) !! chat_id cfg
               = Some "billing.collect_amount") by (vm_compute; reflexivity).
  assert (Hf : find_state cfg "default.root" (Some "billing.collect_amount")
               = Ok (Some collect_amount)) by (vm_compute; reflexivity).
  assert (Hw : well_formed "billing.collect_amount")
    by (split; vm_compute; reflexivity).
  assert (Hn : ~ session_persisted cfg empty_store).
  { intros [H _]. discriminate H. }
  destruct (init_fresh_or_restored cfg (saved_store_of visited) 50)
    as (_ & H & _).
  destruct (H "billing.collect_amount" (DictOf visited) eq_refl Hb Hs)
    as (_ & H2 & _ & _ & H5).
  exact (conj H2 (conj (H5 collect_amount Hw Hf)
                    (proj1 (init_fresh_or_restored cfg empty_store 50) Hn))).
Defined.

(** The session is at [billing.collect_amount] and an amount arrives. *)
Lemma identical_move_keeps_history_witness :
  out_dialog (move_to cfg (TName "collect_amount") false false at_collect)
  = at_collect
  /\ history_of (out_dialog (process cfg "message" amount_only at_collect))
     = Some (history visited).
Proof.
  assert (Hq : (qualify (current_state_name at_collect)
                  (Some "collect_amount") (Some "init")).1
               = current_state_name at_collect) by (vm_compute; reflexivity).
  assert (Hw : winning_rule cfg (current_state_name at_collect)
                 (merged visited amount_only) amount_only = Ok Accept)
    by (vm_compute; reflexivity).
  assert (Hs : find_state cfg (current_state_name at_collect) None
               = Ok (Some collect_amount)) by (vm_compute; reflexivity).
  assert (Ha : forall a, state_action collect_amount = Some a ->
                         Preserves history_of a).
  { intros a [= <-] d. reflexivity. }
  destruct identical_move_keeps_history with (cfg := cfg) as [H1 H2].
  destruct (H1 (TName "collect_amount") false at_collect
              (Some "collect_amount", Some "init") eq_refl Hq) as (_ & H12 & _).
  destruct (H2 "message" amount_only at_collect visited collect_amount
              eq_refl eq_refl Hw Hs Ha) as [H21 _].
  exact (conj H12 H21).
Defined.

Lemma process_event_types_witness :
  process cfg "seen_by" amount_only at_collect
  = mkOut at_collect [IfaceProcessingStart] (Ok tt)
  /\ counter_of (out_dialog (process cfg "message" amount_only at_collect))
     = Some 3.
Proof.
  assert (Hact : Forall (Preserves counter_of) (all_actions cfg))
    by repeat constructor.
  destruct (process_event_types cfg "seen_by" amount_only at_collect)
    as (_ & H1 & _).
  destruct (process_event_types cfg "message" amount_only at_collect)
    as (_ & _ & H2).
  exact (conj (H1 eq_refl) (H2 eq_refl visited eq_refl Hact)).
Defined.

(** History [default.root, billing.root, billing.collect_amount]:
    [move_to(2)] goes to [billing.root]. *)
Lemma move_to_history_offset_witness :
  Ctx.get_history_state visited (2 - 1) = Some (mkEntry "billing.root" 20)
  /\ move_to cfg (TInt 2) false false at_collect
     = with_events
         (moving_events "billing.collect_amount" "billing.root" None false)
         (finish_transition cfg None "billing.root"
            (enter_state cfg "billing.collect_amount" "billing.root"
               (entered at_collect visited "billing.root"))).
Proof.
  assert (Hf : find_state cfg (current_state_name at_collect)
                 (Some "billing.root") = Ok (Some root_state))
    by (vm_compute; reflexivity).
  assert (Hw : well_formed "billing.root") by (split; vm_compute; reflexivity).
  assert (Hne : "billing.root" <> current_state_name at_collect)
    by (vm_compute; discriminate).
  destruct (move_to_history_offset cfg 2 at_collect visited eq_refl)
    as (_ & H2 & H3 & _).
  pose proof (H2 [mkEntry "default.root" 10] (mkEntry "billing.root" 20)
                [mkEntry "billing.collect_amount" 30] eq_refl eq_refl) as Hg.
  exact (conj Hg (H3 (mkEntry "billing.root" 20) root_state false false
                    Hg Hw Hne Hf eq_refl)).
Defined.

(** [billing.collect_amount] lacks its account, yet its own action
    answers the amount. *)
Lemma acceptance_skips_requirements_witness :
  FlowOps.check_requirements collect_amount (merged visited amount_only) = false
  /\ apply_rules cfg amount_only (rules_start amount_only)
     = with_events
         (out_events (check_state_transition cfg (rules_start amount_only))
          ++ out_events (check_intent_transition cfg (rules_start amount_only))
          ++ [PrintFoo (keys amount_only);
              LogInfo (MsgRunningAction "billing.collect_amount");
              CallAction "billing.collect_amount"])%list
         ((say "How much?";; save_state cfg) (rules_start amount_only)).
Proof.
  assert (Hu : FlowOps.check_requirements collect_amount
                 (merged visited amount_only) = false)
    by (vm_compute; reflexivity).
  assert (Hw : winning_rule cfg (current_state_name (rules_start amount_only))
                 (merged visited amount_only) amount_only = Ok Accept)
    by (vm_compute; reflexivity).
  assert (Hs : find_state cfg (current_state_name (rules_start amount_only)) None
               = Ok (Some collect_amount)) by (vm_compute; reflexivity).
  destruct acceptance_skips_requirements with (cfg := cfg) as (_ & H2 & _).
  exact (conj Hu (H2 amount_only (rules_start amount_only)
                    (merged visited amount_only) collect_amount
                    (say "How much?") eq_refl Hw Hs eq_refl)).
Defined.

End Witness.

(** C6.  The claim fails for a name with an empty flow part.  The small
    bot has no state ['.root'], yet [move_to('.root')] from
    ['billing.collect_amount'] passes the test of line 245, because
    [get_flow('')] answers with the current flow: the call returns
    [True], ['.root'] is the current state, is in the history and is
    persisted, the user gets the apology for the [AttributeError] of line
    269, and from then on [get_state()] finds no state at all: the next
    message ends in an [AttributeError]. *)
Theorem move_to_empty_flow_name :
  registered Example.cfg ".root" = false
  /\ out_result (move_to Example.cfg (TName ".root") false false
                   Example.at_collect) = Ok true
  /\ current_state_name
       (out_dialog (move_to Example.cfg (TName ".root") false false
                      Example.at_collect)) = ".root"
  /\ history_of
       (out_dialog (move_to Example.cfg (TName ".root") false false
                      Example.at_collect))
     = Some (history Example.visited ++ [mkEntry ".root" 40])%list
  /\ posted (out_events (move_to Example.cfg (TName ".root") false false
                           Example.at_collect))
     = [apology Example.cfg]
  /\ session_state
       (db (out_dialog (move_to Example.cfg (TName ".root") false false
                          Example.at_collect))) !! "test_1" = Some ".root"
  /\ find_state Example.cfg ".root" None = Ok None
  /\ out_result
       (process Example.cfg "message" Example.small_talk
          (out_dialog (move_to Example.cfg (TName ".root") false false
                         Example.at_collect)))
     = Raised AttributeError.
Proof. vm_compute. repeat split; reflexivity. Qed.

(** ** Qualified names *)

Lemma split_first_app c s l r :
  split_first c s = Some (l, r) -> s = l +:+ String c r.
Proof.
  revert l. induction s as [|x s IH]; intros l; simpl; [discriminate|].
  destruct (Ascii.eqb_spec x c) as [->|_].
  - intros [= <- <-]. reflexivity.
  - destruct (split_first c s) as [[l' r']|]; [|discriminate].
    intros [= <- <-].
    change (String x s = String x (l' +:+ String c r')). f_equal. by apply IH.
Qed.

Lemma contains_app c a b :
  contains c (a +:+ b) = contains c a || contains c b.
Proof.
  unfold contains. induction a as [|x a IH]; simpl; [reflexivity|].
  destruct (Ascii.eqb x c); [reflexivity|].
  destruct (split_first c (a +:+ b)) as [[l r]|],
           (split_first c a) as [[l' r']|]; simpl in *;
    try reflexivity; exact IH.
Qed.

Lemma split_first_left c s l r :
  split_first c s = Some (l, r) -> contains c l = false.
Proof.
  unfold contains. revert l. induction s as [|x s IH]; intros l; simpl;
    [discriminate|].
  destruct (Ascii.eqb x c) eqn:E.
  - intros [= <- <-]. reflexivity.
  - destruct (split_first c s) as [[l' r']|]; [|discriminate].
    intros [= <- <-]. simpl. rewrite E.
    specialize (IH l' eq_refl).
    by destruct (split_first c l') as [[]|].
Qed.

Lemma contains_before_first c c' s :
  contains c s = false -> contains c (before_first c' s) = false.
Proof.
  unfold before_first. destruct (split_first c' s) as [[l r]|] eqn:E; [|done].
  apply split_first_app in E. subst s. rewrite contains_app.
  by intros [H _]%orb_false_iff.
Qed.

(** The name [move_to] looks up carries no [:<action>] suffix when the
    current one carries none. *)
Lemma qualify_colon_free cur n a :
  contains colon cur = false -> contains colon (qualify cur n a).1 = false.
Proof.
  intros Hc. unfold qualify.
  set (n1 := match n with
             | Some s => if nonempty s then s else cur
             | None => cur
             end).
  assert (Hflow : forall m, contains colon m = false ->
                            contains colon (before_first dot cur +:+ "." +:+ m)
                            = false).
  { intros m Hm.
    rewrite contains_app, (contains_before_first _ _ _ Hc), contains_app, Hm.
    reflexivity. }
  destruct (split_first colon n1) as [[l r]|] eqn:E; simpl.
  - pose proof (split_first_left _ _ _ _ E) as Hl.
    destruct (contains dot l); auto.
  - assert (Hn : contains colon n1 = false) by (unfold contains; by rewrite E).
    destruct (contains dot n1); auto.
Qed.

Section Qualified.

Variable cfg : Config.

(** A planned transition leads to a qualified name. *)
Lemma plan_go_qualified cur ctx t n a :
  plan cfg cur ctx t = Ok (Go n a) -> well_formed cur -> well_formed n.
Proof.
  unfold plan. destruct (target_name ctx t) as [r|]; [|discriminate].
  pose proof (qualify_contains_dot cur r.1 r.2) as Hd.
  pose proof (qualify_colon_free cur r.1 r.2) as Hc.
  destruct (qualify cur r.1 r.2) as [name act]. simpl in Hd, Hc.
  destruct (find_state cfg cur (Some name)) as [[s|]|]; try discriminate.
  destruct (negb (nonempty name) || _); [discriminate|].
  intros [= <- <-] [_ Hcur]. split; auto.
Qed.

Lemma target_of_qualified cur n :
  target_of cfg cur n -> well_formed cur -> well_formed n.
Proof. intros (ctx & t & a & H). eauto using plan_go_qualified. Qed.

(** On a qualified name the look-up finds its flow part. *)
Lemma find_state_qualified cur :
  contains dot cur = true -> exists o, find_state cfg cur None = Ok o.
Proof.
  intros H. rewrite <- find_state_self. by apply find_state_total.
Qed.

End Qualified.

(** ** Invariants of the engine *)

Lemma in_state_actions_own s a (P : Action -> Prop) :
  Forall P (state_actions s) -> state_action s = Some a -> P a.
Proof.
  unfold state_actions. intros H E. rewrite E in H. simpl in H.
  by inversion H.
Qed.

Lemma in_state_actions_requirement s c i rq (P : Action -> Prop) :
  Forall P (state_actions s) ->
  FlowOps.get_first_requirement s c = Some (i, rq) ->
  P (req_action rq).
Proof.
  unfold state_actions, FlowOps.get_first_requirement. intros H E.
  apply Forall_app in H as [_ H].
  destruct (first_unmet_spec _ _ _ _ _ E) as (j & _ & Hj & _).
  rewrite Forall_forall in H. apply H. apply list_elem_of_In, in_map.
  apply list_elem_of_In. eapply list_elem_of_lookup_2. exact Hj.
Qed.

Section Invariant.

Variable cfg : Config.
Variable R : Dialog -> Dialog -> Prop.

Hypothesis R_refl : forall d, R d d.
Hypothesis R_trans : forall d1 d2 d3, R d1 d2 -> R d2 d3 -> R d1 d3.

(** [R] relates a dialog manager to itself with the recording flag set,
    the store written, a state appended to the history, the entities of
    a turn merged in, or the state [move_to] has decided on made
    current... *)
Hypothesis R_recording : forall r d, R d (set_recording r d).
Hypothesis R_db : forall s d, R d (set_db s d).
Hypothesis R_add_state :
  forall c n t d, context d = Some c ->
                  R d (set_context (Some (Ctx.add_state c n t)) d).
Hypothesis R_merged :
  forall c ents d, context d = Some c ->
                   R d (set_context (Some (merged c ents)) d).
Hypothesis R_current :
  forall n d, target_of cfg (current_state_name d) n -> R d (set_current n d).
(** ...and every action of the registry runs within [R]. *)
Hypothesis R_actions : Forall (Steps R) (all_actions cfg).

Lemma steps_ret {A} (a : A) : Steps R (ret a).
Proof. intros d. apply R_refl. Qed.

Lemma steps_raise {A} (e : Exn) : Steps R (@raise A e).
Proof. intros d. apply R_refl. Qed.

Lemma steps_tell (e : Event) : Steps R (tell e).
Proof. intros d. apply R_refl. Qed.

Lemma steps_gets {A} (g : Dialog -> A) : Steps R (gets g).
Proof. intros d. apply R_refl. Qed.

Lemma steps_get_context : Steps R get_context.
Proof. intros d. unfold get_context. destruct (context d); apply R_refl. Qed.

Lemma steps_get_recording : Steps R get_recording.
Proof. intros d. unfold get_recording. destruct (recording d); apply R_refl. Qed.

Lemma steps_bind {A B} (m : M A) (k : A -> M B) :
  Steps R m -> (forall a, Steps R (k a)) -> Steps R (x <- m;; k x).
Proof.
  intros Hm Hk d. unfold bind. specialize (Hm d).
  destruct (out_result (m d)) as [a|e]; simpl; [|exact Hm].
  eapply R_trans; [exact Hm|apply Hk].
Qed.

Lemma steps_try {A} (body : M A) (handler : Exn -> M A) :
  Steps R body -> (forall e, Steps R (handler e)) ->
  Steps R (try_except body handler).
Proof.
  intros Hm Hk d. unfold try_except. specialize (Hm d).
  destruct (out_result (body d)) as [a|e]; simpl; [exact Hm|].
  eapply R_trans; [exact Hm|apply Hk].
Qed.

Lemma steps_when (b : bool) (m : M unit) : Steps R m -> Steps R (when b m).
Proof. destruct b; [done|]. intros _. apply steps_ret. Qed.

Lemma steps_for_each {A} (g : A -> M unit) (l : list A) :
  (forall a, Steps R (g a)) -> Steps R (for_each g l).
Proof.
  intros H. induction l as [|a l IH]; simpl; [apply steps_ret|].
  apply steps_bind; auto.
Qed.

Lemma steps_get_state n : Steps R (get_state cfg n).
Proof. intros d. rewrite get_state_eq. apply R_refl. Qed.

Lemma steps_get_flow n : Steps R (get_flow cfg n).
Proof. intros d. rewrite get_flow_eq. apply R_refl. Qed.

Lemma steps_save_state : Steps R (save_state cfg).
Proof.
  intros d. rewrite save_state_eq. unfold saved. simpl.
  destruct (context d); [apply R_db|apply R_refl].
Qed.

Lemma steps_record_state n : Steps R (record_state n).
Proof.
  intros d. unfold record_state, bind, get_context, gets, modify.
  destruct (context d) as [c|] eqn:E; simpl; [|apply R_refl].
  by apply R_add_state.
Qed.

Lemma steps_with_state {B} n (k : option State -> M B) :
  (forall s, Forall (Steps R) (state_actions s) -> Steps R (k (Some s))) ->
  Steps R (k None) ->
  Steps R (st <- get_state cfg n;; k st).
Proof.
  intros Hs Hn d. rewrite (bind_quiet _ _ _ _ (get_state_eq cfg _ _)).
  destruct (find_state cfg (current_state_name d) n) as [[s|]|e] eqn:E;
    [|apply Hn|apply R_refl].
  apply Hs. eapply find_state_actions; eauto.
Qed.

Ltac istep :=
  cbv beta iota;
  lazymatch goal with
  | |- Steps _ (bind (get_state _ _) _) =>
      apply steps_with_state; [intros ? ?|]
  | |- Steps _ (bind _ _) => apply steps_bind; [|intros ?]
  | |- Steps _ (try_except _ _) => apply steps_try; [|intros ?]
  | |- Steps _ (when _ _) => apply steps_when
  | |- Steps _ (for_each _ _) => apply steps_for_each; intros ?
  | |- Steps _ (ret _) => apply steps_ret
  | |- Steps _ (raise _) => apply steps_raise
  | |- Steps _ (tell _) => apply steps_tell
  | |- Steps _ (gets _) => apply steps_gets
  | |- Steps _ get_context => apply steps_get_context
  | |- Steps _ get_recording => apply steps_get_recording
  | |- Steps _ (get_flow _ _) => apply steps_get_flow
  | |- Steps _ (get_state _ _) => apply steps_get_state
  | |- Steps _ (save_state _) => apply steps_save_state
  | |- Steps _ (record_state _) => apply steps_record_state
  end.

Ltac isteps := repeat istep.

Lemma steps_send_list l : Steps R (send_list cfg l).
Proof.
  unfold send_list. destruct l as [|r l]; [apply steps_ret|].
  isteps; unfold post_response, log_response; isteps.
  all: destruct (response_text _); isteps.
Qed.

Lemma steps_send_response_only r : Steps R (send_response_only cfg r).
Proof.
  unfold send_response_only. destruct r as [|r|l]; isteps.
  - destruct (response_truthy r); isteps. apply steps_send_list.
  - apply steps_send_list.
Qed.

Lemma steps_report_failure a n : Steps R (report_failure cfg a n).
Proof.
  unfold report_failure. isteps.
  - intros d. rewrite log_context_snapshot_eq. apply R_refl.
  - apply steps_send_response_only.
Qed.

Lemma steps_run_accept b : Steps R (run_accept cfg b).
Proof.
  unfold run_accept. isteps.
  destruct (state_action _) as [act|] eqn:E; isteps.
  eapply (in_state_actions_own _ _ (Steps R)); eauto.
Qed.

Lemma steps_enter_state prev n : Steps R (enter_state cfg prev n).
Proof.
  unfold enter_state. isteps. destruct (String.eqb prev n); isteps.
  destruct (FlowOps.check_requirements _ _).
  - apply steps_run_accept.
  - destruct (FlowOps.get_first_requirement _ _) as [[i rq]|] eqn:E; isteps.
    eapply (in_state_actions_requirement _ _ _ _ (Steps R)); eauto.
Qed.

(** What [move_to] does once the new state is current. *)
Lemma steps_after_current cur n a init :
  Steps R (when (negb init)
             (tell (LogInfo (MsgMoving cur n a));;
              tell (IfaceStateChange n);;
              rec <- get_recording;;
              when rec (tell (RecorderStateChange n));;
              try_except (enter_state cfg cur n)
                (fun _ => report_failure cfg a n));;
           save_state cfg;; ret true).
Proof.
  isteps.
  - apply steps_enter_state.
  - apply steps_report_failure.
Qed.

Lemma steps_do_transition cur n a init d :
  target_of cfg (current_state_name d) n ->
  R d (out_dialog (do_transition cfg cur n a init d)).
Proof.
  intros Ht. unfold do_transition. rewrite bind_modify.
  eapply R_trans; [apply R_current; exact Ht|].
  apply (steps_after_current cur n a init (set_current n d)).
Qed.

Lemma record_state_pointer b n d :
  current_state_name (out_dialog (when b (record_state n) d))
  = current_state_name d.
Proof.
  destruct b; [|reflexivity]. simpl.
  unfold record_state, bind, get_context, gets, modify.
  destruct (context d); reflexivity.
Qed.

Lemma steps_move_to t init si : Steps R (move_to cfg t init si).
Proof.
  intros d. rewrite move_to_plan.
  destruct (plan cfg _ _ t) as [[n|n|n a]|e] eqn:Hp; try apply R_refl.
  - clear Hp.
    generalize (negb init && (negb (n =? current_state_name d)%string || si)).
    intros b. revert d.
    change (Steps R (when b (record_state n);; ret false)). isteps.
  - assert (Ht : target_of cfg (current_state_name d) n).
    { eexists _, _, _. exact Hp. }
    clear Hp. rewrite <- (record_state_pointer (negb init) n d) in Ht.
    pose proof (steps_when (negb init) _ (steps_record_state n) d) as H1.
    unfold bind at 1.
    destruct (out_result (when (negb init) (record_state n) d)); simpl;
      [|exact H1].
    eapply R_trans; [exact H1|]. by apply steps_do_transition.
Qed.

Lemma steps_check_state_transition : Steps R (check_state_transition cfg).
Proof. unfold check_state_transition. isteps. apply steps_move_to. Qed.

Lemma steps_check_intent_transition : Steps R (check_intent_transition cfg).
Proof.
  unfold check_intent_transition. isteps.
  destruct (Ctx.intent_get _) as [i|]; isteps.
  destruct (negb (truthy i)); isteps.
  match goal with |- context [match ?x with Some _ => _ | None => _ end] =>
    destruct x as [fl|] end; isteps.
  match goal with |- context [match ?x with Some _ => _ | None => _ end] =>
    destruct x as [nm|] end; isteps.
  destruct (nonempty nm); isteps. apply steps_move_to.
Qed.

Lemma steps_move_by_entities ents : Steps R (move_by_entities cfg ents).
Proof. unfold move_by_entities. isteps. apply steps_move_to. Qed.

Lemma steps_apply_rules ents : Steps R (apply_rules cfg ents).
Proof.
  unfold apply_rules. isteps;
    try apply steps_check_state_transition;
    try apply steps_check_intent_transition.
  destruct (accepts_message _ _); isteps.
  - apply steps_run_accept.
  - apply steps_move_by_entities.
Qed.

Lemma steps_save_inactivity_callback : Steps R (save_inactivity_callback cfg).
Proof.
  unfold save_inactivity_callback. isteps.
  - intros d. apply R_db.
  - unfold inactive. isteps.
Qed.

Lemma steps_send_response r next : Steps R (send_response cfg r next).
Proof.
  unfold send_response. isteps; [apply steps_send_response_only|].
  destruct next as [t|]; isteps.
  destruct r as [|x|[|x l]]; isteps; [|apply steps_move_to].
  destruct (response_truthy x); isteps. apply steps_move_to.
Qed.

Lemma steps_answer_record_command v : Steps R (answer_record_command cfg v).
Proof.
  apply answer_record_command_cases; isteps; apply steps_send_response.
Qed.

Lemma steps_test_record_message mt ents :
  Steps R (test_record_message cfg mt ents).
Proof.
  unfold test_record_message. isteps; [intros d; apply R_recording|].
  destruct (Ctx.get_age _ _) as [[v age]|]; isteps.
  destruct (age =? 0)%nat.
  - isteps. apply steps_answer_record_command.
  - destruct (entity_equals cfg v "start"); isteps.
    intros d. apply R_recording.
Qed.

Lemma steps_begin_turn ents : Steps R (begin_turn ents).
Proof.
  intros d. destruct (context d) as [c|] eqn:E.
  - rewrite (begin_turn_eq ents d c E). by apply R_merged.
  - unfold begin_turn. rewrite bind_tell.
    rewrite (bind_get_context_none _ _ E). apply R_refl.
Qed.

Lemma steps_process mt ents : Steps R (process cfg mt ents).
Proof.
  unfold process. isteps.
  destruct (negb (accepted_type mt)); isteps.
  - apply steps_begin_turn.
  - apply steps_test_record_message.
  - match goal with |- Steps _ (if ?b then _ else _) => destruct b end; isteps.
    + apply steps_save_inactivity_callback.
    + apply steps_apply_rules.
Qed.

End Invariant.

(** ** The current state name is always qualified *)

Section QualifiedName.

Variable cfg : Config.

Lemma keeps_qualified_refl d : keeps_qualified d d.
Proof. intros H. exact H. Qed.

Lemma keeps_qualified_trans d1 d2 d3 :
  keeps_qualified d1 d2 -> keeps_qualified d2 d3 -> keeps_qualified d1 d3.
Proof. unfold keeps_qualified. auto. Qed.

Lemma keeps_qualified_current n d :
  target_of cfg (current_state_name d) n -> keeps_qualified d (set_current n d).
Proof. intros Ht Hw. simpl. eapply target_of_qualified; eauto. Qed.

Ltac qualified_side :=
  first [ exact keeps_qualified_refl
        | exact keeps_qualified_trans
        | exact keeps_qualified_current
        | assumption
        | unfold keeps_qualified; simpl; intros; assumption ].

Lemma steps_qualified_move_to t init si :
  Forall (Steps keeps_qualified) (all_actions cfg) ->
  Steps keeps_qualified (move_to cfg t init si).
Proof.
  intros Ha. apply steps_move_to; qualified_side.
Qed.

Lemma steps_qualified_process mt ents :
  Forall (Steps keeps_qualified) (all_actions cfg) ->
  Steps keeps_qualified (process cfg mt ents).
Proof.
  intros Ha. apply steps_process; qualified_side.
Qed.

(** X1.  [move_to] keeps the current state name qualified: if it is
    [<flow>.<state>] without an [:<action>] suffix before the call, it is
    so after it, whatever the target, the flags and the way the call
    ends, provided the actions of the registry keep it so (they may call
    [move_to] themselves). *)
Theorem move_to_keeps_qualified t init si d :
  Forall (Steps keeps_qualified) (all_actions cfg) ->
  well_formed (current_state_name d) ->
  well_formed (current_state_name (out_dialog (move_to cfg t init si d))).
Proof. intros Ha Hw. exact (steps_qualified_move_to t init si Ha d Hw). Qed.

(** X2.  A whole turn keeps the current state name qualified, for every
    message type and set of entities, also when the turn ends in an
    exception. *)
Theorem process_keeps_qualified mt ents d :
  Forall (Steps keeps_qualified) (all_actions cfg) ->
  well_formed (current_state_name d) ->
  well_formed (current_state_name (out_dialog (process cfg mt ents d))).
Proof. intros Ha Hw. exact (steps_qualified_process mt ents Ha d Hw). Qed.

(** What [move_to(state, initializing=True)] of the constructor makes
    of a stored name. *)
Lemma plan_restored state :
  nonempty state = true ->
  let name := match split_first colon state with
              | Some (l, _) => l
              | None => state
              end in
  let full := if contains dot name then name else "default." +:+ name in
  let looked_up := if nonempty (before_first dot full) then full
                   else "default" +:+ full in
  match plan cfg "default.root" None (TName state) with
  | Ok (Go n _) => n
  | _ => "default.root"
  end
  = if registered cfg looked_up then full else "default.root".
Proof.
  intros Hs name full looked_up. unfold plan. simpl.
  assert (Hq : (qualify "default.root" (Some state) (Some "init")).1 = full).
  { unfold qualify. rewrite Hs. subst full name.
    destruct (split_first colon state) as [[l r]|]; simpl;
      match goal with |- context [contains dot ?x] =>
        destruct (contains dot x) end; reflexivity. }
  destruct (qualify "default.root" (Some state) (Some "init")) as [n a].
  simpl in Hq. subst n.
  assert (Hd : contains dot full = true).
  { subst full. destruct (contains dot name) eqn:E; [exact E|].
    apply (contains_app_dot "default" name). }
  assert (Hl : find_state cfg "default.root" (Some full)
               = Ok (registry_state cfg looked_up)).
  { subst looked_up. destruct (nonempty (before_first dot full)) eqn:Hf.
    - by apply find_state_registry.
    - by apply find_state_default_flow. }
  rewrite Hl. unfold registered.
  destruct (registry_state cfg looked_up); [|reflexivity].
  destruct (negb (nonempty full) || String.eqb full "default.root") eqn:E;
    [|reflexivity].
  apply orb_true_iff in E as [E|E].
  - exfalso. unfold contains in Hd.
    destruct (split_first dot full) eqn:F; [|discriminate].
    rewrite (split_first_nonempty _ _ _ F) in E. discriminate.
  - by apply String.eqb_eq in E.
Qed.

(** X3.  The constructor always leaves a qualified current state
    name, whatever the store holds.  From a store it does not trust it
    is ['default.root'].  From a store it trusts, with a non-empty
    stored name: the name is cut at its first colon and, if it has no
    dot, gets ['default.'] in front; that name is the current state if
    the registry has it, and ['default.root'] if not.  A name with an
    empty flow part (['.x']) is looked up in the flow [default] and
    kept as it is written. *)
Theorem init_qualified store now :
  well_formed (current_state_name (out_dialog (init cfg store now)))
  /\ (trusted cfg store = false ->
      current_state_name (out_dialog (init cfg store now)) = "default.root")
  /\ (forall state,
        trusted cfg store = true ->
        session_state store !! chat_id cfg = Some state ->
        nonempty state = true ->
        let name := match split_first colon state with
                    | Some (l, _) => l
                    | None => state
                    end in
        let full := if contains dot name then name
                    else "default." +:+ name in
        let looked_up := if nonempty (before_first dot full) then full
                         else "default" +:+ full in
        current_state_name (out_dialog (init cfg store now))
        = if registered cfg looked_up then full else "default.root").
Proof.
  rewrite init_unfold.
  set (d0 := set_current "default.root" (mkDialog "" None None store now)).
  rewrite bind_tell, bind_modify. fold d0.
  rewrite out_dialog_with_events.
  destruct (trusted cfg store).
  2:{ mrun. split; [apply well_formed_default_root|].
      split; [reflexivity|]. intros; discriminate. }
  destruct (session_state store !! chat_id cfg) as [state|].
  2:{ rewrite (bind_raised _ _ d0 d0 [] AttributeError eq_refl).
      split; [apply well_formed_default_root|].
      split; intros; discriminate. }
  rewrite bind_assoc, bind_tell, out_dialog_with_events, bind_assoc.
  destruct (move_to_initializing cfg state d0 eq_refl eq_refl) as [ev E].
  rewrite (bind_ok _ _ _ _ _ _ E), out_dialog_with_events.
  change (current_state_name d0) with "default.root".
  set (d1 := match plan cfg "default.root" None (TName state) with
             | Ok (Go n _) => set_current n d0
             | _ => d0
             end).
  assert (Hn : current_state_name d1
               = match plan cfg "default.root" None (TName state) with
                 | Ok (Go n _) => n
                 | _ => "default.root"
                 end).
  { subst d1.
    by destruct (plan cfg "default.root" None (TName state)) as [[]|]. }
  assert (Hw : well_formed (current_state_name d1)).
  { rewrite Hn.
    destruct (plan cfg "default.root" None (TName state))
      as [[n|n|n a]|e] eqn:Hp; try apply well_formed_default_root.
    eapply plan_go_qualified; [exact Hp|].
    apply well_formed_default_root. }
  assert (Hcur : current_state_name
                   (out_dialog
                      ((x <- match session_context store !! chat_id cfg with
                             | Some blob => ret blob
                             | None => raise AttributeError
                             end;;
                        modify (set_context (Some (Ctx.from_dict x)))) d1))
                 = current_state_name d1).
  { destruct (session_context store !! chat_id cfg) as [blob|].
    - mrun. reflexivity.
    - by rewrite (bind_raised _ _ _ _ [] AttributeError eq_refl). }
  rewrite Hcur. split; [exact Hw|]. split; [intros; discriminate|].
  intros state' _ [= <-] Hs. rewrite Hn. by apply plan_restored.
Qed.

(** X4.  [get_state()] and [get_flow()] raise [ValueError] exactly when
    the current state name has no dot; on a name with a dot they return
    (an unknown flow or state gives [None]) and in both cases nothing is
    changed or emitted. *)
Theorem lookups_raise_without_dot d :
  (contains dot (current_state_name d) = true ->
   exists s f, get_state cfg None d = mkOut d [] (Ok s)
               /\ get_flow cfg None d = mkOut d [] (Ok f))
  /\ (contains dot (current_state_name d) = false ->
      get_state cfg None d = mkOut d [] (Raised ValueError)
      /\ get_flow cfg None d = mkOut d [] (Raised ValueError)).
Proof.
  rewrite get_state_eq, get_flow_eq. unfold contains, find_state, find_flow.
  destruct (split_first dot (current_state_name d)) as [[f s]|] eqn:E.
  - split; [intros _|discriminate].
    destruct (nonempty f).
    + destruct (assoc f (flows cfg)); eauto.
    + destruct (assoc f (flows cfg)); eauto.
  - split; [discriminate|]. intros _. split; reflexivity.
Qed.

End QualifiedName.

Lemma init_qualified_witness :
  current_state_name
    (out_dialog
       (init Example.cfg (Faulty.stored_at "collect_amount:resume") 50))
  = "default.root"
  /\ current_state_name
       (out_dialog
          (init Example.cfg (Faulty.stored_at "billing.collect_amount:resume")
             50))
     = "billing.collect_amount"
  /\ current_state_name
       (out_dialog (init Example.cfg (Faulty.stored_at ".root") 50))
     = ".root".
Proof.
  split; [|split].
  - exact (proj2 (proj2 (init_qualified Example.cfg
                           (Faulty.stored_at "collect_amount:resume") 50))
             "collect_amount:resume" eq_refl eq_refl eq_refl).
  - exact (proj2 (proj2 (init_qualified Example.cfg
                           (Faulty.stored_at "billing.collect_amount:resume")
                           50))
             "billing.collect_amount:resume" eq_refl eq_refl eq_refl).
  - exact (proj2 (proj2 (init_qualified Example.cfg
                           (Faulty.stored_at ".root") 50))
             ".root" eq_refl eq_refl eq_refl).
Defined.

Lemma example_actions_keep_qualified :
  Forall (Steps keeps_qualified) (all_actions Example.cfg).
Proof. repeat (constructor; [intros d H; exact H|]). constructor. Qed.

Lemma move_to_keeps_qualified_witness :
  well_formed
    (current_state_name
       (out_dialog (move_to Example.cfg (TName "root:again") false false
                      Example.at_collect))).
Proof.
  apply move_to_keeps_qualified.
  - exact example_actions_keep_qualified.
  - split; vm_compute; reflexivity.
Defined.

Lemma process_keeps_qualified_witness :
  well_formed
    (current_state_name
       (out_dialog (process Example.cfg "message" Example.small_talk
                      Example.at_collect))).
Proof.
  apply process_keeps_qualified.
  - exact example_actions_keep_qualified.
  - split; vm_compute; reflexivity.
Defined.

Lemma lookups_raise_without_dot_witness :
  (exists s f,
      get_state Example.cfg None Example.at_collect
      = mkOut Example.at_collect [] (Ok s)
      /\ get_flow Example.cfg None Example.at_collect
         = mkOut Example.at_collect [] (Ok f))
  /\ get_state Example.cfg None (set_current "root" Example.at_collect)
     = mkOut (set_current "root" Example.at_collect) [] (Raised ValueError).
Proof.
  split.
  - apply (proj1 (lookups_raise_without_dot Example.cfg Example.at_collect)).
    vm_compute. reflexivity.
  - apply (proj2 (lookups_raise_without_dot Example.cfg
                    (set_current "root" Example.at_collect))).
    vm_compute. reflexivity.
Defined.

(** ** The history only grows *)

Section HistoryGrowth.

Variable cfg : Config.

Lemma history_extended_same d d' :
  history_of d' = history_of d -> history_extended d d'.
Proof.
  intros E h Hh. exists []. by rewrite E, Hh, app_nil_r.
Qed.

Lemma history_extended_trans d1 d2 d3 :
  history_extended d1 d2 -> history_extended d2 d3 -> history_extended d1 d3.
Proof.
  intros H12 H23 h Hh.
  destruct (H12 h Hh) as [h1 H1]. destruct (H23 _ H1) as [h2 H2].
  exists (h1 ++ h2)%list. by rewrite H2, app_assoc.
Qed.

Lemma history_extended_add_state c n t d :
  context d = Some c ->
  history_extended d (set_context (Some (Ctx.add_state c n t)) d).
Proof.
  intros Hc h Hh. unfold history_of in *. rewrite Hc in Hh.
  injection Hh as <-. eexists. reflexivity.
Qed.

Lemma history_extended_merged c ents d :
  context d = Some c ->
  history_extended d (set_context (Some (merged c ents)) d).
Proof.
  intros Hc. apply history_extended_same. unfold history_of. rewrite Hc.
  change (Some (history (merged c ents)) = Some (history c)).
  by rewrite merged_history.
Qed.

Ltac history_side :=
  first [ exact history_extended_trans
        | exact history_extended_add_state
        | exact history_extended_merged
        | assumption
        | intros; by apply history_extended_same ].

(** X5.  The history of visited states is append-only: after
    [move_to], and after a whole turn, the history is the one before
    followed by zero or more entries, however the call ends, provided
    the actions of the registry only append to it as well. *)
Theorem history_append_only d h :
  Forall (Steps history_extended) (all_actions cfg) ->
  history_of d = Some h ->
  (forall t init si,
      exists h', history_of (out_dialog (move_to cfg t init si d))
                 = Some (h ++ h')%list)
  /\ (forall mt ents,
         exists h', history_of (out_dialog (process cfg mt ents d))
                    = Some (h ++ h')%list).
Proof.
  intros Ha Hh. split.
  - intros t init si.
    assert (H : Steps history_extended (move_to cfg t init si))
      by (apply steps_move_to; history_side).
    exact (H d h Hh).
  - intros mt ents.
    assert (H : Steps history_extended (process cfg mt ents))
      by (apply steps_process; history_side).
    exact (H d h Hh).
Qed.

End HistoryGrowth.

Lemma history_append_only_witness :
  exists h',
    history_of (out_dialog (process Example.cfg "message" Example.small_talk
                              Example.at_collect))
    = Some (history Example.visited ++ h')%list.
Proof.
  refine (proj2 (history_append_only Example.cfg Example.at_collect
                   (history Example.visited) _ eq_refl) "message"
            Example.small_talk).
  repeat (constructor; [intros d h H; exists []; by rewrite app_nil_r|]).
  constructor.
Defined.

(** ** Persistence *)

Section Persistence.

Variable cfg : Config.

Lemma trusted_saved cur c s : trusted cfg (saved_store cfg cur c s) = true.
Proof.
  unfold trusted. apply andb_true_intro. split; [reflexivity|].
  apply bool_decide_eq_true_2. simpl. rewrite lookup_insert_eq. by eexists.
Qed.

Lemma trusted_cleared s : trusted cfg (clear_chat (chat_id cfg) s) = false.
Proof.
  unfold trusted. apply andb_false_intro2.
  apply bool_decide_eq_false_2. simpl. rewrite lookup_delete_eq.
  by intros [x Hx].
Qed.

Lemma init_fresh store now :
  trusted cfg store = false ->
  init cfg store now
  = mkOut (mkDialog "default.root" (Some Ctx.empty) None store now)
      [LogInfo (MsgInitializing (chat_id cfg)); LogInfo MsgCreatingSession;
       LoggerLogUser] (Ok tt).
Proof. intros Ht. rewrite init_unfold, Ht. mrun. reflexivity. Qed.

Lemma init_restored store now state blob s :
  trusted cfg store = true ->
  session_state store !! chat_id cfg = Some state ->
  session_context store !! chat_id cfg = Some blob ->
  well_formed state ->
  find_state cfg "default.root" (Some state) = Ok (Some s) ->
  exists ev,
    init cfg store now
    = mkOut (mkDialog state (Some (Ctx.from_dict blob)) None store now) ev
        (Ok tt).
Proof.
  intros Ht Hs Hb Hw Hf. rewrite init_unfold, Ht, Hs, Hb. mrun.
  set (d0 := set_current "default.root" (mkDialog "" None None store now)).
  destruct (move_to_initializing cfg state d0 eq_refl eq_refl) as [ev E].
  rewrite (bind_ok _ _ _ _ _ _ E). mrun.
  change (current_state_name d0) with "default.root".
  rewrite (plan_named cfg "default.root" None state s Hw Hf).
  destruct (String.eqb_spec state "default.root") as [->|_];
    eexists; reflexivity.
Qed.

(** X6.  What [save_state] writes, the constructor reads back: a
    manager constructed over the store left by [save_state] starts at
    the state and with the Context that were saved (when that state is
    a qualified name of the registry), with the recording flag unset
    and without writing to the store. *)
Theorem saved_session_is_restored d c s now :
  context d = Some c ->
  well_formed (current_state_name d) ->
  find_state cfg "default.root" (Some (current_state_name d)) = Ok (Some s) ->
  exists ev,
    init cfg (db (out_dialog (save_state cfg d))) now
    = mkOut (mkDialog (current_state_name d) (Some c) None
               (db (out_dialog (save_state cfg d))) now) ev (Ok tt).
Proof.
  intros Hc Hw Hf. rewrite save_state_eq. unfold saved. rewrite Hc. simpl.
  apply (init_restored _ now (current_state_name d) (Ctx.to_dict c) s);
    [apply trusted_saved| | |exact Hw|exact Hf];
    simpl; by rewrite lookup_insert_eq.
Qed.

(** X7.  After [clear_chat] the constructor starts a fresh session at
    ['default.root'] with an empty Context, whatever the store held.
    [clear_chat] removes the state pointer and the context blob of that
    chat only: the entries of other chats, the version marker, and the
    chat's own interface name, session blob and activity stamp stay. *)
Theorem clear_chat_forgets_session store now :
  init cfg (clear_chat (chat_id cfg) store) now
  = mkOut (mkDialog "default.root" (Some Ctx.empty) None
             (clear_chat (chat_id cfg) store) now)
      [LogInfo (MsgInitializing (chat_id cfg)); LogInfo MsgCreatingSession;
       LoggerLogUser] (Ok tt)
  /\ (forall chat other,
         other <> chat ->
         session_state (clear_chat chat store) !! other
         = session_state store !! other
         /\ session_context (clear_chat chat store) !! other
            = session_context store !! other)
  /\ (forall chat,
         session_state (clear_chat chat store) !! chat = None
         /\ session_context (clear_chat chat store) !! chat = None
         /\ dialog_version (clear_chat chat store) = dialog_version store
         /\ session_interface (clear_chat chat store) = session_interface store
         /\ chat_session (clear_chat chat store) = chat_session store
         /\ session_active (clear_chat chat store) = session_active store).
Proof.
  split; [apply init_fresh, trusted_cleared|]. split.
  - intros chat other Hne. simpl. by rewrite !lookup_delete_ne.
  - intros chat. simpl. by rewrite !lookup_delete_eq.
Qed.

(** X8.  [save_state] writes under its own chat id only: the entries of
    every other chat and all activity stamps are as before, and the
    manager itself (state, Context, recording flag) is unchanged. *)
Theorem save_state_own_entries d other :
  other <> chat_id cfg ->
  session_state (db (out_dialog (save_state cfg d))) !! other
  = session_state (db d) !! other
  /\ session_context (db (out_dialog (save_state cfg d))) !! other
     = session_context (db d) !! other
  /\ session_interface (db (out_dialog (save_state cfg d))) !! other
     = session_interface (db d) !! other
  /\ chat_session (db (out_dialog (save_state cfg d))) !! other
     = chat_session (db d) !! other
  /\ session_active (db (out_dialog (save_state cfg d)))
     = session_active (db d)
  /\ set_db (db d) (out_dialog (save_state cfg d)) = d.
Proof.
  intros Hne. rewrite save_state_eq. unfold saved. simpl.
  destruct (context d) as [c|]; simpl.
  - rewrite !lookup_insert_ne by done. by destruct d.
  - by destruct d.
Qed.

(** X9.  Saving twice is saving once, and before the constructor has
    set the Context [save_state] does nothing at all: no write, not
    even the version marker, and no log line. *)
Theorem save_state_idempotent d :
  out_dialog ((save_state cfg;; save_state cfg) d)
  = out_dialog (save_state cfg d)
  /\ (context d = None -> save_state cfg d = mkOut d [] (Ok tt)).
Proof.
  split.
  - rewrite (bind_ok _ _ _ _ _ _ (save_state_eq cfg d)).
    rewrite out_dialog_with_events, save_state_eq. simpl.
    unfold saved. destruct (context d) as [c|] eqn:E; simpl; rewrite E;
      [|reflexivity].
    unfold set_db, saved_store. simpl. by rewrite !insert_insert_eq.
  - intros E. rewrite save_state_eq. unfold saved. by rewrite E.
Qed.

End Persistence.

Lemma saved_session_is_restored_witness :
  exists ev,
    init Example.cfg (db (out_dialog (save_state Example.cfg Example.at_collect)))
      50
    = mkOut (mkDialog "billing.collect_amount" (Some Example.visited) None
               (db (out_dialog (save_state Example.cfg Example.at_collect))) 50)
        ev (Ok tt).
Proof.
  refine (saved_session_is_restored Example.cfg Example.at_collect
            Example.visited Example.collect_amount 50 eq_refl _ _).
  - split; vm_compute; reflexivity.
  - vm_compute. reflexivity.
Defined.

Lemma clear_chat_forgets_session_witness :
  session_state (clear_chat "test_1" (Example.saved_store_of Example.visited))
    !! "test_2"
  = session_state (Example.saved_store_of Example.visited) !! "test_2".
Proof.
  refine (proj1 (proj1 (proj2 (clear_chat_forgets_session Example.cfg
                                 (Example.saved_store_of Example.visited) 50))
                   "test_1" "test_2" _)).
  vm_compute. discriminate.
Defined.

Lemma save_state_own_entries_witness :
  session_state (db (out_dialog (save_state Example.cfg Example.at_collect)))
    !! "test_2"
  = session_state (db Example.at_collect) !! "test_2".
Proof.
  refine (proj1 (save_state_own_entries Example.cfg Example.at_collect
                   "test_2" _)).
  vm_compute. discriminate.
Defined.

Lemma save_state_idempotent_witness :
  save_state Example.cfg (mkDialog "default.root" None None Example.empty_store 0)
  = mkOut (mkDialog "default.root" None None Example.empty_store 0) [] (Ok tt).
Proof.
  exact (proj2 (save_state_idempotent Example.cfg
                  (mkDialog "default.root" None None Example.empty_store 0))
           eq_refl).
Defined.

(** ** Sending responses *)

Section Sending.

Variable cfg : Config.

Lemma for_each_post_events l d r :
  recording d = Some r ->
  for_each post_response l d = mkOut d (post_events r l) (Ok tt).
Proof.
  intros H. induction l as [|x l IH]; [reflexivity|].
  rewrite for_each_cons. unfold post_response at 1. mrun.
  rewrite (bind_get_recording _ _ _ H).
  destruct r; mrun; rewrite IH; reflexivity.
Qed.

Lemma for_each_log_events l d :
  for_each (log_response cfg) l d
  = mkOut d (log_events cfg (current_state_name d) l) (Ok tt).
Proof.
  induction l as [|x l IH]; [reflexivity|].
  rewrite for_each_cons. unfold log_response at 1. mrun.
  unfold log_events. simpl.
  destruct (response_text x) as [t|];
    [destruct (nonempty t && should_log_messages cfg)|];
    mrun; rewrite IH; reflexivity.
Qed.

(** The two loops of [send_response]: every response is posted before
    any is logged. *)
Lemma send_list_events x l d r :
  recording d = Some r ->
  send_list cfg (x :: l) d
  = mkOut d (LogInfo MsgChatbotMessage
             :: post_events r (x :: l)
             ++ log_events cfg (current_state_name d) (x :: l))%list (Ok tt).
Proof.
  intros H. unfold send_list.
  rewrite bind_tell, (bind_ok _ _ _ _ _ _ (for_each_post_events _ d r H)).
  rewrite for_each_log_events. reflexivity.
Qed.

Lemma posted_app e1 e2 : posted (e1 ++ e2) = (posted e1 ++ posted e2)%list.
Proof. apply omap_app. Qed.

Lemma recorded_app e1 e2 :
  recorded (e1 ++ e2) = (recorded e1 ++ recorded e2)%list.
Proof. apply omap_app. Qed.

Lemma posted_post_events r l : posted (post_events r l) = map as_message l.
Proof.
  induction l as [|x l IH]; [reflexivity|].
  change (post_events r (x :: l))
    with ((IfacePostMessage (as_message x)
           :: (if r then [RecorderBotMessage (as_message x)] else []))
          ++ post_events r l)%list.
  rewrite posted_app, IH. by destruct r.
Qed.

Lemma recorded_post_events r l :
  recorded (post_events r l) = if r then map as_message l else [].
Proof.
  induction l as [|x l IH]; [by destruct r|].
  change (post_events r (x :: l))
    with ((IfacePostMessage (as_message x)
           :: (if r then [RecorderBotMessage (as_message x)] else []))
          ++ post_events r l)%list.
  rewrite recorded_app, IH. by destruct r.
Qed.

Lemma quiet_log_events cur l :
  posted (log_events cfg cur l) = [] /\ recorded (log_events cfg cur l) = [].
Proof.
  induction l as [|x l [IH1 IH2]]; [done|].
  cbn [log_events flat_map]. fold (log_events cfg cur l).
  rewrite !posted_app, !recorded_app, IH1, IH2.
  destruct (response_text x) as [t|];
    [destruct (nonempty t && should_log_messages cfg)|]; done.
Qed.

Lemma send_list_posts l d r :
  recording d = Some r ->
  out_dialog (send_list cfg l d) = d
  /\ out_result (send_list cfg l d) = Ok tt
  /\ posted (out_events (send_list cfg l d)) = map as_message l
  /\ recorded (out_events (send_list cfg l d))
     = if r then map as_message l else [].
Proof.
  intros H. destruct l as [|x l]; [by destruct r|].
  rewrite (send_list_events x l d r H).
  cbn [out_dialog out_result out_events].
  destruct (quiet_log_events (current_state_name d) (x :: l)) as [Q1 Q2].
  change (LogInfo MsgChatbotMessage :: ?a ++ ?b)%list
    with ([LogInfo MsgChatbotMessage] ++ a ++ b)%list.
  rewrite !posted_app, !recorded_app, Q1, Q2.
  rewrite posted_post_events, recorded_post_events, !app_nil_r.
  done.
Qed.

(** X10.  With the recording flag set, [send_response(responses)] posts
    exactly the responses it was given, in their order, each bare string
    as a [TextMessage]; hands the same messages to the test recorder
    when recording and none otherwise; returns normally and leaves the
    manager as it was.  [None], an empty list and an empty string send
    nothing; an empty string inside a list is sent. *)
Theorem send_response_posts_in_order a d r :
  recording d = Some r ->
  out_dialog (send_response cfg a None d) = d
  /\ out_result (send_response cfg a None d) = Ok tt
  /\ posted (out_events (send_response cfg a None d))
     = map as_message (responses_of a)
  /\ recorded (out_events (send_response cfg a None d))
     = if r then map as_message (responses_of a) else [].
Proof.
  intros H. unfold send_response, send_response_only, responses_of.
  assert (Hl : forall l ev,
             let o := with_events ev ((send_list cfg l;; ret tt) d) in
             posted ev = [] -> recorded ev = [] ->
             out_dialog o = d /\ out_result o = Ok tt
             /\ posted (out_events o) = map as_message l
             /\ recorded (out_events o) = if r then map as_message l else []).
  { intros l ev o P1 P2. subst o.
    destruct (send_list_posts l d r H) as (S1 & S2 & S3 & S4).
    destruct (send_list cfg l d) as [d1 ev1 r1] eqn:E.
    simpl in S1, S2, S3, S4. subst d1 r1.
    rewrite (bind_ok _ _ _ _ _ _ E). mrun.
    unfold with_events, ret. cbn [out_dialog out_result out_events].
    rewrite app_nil_r, posted_app, recorded_app, P1, P2, S3, S4. done. }
  destruct a as [|x|l].
  - mrun. by destruct r.
  - destruct (response_truthy x).
    + rewrite bind_assoc, bind_tell.
      apply (Hl [x] [LogInfo MsgChatbotMessage]); reflexivity.
    + mrun. by destruct r.
  - rewrite <- (with_events_nil ((send_list cfg l;; ret tt) d)).
    apply (Hl l []); reflexivity.
Qed.

Lemma send_response_only_ok a d r :
  recording d = Some r ->
  exists ev, send_response_only cfg a d = mkOut d ev (Ok tt).
Proof.
  intros H. unfold send_response_only. destruct a as [|x|l].
  - by eexists.
  - destruct (response_truthy x); [|by eexists].
    destruct (send_list_ok cfg [x] d r H) as [ev E].
    rewrite bind_tell, E. by eexists.
  - by apply (send_list_ok cfg l d r).
Qed.

Lemma send_response_none a d :
  send_response cfg a None d = send_response_only cfg a d.
Proof.
  unfold send_response, bind, ret.
  destruct (send_response_only cfg a d) as [d1 e1 [[]|e]]; simpl;
    by rewrite ?app_nil_r.
Qed.

(** X11.  [send_response(responses, next)] follows [next] only when
    there was something to send, after everything has been posted and
    logged, and returns nothing whatever [move_to] returned; with
    [None], an empty list or an empty string as [responses] the call
    returns at once and [next] is dropped. *)
Theorem send_response_then_next a t d r :
  recording d = Some r ->
  send_response cfg a (Some t) d
  = if responses_given a
    then with_events (out_events (send_response cfg a None d))
           ((_ <- move_to cfg t false false;; ret tt) d)
    else mkOut d [] (Ok tt).
Proof.
  intros H. destruct (send_response_only_ok a d r H) as [ev E].
  rewrite (send_response_none a d), E. cbn [out_events].
  unfold send_response. rewrite (bind_ok _ _ _ _ _ _ E).
  destruct a as [|x|[|x l]]; simpl.
  - unfold send_response_only in E. by injection E as <-.
  - destruct (response_truthy x) eqn:T; [reflexivity|].
    unfold send_response_only in E. rewrite T in E. by injection E as <-.
  - unfold send_response_only in E. by injection E as <-.
  - reflexivity.
Qed.

(** X12.  Before any turn has run the manager has no [recording]
    attribute: [send_response] on a non-empty list then posts the first
    response and raises [AttributeError]; nothing else is posted and
    nothing is logged. *)
Theorem send_response_needs_recording x l next d :
  recording d = None ->
  send_response cfg (RAList (x :: l)) next d
  = mkOut d [LogInfo MsgChatbotMessage; IfacePostMessage (as_message x)]
      (Raised AttributeError).
Proof.
  intros H.
  assert (Hr : get_recording d = mkOut d [] (Raised AttributeError))
    by (unfold get_recording; by rewrite H).
  assert (E : send_response_only cfg (RAList (x :: l)) d
              = mkOut d [LogInfo MsgChatbotMessage;
                         IfacePostMessage (as_message x)]
                  (Raised AttributeError)).
  { unfold send_response_only, send_list.
    rewrite bind_tell, for_each_cons. unfold post_response at 1.
    rewrite !bind_assoc, bind_tell, with_events_app.
    by rewrite !bind_assoc, (bind_raised _ _ _ _ _ _ Hr). }
  unfold send_response. by rewrite (bind_raised _ _ _ _ _ _ E).
Qed.

End Sending.

Lemma send_response_posts_in_order_witness :
  posted (out_events (send_response Example.cfg
                        (RAList [RStr "Hi"; RTextMessage "there"; RStr ""]) None
                        Example.at_root))
  = [RTextMessage "Hi"; RTextMessage "there"; RTextMessage ""].
Proof.
  exact (proj1 (proj2 (proj2 (send_response_posts_in_order Example.cfg
                                (RAList [RStr "Hi"; RTextMessage "there"; RStr ""])
                                Example.at_root false eq_refl)))).
Defined.

Lemma send_response_then_next_witness :
  send_response Example.cfg (RAList []) (Some (TName "billing.root"))
    Example.at_root
  = mkOut Example.at_root [] (Ok tt).
Proof.
  exact (send_response_then_next Example.cfg (RAList [])
           (TName "billing.root") Example.at_root false eq_refl).
Defined.

Lemma send_response_needs_recording_witness :
  send_response Example.cfg (RAList [RStr "Hi"; RStr "there"]) None
    (out_dialog (init Example.cfg Example.empty_store 0))
  = mkOut (out_dialog (init Example.cfg Example.empty_store 0))
      [LogInfo MsgChatbotMessage; IfacePostMessage (RTextMessage "Hi")]
      (Raised AttributeError).
Proof.
  exact (send_response_needs_recording Example.cfg (RStr "Hi") [RStr "there"]
           None (out_dialog (init Example.cfg Example.empty_store 0)) eq_refl).
Defined.

(** ** Naming the target of a transition *)

Lemma split_first_here c n x :
  contains c n = false -> split_first c (n +:+ String c x) = Some (n, x).
Proof.
  unfold contains. induction n as [|y n IH]; simpl.
  - intros _. by rewrite Ascii.eqb_refl.
  - destruct (Ascii.eqb y c); [discriminate|].
    destruct (split_first c n) as [[l r]|]; [discriminate|].
    intros _. by rewrite (IH eq_refl).
Qed.

Lemma split_first_none c s : contains c s = false -> split_first c s = None.
Proof. unfold contains. by destruct (split_first c s). Qed.

Lemma nonempty_app_l a b : nonempty a = true -> nonempty (a +:+ b) = true.
Proof. by destruct a. Qed.

Section Naming.

Variable cfg : Config.

(** A bare name is completed with the flow of the current state. *)
Lemma qualify_bare cur n a :
  nonempty n = true -> contains dot n = false -> contains colon n = false ->
  qualify cur (Some n) a = (before_first dot cur +:+ "." +:+ n, a).
Proof.
  intros Hn Hd Hc. unfold qualify.
  by rewrite Hn, (split_first_none _ _ Hc), Hd.
Qed.

(** An [:<action>] suffix changes the action label and nothing else. *)
Lemma qualify_suffix cur n x a :
  nonempty n = true -> contains colon n = false ->
  qualify cur (Some (n +:+ ":" +:+ x)) a
  = ((qualify cur (Some n) a).1, Some x).
Proof.
  intros Hn Hc. unfold qualify.
  rewrite (nonempty_app_l n _ Hn), Hn.
  change (n +:+ ":" +:+ x) with (n +:+ String colon x).
  by rewrite (split_first_here _ _ _ Hc), (split_first_none _ _ Hc).
Qed.

(** X13.  A state name without a flow prefix means the state of that
    name in the flow of the current state: [move_to('x')] and
    [move_to('<flow>.x')], with [<flow>] the part of the current state
    name before its first dot, are the same call. *)
Theorem move_to_bare_name n init si d :
  nonempty n = true ->
  contains dot n = false ->
  contains colon n = false ->
  contains colon (current_state_name d) = false ->
  move_to cfg (TName n) init si d
  = move_to cfg (TName (before_first dot (current_state_name d) +:+ "." +:+ n))
      init si d.
Proof.
  intros Hn Hd Hc Hcur. rewrite !move_to_plan.
  assert (Hw : well_formed (before_first dot (current_state_name d) +:+ "." +:+ n)).
  { split; [apply contains_app_dot|].
    rewrite contains_app, (contains_before_first _ _ _ Hcur), contains_app, Hc.
    reflexivity. }
  assert (E : plan cfg (current_state_name d) (context d) (TName n)
              = plan cfg (current_state_name d) (context d)
                  (TName (before_first dot (current_state_name d) +:+ "." +:+ n))).
  { unfold plan. simpl.
    by rewrite (qualify_bare _ _ _ Hn Hd Hc), (qualify_well_formed _ _ _ Hw). }
  by rewrite E.
Qed.

(** X14.  Outside the constructor [move_to] needs the [recording]
    attribute, which only a turn creates: on a manager that has none, a
    call that transitions makes the target current, appends it to the
    history, logs the move, notifies the channel adapter and then raises
    [AttributeError]; no action has run and nothing has been saved. *)
Theorem move_to_needs_recording t si d c n a :
  context d = Some c ->
  recording d = None ->
  plan cfg (current_state_name d) (Some c) t = Ok (Go n a) ->
  move_to cfg t false si d
  = mkOut (entered d c n)
      [LogInfo (MsgMoving (current_state_name d) n a); IfaceStateChange n]
      (Raised AttributeError).
Proof.
  intros Hc Hr Hp. rewrite move_to_plan, Hc, Hp. unfold negb. mrun.
  rewrite (bind_ok _ _ _ _ _ _ (record_state_eq n d c Hc)), with_events_nil.
  unfold do_transition, negb. mrun.
  assert (Hg : get_recording (entered d c n)
               = mkOut (entered d c n) [] (Raised AttributeError)).
  { unfold get_recording. simpl. by rewrite Hr. }
  rewrite ?bind_assoc, (bind_raised _ _ _ _ _ _ Hg). reflexivity.
Qed.

End Naming.

Lemma move_to_bare_name_witness :
  move_to Example.cfg (TName "root") false false Example.at_collect
  = move_to Example.cfg (TName "billing.root") false false Example.at_collect.
Proof.
  exact (move_to_bare_name Example.cfg "root" false false Example.at_collect
           eq_refl eq_refl eq_refl eq_refl).
Defined.

Lemma move_to_needs_recording_witness :
  move_to Example.cfg (TName "billing.root") false false
    (set_recording None Example.at_root)
  = mkOut (entered (set_recording None Example.at_root) Ctx.empty "billing.root")
      [LogInfo (MsgMoving "default.root" "billing.root" (Some "init"));
       IfaceStateChange "billing.root"]
      (Raised AttributeError).
Proof.
  refine (move_to_needs_recording Example.cfg (TName "billing.root") false
            (set_recording None Example.at_root) Ctx.empty "billing.root"
            (Some "init") eq_refl eq_refl _).
  vm_compute. reflexivity.
Defined.

(** ** The action label is only logged *)

Lemma calls_app e1 e2 : calls (e1 ++ e2) = (calls e1 ++ calls e2)%list.
Proof. apply List.filter_app. Qed.

Lemma same_effects_refl {A} (m : M A) : same_effects m m.
Proof. intros d. reflexivity. Qed.

Lemma same_effects_bind {A B} (m m' : M A) (k k' : A -> M B) :
  same_effects m m' -> (forall a, same_effects (k a) (k' a)) ->
  same_effects (x <- m;; k x) (x <- m';; k' x).
Proof.
  intros Hm Hk d. specialize (Hm d). unfold effects, bind in *.
  destruct (m d) as [d1 e1 r1], (m' d) as [d1' e1' r1'].
  simpl in *. injection Hm as <- He <-.
  destruct r1 as [a|e]; simpl; [|by rewrite He].
  specialize (Hk a d1). unfold effects in Hk.
  destruct (k a d1) as [d2 e2 r2], (k' a d1) as [d2' e2' r2'].
  simpl in *. injection Hk as <- He2 <-.
  by rewrite !calls_app, He, He2.
Qed.

Lemma same_effects_try {A} (body : M A) (h h' : Exn -> M A) :
  (forall e, same_effects (h e) (h' e)) ->
  same_effects (try_except body h) (try_except body h').
Proof.
  intros Hh d. unfold effects, try_except.
  destruct (body d) as [d1 e1 [a|e]]; simpl; [reflexivity|].
  specialize (Hh e d1). unfold effects in Hh.
  destruct (h e d1) as [d2 e2 r2], (h' e d1) as [d2' e2' r2'].
  simpl in *. injection Hh as <- He2 <-.
  by rewrite !calls_app, He2.
Qed.

Lemma same_effects_when (b : bool) (m m' : M unit) :
  same_effects m m' -> same_effects (when b m) (when b m').
Proof. destruct b; [done|]. intros _. apply same_effects_refl. Qed.

Lemma same_effects_log (x y : LogMsg) :
  same_effects (tell (LogInfo x)) (tell (LogInfo y))
  /\ same_effects (tell (LogError x)) (tell (LogError y)).
Proof. split; intros d; reflexivity. Qed.

Section ActionLabel.

Variable cfg : Config.

Lemma same_effects_report_failure a a' n :
  same_effects (report_failure cfg a n) (report_failure cfg a' n).
Proof.
  unfold report_failure.
  apply same_effects_bind; [apply same_effects_refl|intros _].
  apply same_effects_bind; [apply same_effects_log|intros _].
  apply same_effects_refl.
Qed.

Lemma same_effects_do_transition cur n a a' init :
  same_effects (do_transition cfg cur n a init)
               (do_transition cfg cur n a' init).
Proof.
  unfold do_transition.
  apply same_effects_bind; [apply same_effects_refl|intros _].
  apply same_effects_bind; [|intros _; apply same_effects_refl].
  apply same_effects_when.
  apply same_effects_bind; [apply same_effects_log|intros _].
  apply same_effects_bind; [apply same_effects_refl|intros _].
  apply same_effects_bind; [apply same_effects_refl|intros rec].
  apply same_effects_bind; [apply same_effects_refl|intros _].
  apply same_effects_try. intros _. apply same_effects_report_failure.
Qed.

(** The plan for a name with an [:<action>] suffix is the plan for the
    name, with the suffix as the label of a transition. *)
Lemma plan_suffix cur ctx n x :
  nonempty n = true -> contains colon n = false ->
  plan cfg cur ctx (TName (n +:+ ":" +:+ x))
  = match plan cfg cur ctx (TName n) with
    | Ok (Go m _) => Ok (Go m (Some x))
    | p => p
    end.
Proof.
  intros Hn Hc. unfold plan. simpl.
  rewrite (qualify_suffix cur n x (Some "init") Hn Hc).
  destruct (qualify cur (Some n) (Some "init")) as [m a]. simpl.
  destruct (find_state cfg cur (Some m)) as [[s|]|]; try reflexivity.
  by destruct (negb (nonempty m) || String.eqb m cur).
Qed.

(** X15.  The [:<action>] suffix of a target name is only ever logged:
    [move_to('<name>:<action>')] leaves the same manager, makes the same
    calls on the channel adapter, the recorder, the actions and the
    store, and returns the same as [move_to('<name>')]; the two differ
    in log lines at most. *)
Theorem move_to_action_suffix_ignored n x init si :
  nonempty n = true ->
  contains colon n = false ->
  same_effects (move_to cfg (TName (n +:+ ":" +:+ x)) init si)
               (move_to cfg (TName n) init si).
Proof.
  intros Hn Hc d. rewrite !move_to_plan, (plan_suffix _ _ n x Hn Hc).
  destruct (plan cfg (current_state_name d) (context d) (TName n))
    as [[m|m|m a]|e]; [reflexivity|reflexivity| |reflexivity].
  apply (same_effects_bind _ _ _ _ (same_effects_refl _)).
  intros _. apply same_effects_do_transition.
Qed.

End ActionLabel.

Lemma move_to_action_suffix_ignored_witness :
  effects (move_to Example.cfg (TName "checkout.pay:retry") false false
             Example.at_root)
  = effects (move_to Example.cfg (TName "checkout.pay") false false
               Example.at_root).
Proof.
  exact (move_to_action_suffix_ignored Example.cfg "checkout.pay" "retry"
           false false eq_refl eq_refl Example.at_root).
Defined.

(** ** Intents *)

Section Intents.

Variable cfg : Config.

Lemma first_flow_for_first i before k g after :
  Forall (fun p : string * Flow => matches_intent p.2 i = false) before ->
  matches_intent g i = true ->
  first_flow_for i (before ++ (k, g) :: after) = Some (flow_name g +:+ ".root").
Proof.
  intros Hb Hg. induction before as [|[k' f'] before IH]; simpl.
  - by rewrite Hg.
  - inversion Hb as [|? ? Hf Hrest]; subst. simpl in Hf. rewrite Hf. auto.
Qed.

Lemma first_flow_for_none i fl :
  Forall (fun p : string * Flow => matches_intent p.2 i = false) fl ->
  first_flow_for i fl = None.
Proof.
  induction fl as [|[k f] fl IH]; [reflexivity|]. intros H.
  inversion H as [|? ? Hf Hrest]; subst. simpl in *. rewrite Hf. auto.
Qed.

Lemma check_intent_transition_found d c i f n :
  context d = Some c ->
  Ctx.intent_get c = Some i ->
  truthy i = true ->
  find_flow cfg (current_state_name d) None = Ok (Some f) ->
  (if name_given (get_state_for_intent f i) then get_state_for_intent f i
   else first_flow_for i (flows cfg)) = Some n ->
  nonempty n = true ->
  check_intent_transition cfg d
  = with_events [LogInfo (MsgMovingOnIntent i)]
      (move_to cfg (TName n) false false d).
Proof.
  intros Hc Hi Ht Hf Hn Hne. unfold check_intent_transition.
  rewrite (bind_get_context _ _ _ Hc), Hi, Ht. simpl.
  rewrite (bind_quiet _ _ _ _ (get_flow_eq cfg _ _)), Hf, Hn, Hne.
  by rewrite bind_tell.
Qed.

(** X16.  Where an intent leads.  The state the flow of the current
    state maps the intent to wins over every flow that matches the
    intent; without such a state the root of the first flow, in the
    order of the registry, that matches the intent is the target (named
    after the flow's own [name]); without either an error is logged,
    [False] is returned and nothing changes.  In the first two cases
    the answer is that of [move_to] on the target.  An intent that is
    absent or false ([''], [0]) gives [False] without a log line, and a
    current state whose flow the registry does not have gives an
    [AttributeError]. *)
Theorem intent_transition_target d c :
  context d = Some c ->
  (match Ctx.intent_get c with
   | Some i => truthy i = false
   | None => True
   end ->
   check_intent_transition cfg d = mkOut d [] (Ok false))
  /\ (forall i,
         Ctx.intent_get c = Some i -> truthy i = true ->
         find_flow cfg (current_state_name d) None = Ok None ->
         check_intent_transition cfg d = mkOut d [] (Raised AttributeError))
  /\ (forall i f,
         Ctx.intent_get c = Some i -> truthy i = true ->
         find_flow cfg (current_state_name d) None = Ok (Some f) ->
         (forall n,
             get_state_for_intent f i = Some n -> nonempty n = true ->
             check_intent_transition cfg d
             = with_events [LogInfo (MsgMovingOnIntent i)]
                 (move_to cfg (TName n) false false d))
         /\ (forall before k g after,
                name_given (get_state_for_intent f i) = false ->
                flows cfg = (before ++ (k, g) :: after)%list ->
                Forall (fun p : string * Flow => matches_intent p.2 i = false)
                  before ->
                matches_intent g i = true ->
                check_intent_transition cfg d
                = with_events [LogInfo (MsgMovingOnIntent i)]
                    (move_to cfg (TName (flow_name g +:+ ".root")) false false d))
         /\ (name_given (get_state_for_intent f i) = false ->
             Forall (fun p : string * Flow => matches_intent p.2 i = false)
               (flows cfg) ->
             check_intent_transition cfg d
             = mkOut d [LogError (MsgIntentWithoutFlow i)] (Ok false))).
Proof.
  intros Hc. split; [|split].
  - intros H. unfold check_intent_transition.
    rewrite (bind_get_context _ _ _ Hc).
    destruct (Ctx.intent_get c) as [i|]; [|reflexivity]. by rewrite H.
  - intros i Hi Ht Hf. unfold check_intent_transition.
    rewrite (bind_get_context _ _ _ Hc), Hi, Ht. simpl.
    by rewrite (bind_quiet _ _ _ _ (get_flow_eq cfg _ _)), Hf.
  - intros i f Hi Ht Hf. split; [|split].
    + intros n Hn Hne.
      apply (check_intent_transition_found d c i f n Hc Hi Ht Hf); [|exact Hne].
      rewrite Hn. simpl. by rewrite Hne.
    + intros before k g after Hg Hfl Hb Hm.
      apply (check_intent_transition_found d c i f _ Hc Hi Ht Hf).
      * rewrite Hg, Hfl. by apply first_flow_for_first.
      * by destruct (flow_name g).
    + intros Hg Hall. unfold check_intent_transition.
      rewrite (bind_get_context _ _ _ Hc), Hi, Ht. simpl.
      rewrite (bind_quiet _ _ _ _ (get_flow_eq cfg _ _)), Hf, Hg.
      rewrite (first_flow_for_none _ _ Hall). by rewrite bind_tell.
Qed.

End Intents.

Lemma intent_transition_target_witness :
  check_intent_transition Shop.cfg (Shop.at_root (Shop.with_intent "pay"))
  = with_events [LogInfo (MsgMovingOnIntent (VStr "pay"))]
      (move_to Shop.cfg (TName "billing.root") false false
         (Shop.at_root (Shop.with_intent "pay")))
  /\ check_intent_transition Shop.cfg (Shop.at_billing (Shop.with_intent "amount"))
     = with_events [LogInfo (MsgMovingOnIntent (VStr "amount"))]
         (move_to Shop.cfg (TName "collect_amount") false false
            (Shop.at_billing (Shop.with_intent "amount"))).
Proof.
  split.
  - destruct (intent_transition_target Shop.cfg
                (Shop.at_root (Shop.with_intent "pay"))
                (Shop.with_intent "pay") eq_refl) as (_ & _ & H).
    destruct (H (VStr "pay")
                (Example.no_intents "default" [("root", Example.root_state)])
                eq_refl eq_refl eq_refl) as (_ & H2 & _).
    refine (H2 [("default",
                 Example.no_intents "default" [("root", Example.root_state)])]
              "billing" Shop.billing [("checkout", Shop.checkout)]
              eq_refl eq_refl _ eq_refl).
    repeat constructor.
  - destruct (intent_transition_target Shop.cfg
                (Shop.at_billing (Shop.with_intent "amount"))
                (Shop.with_intent "amount") eq_refl) as (_ & _ & H).
    destruct (H (VStr "amount") Shop.billing eq_refl eq_refl eq_refl)
      as (H1 & _).
    exact (H1 "collect_amount" eq_refl eq_refl).
Defined.

(** ** The start of a turn *)

Section TurnStart.

Variable cfg : Config.

Lemma for_each_inactive l d c :
  context d = Some c ->
  for_each (fun p : string * Z => inactive p.1 p.2) l d
  = mkOut d (inactivity_events c l) (Ok tt).
Proof.
  intros Hc. induction l as [|p l IH]; [reflexivity|].
  rewrite for_each_cons. unfold inactive at 1. mrun.
  rewrite (bind_get_context _ _ _ Hc). mrun. rewrite IH. reflexivity.
Qed.

(** X17.  [save_inactivity_callback] stamps the chat's activity with
    the current time and then schedules every configured inactivity
    callback, in the order of the configuration, each with its own
    delay and with the Context counter of the current turn; nothing
    else changes.  Without configured callbacks only the stamp is
    written. *)
Theorem save_inactivity_callback_schedules d c :
  context d = Some c ->
  save_inactivity_callback cfg d
  = mkOut (set_db (touched_store cfg (clock d) (db d)) d)
      (inactivity_events c (inactive_callbacks cfg)) (Ok tt).
Proof.
  intros Hc. unfold save_inactivity_callback. rewrite bind_modify.
  by rewrite (for_each_inactive _ _ c).
Qed.

Lemma merged_new_entity c ents k v :
  ents !! k = Some v -> Ctx.get_age (merged c ents) k = Some (v, 0%nat).
Proof.
  intros H. unfold Ctx.get_age, merged, Ctx.add_entities. simpl.
  apply lookup_union_Some_l. by rewrite lookup_fmap, H.
Qed.

(** X18.  A turn whose entities carry [test_record] is a recorder
    command: after the counter has been incremented and the entities
    merged, the manager answers the command, saves the session and
    returns.  No inactivity callback is scheduled, no transition rule is
    evaluated and no action runs; the state is the one before the turn
    and the store holds it together with the merged Context. *)
Theorem recorder_command_ends_turn mt ents d c v :
  accepted_type mt = true ->
  context d = Some c ->
  ents !! "test_record" = Some v ->
  process cfg mt ents d
  = with_events [IfaceProcessingStart; LogInfo MsgUserMessage]
      ((answer_record_command cfg v;; save_state cfg)
         (set_recording (Some false) (set_context (Some (merged c ents)) d)))
  /\ out_result (process cfg mt ents d) = Ok tt
  /\ out_dialog (process cfg mt ents d)
     = saved cfg (set_recording (Some false)
                    (set_context (Some (merged c ents)) d)).
Proof.
  intros Ha Hc Hv.
  set (d1 := set_recording (Some false) (set_context (Some (merged c ents)) d)).
  destruct (answer_record_command_ok cfg v d1 false eq_refl) as [ev E].
  assert (Hp : process cfg mt ents d
               = with_events [IfaceProcessingStart; LogInfo MsgUserMessage]
                   ((answer_record_command cfg v;; save_state cfg) d1)).
  { unfold process. mrun. rewrite Ha. unfold negb.
    rewrite (bind_ok _ _ _ _ _ _ (begin_turn_eq ents d c Hc)).
    rewrite with_events_app. f_equal.
    unfold test_record_message.
    rewrite !bind_assoc.
    rewrite (bind_get_context _ (set_context (Some (merged c ents)) d)
               (merged c ents) eq_refl).
    rewrite bind_assoc, bind_modify, (merged_new_entity c ents _ v Hv). fold d1.
    change (0 =? 0)%nat with true. cbv iota.
    rewrite !bind_assoc, (bind_ok _ _ _ _ _ _ E), (bind_ok _ _ _ _ _ _ E).
    apply (f_equal (with_events ev)).
    rewrite bind_assoc, (bind_ok _ _ _ _ _ _ (save_state_eq cfg d1)), bind_ret.
    rewrite save_state_eq. unfold with_events, ret. simpl.
    by rewrite ?app_nil_r. }
  split; [exact Hp|]. rewrite Hp.
  rewrite (bind_ok _ _ _ _ _ _ E), save_state_eq. split; reflexivity.
Qed.

End TurnStart.

Lemma save_inactivity_callback_schedules_witness :
  out_events (save_inactivity_callback Shop.cfg
                (Shop.at_root (Shop.with_intent "pay")))
  = [LogInfo (MsgInactivity "remind" 60); ScheduleInactivity "remind" 3 60;
     LogInfo (MsgInactivity "goodbye" 3600);
     ScheduleInactivity "goodbye" 3 3600].
Proof.
  exact (f_equal out_events
           (save_inactivity_callback_schedules Shop.cfg
              (Shop.at_root (Shop.with_intent "pay")) (Shop.with_intent "pay")
              eq_refl)).
Defined.

Lemma recorder_command_ends_turn_witness :
  out_result (process Shop.cfg "message" Shop.record_command
                (Shop.at_root (Shop.with_intent "pay"))) = Ok tt
  /\ current_state_name
       (out_dialog (process Shop.cfg "message" Shop.record_command
                      (Shop.at_root (Shop.with_intent "pay"))))
     = "default.root".
Proof.
  destruct (recorder_command_ends_turn Shop.cfg "message" Shop.record_command
              (Shop.at_root (Shop.with_intent "pay")) (Shop.with_intent "pay")
              (VStr "stop") eq_refl eq_refl) as (_ & H2 & H3).
  - vm_compute. reflexivity.
  - split; [exact H2|]. rewrite H3. reflexivity.
Defined.

(** ** A completed turn is a saved turn *)

Lemma bind_result_inv {A B} (m : M A) (k : A -> M B) d r :
  out_result ((x <- m;; k x) d) = Ok r ->
  exists a,
    out_result (m d) = Ok a
    /\ out_result (k a (out_dialog (m d))) = Ok r
    /\ out_dialog ((x <- m;; k x) d) = out_dialog (k a (out_dialog (m d))).
Proof.
  unfold bind. destruct (m d) as [d1 e1 [a|e]];
    cbn [out_result out_dialog out_events]; [eauto|discriminate].
Qed.

Section Persisted.

Variable cfg : Config.

(** A method that ends with [save_state] and [return True]. *)
Lemma saved_then_true (m : M unit) d b :
  out_result ((m;; save_state cfg;; ret true) d) = Ok b ->
  b = true
  /\ exists d', out_dialog ((m;; save_state cfg;; ret true) d) = saved cfg d'.
Proof.
  intros H. apply bind_result_inv in H as ([] & _ & H & ->).
  rewrite (bind_ok _ _ _ _ _ _ (save_state_eq cfg _)) in *.
  cbn in H. injection H as <-. split; [reflexivity|]. by eexists.
Qed.

Lemma do_transition_saved cur n a init d b :
  out_result (do_transition cfg cur n a init d) = Ok b ->
  b = true
  /\ exists d', out_dialog (do_transition cfg cur n a init d) = saved cfg d'.
Proof.
  unfold do_transition. rewrite bind_modify.
  apply (saved_then_true
           (when (negb init)
              (tell (LogInfo (MsgMoving cur n a));;
               tell (IfaceStateChange n);;
               rec <- get_recording;;
               when rec (tell (RecorderStateChange n));;
               try_except (enter_state cfg cur n)
                 (fun _ => report_failure cfg a n)))
           (set_current n d) b).
Qed.

(** [move_to] either returns [True] and has saved, or returns [False]
    and has changed nothing. *)
Lemma move_to_saved_or_same t init d b :
  out_result (move_to cfg t init false d) = Ok b ->
  (b = true
   /\ exists d', out_dialog (move_to cfg t init false d) = saved cfg d')
  \/ (b = false /\ out_dialog (move_to cfg t init false d) = d).
Proof.
  rewrite move_to_plan.
  destruct (plan cfg (current_state_name d) (context d) t)
    as [[n|n|n a]|e] eqn:Hp.
  - intros [= <-]. by right.
  - pose proof (plan_stay _ _ _ _ _ Hp) as ->.
    rewrite String.eqb_refl. simpl. rewrite andb_false_r, when_false, bind_ret.
    intros [= <-]. by right.
  - intros H. apply bind_result_inv in H as ([] & _ & H & ->).
    left. by apply do_transition_saved in H.
  - discriminate.
Qed.

Lemma check_intent_transition_saved_or_same d c b :
  context d = Some c ->
  out_result (check_intent_transition cfg d) = Ok b ->
  (b = true
   /\ exists d', out_dialog (check_intent_transition cfg d) = saved cfg d')
  \/ (b = false /\ out_dialog (check_intent_transition cfg d) = d).
Proof.
  intros Hc. pose proof (check_intent_transition_eq cfg d c Hc) as E.
  destruct (intent_target cfg (current_state_name d) c) as [[n|]|e].
  - destruct E as [i ->]. apply move_to_saved_or_same.
  - rewrite E. intros [= <-]. by right.
  - rewrite E. discriminate.
Qed.

Lemma apply_rules_saved ents d c :
  context d = Some c ->
  out_result (apply_rules cfg ents d) = Ok tt ->
  exists d', out_dialog (apply_rules cfg ents d) = saved cfg d'.
Proof.
  intros Hc H. unfold apply_rules in *.
  apply bind_result_inv in H as (moved & H1 & H & ->).
  rewrite (check_state_transition_eq cfg d c Hc) in *.
  destruct (move_to_saved_or_same _ _ _ _ H1) as [[-> Hd]|[-> Hd]].
  { exact Hd. }
  rewrite Hd in *. unfold negb in *. rewrite when_true in *.
  apply bind_result_inv in H as (moved' & H2 & H & ->).
  destruct (check_intent_transition_saved_or_same _ _ _ Hc H2)
    as [[-> Hd']|[-> Hd']].
  { exact Hd'. }
  rewrite Hd' in *. rewrite when_true, bind_tell in *.
  rewrite out_dialog_with_events.
  change (out_result (with_events ?e ?o)) with (out_result o) in H.
  rewrite (bind_quiet _ _ _ _ (get_state_eq cfg _ _)) in *.
  destruct (find_state cfg (current_state_name d) None) as [[s|]|e];
    [|discriminate|discriminate].
  destruct (accepts_message s (keys ents));
    apply bind_result_inv in H as ([] & _ & _ & ->);
    rewrite save_state_eq; by eexists.
Qed.

Lemma test_record_message_saved mt ents d c :
  context d = Some c ->
  out_result (test_record_message cfg mt ents d) = Ok true ->
  exists d', out_dialog (test_record_message cfg mt ents d) = saved cfg d'.
Proof.
  intros Hc. unfold test_record_message.
  rewrite (bind_get_context _ _ _ Hc), bind_modify.
  destruct (Ctx.get_age c "test_record") as [[v age]|]; [|discriminate].
  destruct (age =? 0)%nat.
  - intros H. by apply saved_then_true in H as [_ H].
  - destruct (entity_equals cfg v "start"); [|discriminate].
    rewrite bind_tell, bind_modify. discriminate.
Qed.

Lemma save_inactivity_callback_context b d c :
  context d = Some c ->
  context (out_dialog (when b (save_inactivity_callback cfg) d)) = Some c.
Proof.
  intros Hc. destruct b; [|exact Hc]. rewrite when_true.
  unfold save_inactivity_callback. rewrite bind_modify.
  by rewrite (for_each_inactive _ _ c).
Qed.

Lemma process_saved mt ents d c :
  accepted_type mt = true ->
  context d = Some c ->
  out_result (process cfg mt ents d) = Ok tt ->
  exists d', out_dialog (process cfg mt ents d) = saved cfg d'.
Proof.
  intros Ha Hc. unfold process. mrun. rewrite Ha. unfold negb.
  rewrite (bind_ok _ _ _ _ _ _ (begin_turn_eq ents d c Hc)).
  rewrite with_events_app, out_dialog_with_events.
  change (out_result (with_events ?e ?o)) with (out_result o).
  set (d0 := set_context (Some (merged c ents)) d).
  intros H. apply bind_result_inv in H as (stop & H1 & H & ->).
  destruct stop.
  { by apply (test_record_message_saved mt ents d0 (merged c ents)). }
  destruct (test_record_message_cases cfg mt ents d0 (merged c ents) eq_refl)
    as [(v & d1 & ev & _ & E & _)|(_ & r & ev & E)].
  { rewrite E in H1. discriminate H1. }
  rewrite E in *. cbn [out_dialog] in *.
  apply bind_result_inv in H as ([] & _ & H & ->).
  rewrite bind_tell, out_dialog_with_events, out_dialog_bind_tells.
  rewrite bind_tell in H.
  change (out_result (with_events ?e ?o)) with (out_result o) in H.
  apply bind_result_inv in H as ([] & H & _).
  eapply apply_rules_saved; [|exact H].
  by apply save_inactivity_callback_context.
Qed.

(** X19.  A turn that returns has saved the session: whenever
    [process] returns normally for a message type it processes, the
    store holds, under the chat id, the state the manager is at and its
    Context, with the engine's version marker, whatever the actions of
    the bot did during the turn. *)
Theorem completed_turn_is_persisted mt ents d c c' :
  accepted_type mt = true ->
  context d = Some c ->
  out_result (process cfg mt ents d) = Ok tt ->
  context (out_dialog (process cfg mt ents d)) = Some c' ->
  session_state (db (out_dialog (process cfg mt ents d))) !! chat_id cfg
  = Some (current_state_name (out_dialog (process cfg mt ents d)))
  /\ session_context (db (out_dialog (process cfg mt ents d))) !! chat_id cfg
     = Some (Ctx.to_dict c')
  /\ dialog_version (db (out_dialog (process cfg mt ents d))) = Some version.
Proof.
  intros Ha Hc Hr. destruct (process_saved mt ents d c Ha Hc Hr) as [d' ->].
  unfold saved. destruct (context d') as [c''|] eqn:E; simpl.
  - rewrite E. intros [= <-]. by rewrite !lookup_insert_eq.
  - rewrite E. discriminate.
Qed.

End Persisted.

Lemma completed_turn_is_persisted_witness :
  session_state
    (db (out_dialog (process Example.cfg "message" Example.small_talk
                       Example.at_collect))) !! "test_1"
  = Some (current_state_name
            (out_dialog (process Example.cfg "message" Example.small_talk
                           Example.at_collect))).
Proof.
  refine (proj1 (completed_turn_is_persisted Example.cfg "message"
                   Example.small_talk Example.at_collect Example.visited
                   (Ctx.add_state (merged Example.visited Example.small_talk)
                      "default.root" 40)
                   eq_refl eq_refl _ _)).
  - vm_compute. reflexivity.
  - vm_compute. reflexivity.
Defined.

(** ** What the answer of [move_to] means *)

Section Answer.

Variable cfg : Config.

Lemma saved_in_store d' c' :
  context (saved cfg d') = Some c' ->
  session_state (db (saved cfg d')) !! chat_id cfg
  = Some (current_state_name (saved cfg d'))
  /\ session_context (db (saved cfg d')) !! chat_id cfg = Some (Ctx.to_dict c')
  /\ dialog_version (db (saved cfg d')) = Some version.
Proof.
  unfold saved. destruct (context d') as [c''|] eqn:E; simpl; rewrite E.
  - intros [= <-]. by rewrite !lookup_insert_eq.
  - discriminate.
Qed.

(** X20.  The answer of [move_to] (called without [save_identical]) can
    be relied on: [False] means that nothing at all has changed and no
    collaborator other than the log has been called; [True] means that
    the session has been saved after the transition, so that the store
    holds the state the manager is at and its Context. *)
Theorem move_to_answer t init d :
  (out_result (move_to cfg t init false d) = Ok false ->
   out_dialog (move_to cfg t init false d) = d
   /\ calls (out_events (move_to cfg t init false d)) = [])
  /\ (forall c',
         out_result (move_to cfg t init false d) = Ok true ->
         context (out_dialog (move_to cfg t init false d)) = Some c' ->
         session_state (db (out_dialog (move_to cfg t init false d)))
           !! chat_id cfg
         = Some (current_state_name (out_dialog (move_to cfg t init false d)))
         /\ session_context (db (out_dialog (move_to cfg t init false d)))
              !! chat_id cfg
            = Some (Ctx.to_dict c')
         /\ dialog_version (db (out_dialog (move_to cfg t init false d)))
            = Some version).
Proof.
  split.
  - intros H.
    destruct (move_to_saved_or_same cfg _ _ _ _ H) as [[? _]|[_ Hd]];
      [discriminate|].
    split; [exact Hd|]. revert H. rewrite move_to_plan.
    destruct (plan cfg (current_state_name d) (context d) t)
      as [[n|n|n a]|e] eqn:Hp.
    + reflexivity.
    + pose proof (plan_stay _ _ _ _ _ Hp) as ->.
      rewrite String.eqb_refl. simpl.
      by rewrite andb_false_r, when_false, bind_ret.
    + intros H. exfalso.
      apply bind_result_inv in H as ([] & _ & H & _).
      by apply do_transition_saved in H as [? _].
    + discriminate.
  - intros c' H Hc.
    destruct (move_to_saved_or_same cfg _ _ _ _ H) as [[_ [d' Hd]]|[? _]];
      [|discriminate].
    rewrite Hd in *. by apply saved_in_store.
Qed.

(** X21.  Asked to record an identical state, [move_to] on the state
    the manager is at appends that state to the history and returns
    [False]: no action runs, nothing is posted or logged, and the new
    history entry is not saved by this call. *)
Theorem move_to_save_identical t init d c :
  context d = Some c ->
  plan cfg (current_state_name d) (Some c) t
  = Ok (Stay (current_state_name d)) ->
  move_to cfg t init true d
  = if init then mkOut d [] (Ok false)
    else mkOut (set_context
                  (Some (Ctx.add_state c (current_state_name d) (clock d))) d)
           [] (Ok false).
Proof.
  intros Hc Hp. rewrite move_to_plan, Hc, Hp, String.eqb_refl.
  destruct init; simpl; [reflexivity|].
  by rewrite ?when_true, (bind_ok _ _ _ _ _ _ (record_state_eq _ d c Hc)).
Qed.

(** X22.  A turn does not depend on the recording flag it starts with:
    the flag is reset before anything reads it, so a manager fresh from
    the constructor (which has no such attribute) processes a message
    exactly as one that has been through turns before. *)
Theorem process_resets_recording mt ents d c r :
  accepted_type mt = true ->
  context d = Some c ->
  process cfg mt ents (set_recording r d) = process cfg mt ents d.
Proof.
  intros Ha Hc. unfold process. mrun. rewrite Ha. unfold negb.
  rewrite (bind_ok _ _ _ _ _ _ (begin_turn_eq ents d c Hc)).
  rewrite (bind_ok _ _ _ _ _ _ (begin_turn_eq ents (set_recording r d) c Hc)).
  rewrite !with_events_app. reflexivity.
Qed.

End Answer.

Lemma move_to_answer_witness :
  out_dialog (move_to Example.cfg (TName "billing.nowhere") false false
                Example.at_collect)
  = Example.at_collect.
Proof.
  refine (proj1 (proj1 (move_to_answer Example.cfg (TName "billing.nowhere")
                          false Example.at_collect) _)).
  vm_compute. reflexivity.
Defined.

Lemma move_to_save_identical_witness :
  move_to Example.cfg (TName "collect_amount") false true Example.at_collect
  = mkOut (set_context
             (Some (Ctx.add_state Example.visited "billing.collect_amount" 40))
             Example.at_collect) [] (Ok false).
Proof.
  refine (move_to_save_identical Example.cfg (TName "collect_amount") false
            Example.at_collect Example.visited eq_refl _).
  vm_compute. reflexivity.
Defined.

Lemma process_resets_recording_witness :
  process Example.cfg "message" Example.small_talk
    (set_recording None Example.at_collect)
  = process Example.cfg "message" Example.small_talk Example.at_collect.
Proof.
  exact (process_resets_recording Example.cfg "message" Example.small_talk
           Example.at_collect Example.visited None eq_refl eq_refl).
Defined.

(** ** Inactivity callbacks of a turn *)

Section Inactivity.

Variable cfg : Config.

Lemma merged_old_entity c ents k v :
  ents !! k = None -> Ctx.get_age (merged c ents) k <> Some (v, 0%nat).
Proof.
  intros H. unfold Ctx.get_age, merged, Ctx.add_entities. simpl.
  rewrite lookup_union_r by (by rewrite lookup_fmap, H).
  rewrite lookup_fmap. destruct (entities c !! k) as [[v' age]|]; simpl;
    [intros [= _ ?]|]; discriminate.
Qed.

Lemma in_inactivity_events c l name seconds :
  In (name, seconds) l ->
  In (ScheduleInactivity name (counter c) seconds) (inactivity_events c l).
Proof.
  intros H. unfold inactivity_events. apply in_flat_map.
  exists (name, seconds). split; [exact H|]. simpl. auto.
Qed.

(** X23.  The inactivity callbacks of a turn carry the counter of that
    turn: in a turn of type [message] or [postback] that is not a
    recorder command, every configured inactivity callback is scheduled
    with its delay and with the Context counter already incremented for
    this turn, before any transition rule is evaluated and whatever
    happens afterwards. *)
Theorem turn_schedules_inactivity mt ents d c name seconds :
  accepted_type mt = true ->
  mt <> "schedule" ->
  context d = Some c ->
  ents !! "test_record" = None ->
  In (name, seconds) (inactive_callbacks cfg) ->
  In (ScheduleInactivity name (counter c + 1) seconds)
     (out_events (process cfg mt ents d)).
Proof.
  intros Ha Hs Hc He Hin. unfold process. mrun. rewrite Ha. unfold negb.
  rewrite (bind_ok _ _ _ _ _ _ (begin_turn_eq ents d c Hc)).
  rewrite with_events_app.
  set (d0 := set_context (Some (merged c ents)) d).
  destruct (test_record_message_cases cfg mt ents d0 (merged c ents) eq_refl)
    as [(v & d1 & ev & Hv & _)|(_ & r & ev & E)].
  { exfalso. by apply (merged_old_entity c ents "test_record" v He). }
  rewrite (bind_ok _ _ _ _ _ _ E), with_events_app.
  apply String.eqb_neq in Hs. rewrite Hs, when_true.
  unfold save_inactivity_callback. rewrite bind_assoc, bind_modify.
  erewrite bind_ok;
    [|apply (for_each_inactive _ _ (merged c ents)); reflexivity].
  rewrite with_events_app. unfold with_events. cbn [out_events].
  apply in_or_app. left. apply in_or_app. right.
  rewrite <- (merged_counter c ents). by apply in_inactivity_events.
Qed.

End Inactivity.

Lemma turn_schedules_inactivity_witness :
  In (ScheduleInactivity "goodbye" 4 3600)
     (out_events (process Shop.cfg "postback" Example.small_talk
                    (Shop.at_root (Shop.with_intent "pay")))).
Proof.
  refine (turn_schedules_inactivity Shop.cfg "postback" Example.small_talk
            (Shop.at_root (Shop.with_intent "pay")) (Shop.with_intent "pay")
            "goodbye" 3600 eq_refl _ eq_refl _ _).
  - vm_compute. discriminate.
  - vm_compute. reflexivity.
  - vm_compute. auto.
Defined.

(** ** Scheduling *)

Section Schedule.

Variable cfg : Config.

(** X24.  [schedule] returns normally exactly when it is given a
    timezone-aware [at], or no [at] and a non-zero number of seconds;
    then it has enqueued one task, and when it raises it has enqueued
    none.  A naive [at] raises even when [seconds] is given, and
    [seconds=0] without [at] raises as if nothing had been given. *)
Theorem schedule_outcome callback_name at_ seconds :
  ((schedule cfg callback_name at_ seconds).2 = inr tt
   <-> (exists eta off, at_ = Some eta /\ dt_tzinfo eta = Some (Some off))
       \/ (at_ = None /\ exists s, seconds = Some s /\ s <> 0))
  /\ ((schedule cfg callback_name at_ seconds).2 <> inr tt ->
      (schedule cfg callback_name at_ seconds).1
      = [LogScheduling callback_name at_ seconds])
  /\ ((schedule cfg callback_name at_ seconds).2 = inr tt ->
      exists task,
        (schedule cfg callback_name at_ seconds).1
        = [LogScheduling callback_name at_ seconds; task]
        /\ (task = match at_ with
                   | Some eta =>
                       ApplyAsyncEta (session_json cfg) callback_name eta
                   | None =>
                       ApplyAsyncCountdown (session_json cfg) callback_name
                         (default 0 seconds)
                   end)).
Proof.
  unfold schedule.
  destruct at_ as [eta|].
  - destruct (dt_tzinfo eta) as [[off|]|] eqn:E; simpl.
    + split; [|split]; [|done|eauto].
      split; [|done]. intros _. left. eauto.
    + split; [|split]; [|done|done].
      split; [done|]. intros [(e & o & [= <-] & H)|[H _]]; [|done].
      rewrite E in H. discriminate.
    + split; [|split]; [|done|done].
      split; [done|]. intros [(e & o & [= <-] & H)|[H _]]; [|done].
      rewrite E in H. discriminate.
  - destruct seconds as [s|]; simpl.
    + destruct (Z.eqb_spec s 0) as [->|Hs]; simpl.
      * split; [|split]; [|done|done].
        split; [done|]. intros [(e & o & H & _)|(_ & s & [= <-] & H)]; done.
      * split; [|split]; [|done|eauto].
        split; [|done]. intros _. right. eauto.
    + split; [|split]; [|done|done].
      split; [done|]. intros [(e & o & H & _)|(_ & s & H & _)]; done.
Qed.

End Schedule.

Lemma schedule_outcome_witness :
  (schedule Example.cfg "remind" None (Some 0)).1
  = [LogScheduling "remind" None (Some 0)]
  /\ (schedule Example.cfg "remind" (Some (mkDatetime 100 None)) (Some 60)).1
     = [LogScheduling "remind" (Some (mkDatetime 100 None)) (Some 60)].
Proof.
  split.
  - apply (proj1 (proj2 (schedule_outcome Example.cfg "remind" None (Some 0)))).
    vm_compute. discriminate.
  - apply (proj1 (proj2 (schedule_outcome Example.cfg "remind"
                           (Some (mkDatetime 100 None)) (Some 60)))).
    vm_compute. discriminate.
Defined.

(** ** The chat interface registry *)

Lemma contains_before_first_self c s : contains c (before_first c s) = false.
Proof.
  unfold before_first. destruct (split_first c s) as [[l r]|] eqn:E.
  - eapply split_first_left. exact E.
  - unfold contains. by rewrite E.
Qed.

Section Registry.

Variable b : Interfaces.Builtins.

Lemma first_prefixed_app p l1 l2 :
  Interfaces.first_prefixed p (l1 ++ l2)
  = match Interfaces.first_prefixed p l1 with
    | Some j => Some j
    | None => Interfaces.first_prefixed p l2
    end.
Proof.
  induction l1 as [|i l1 IH]; simpl; [reflexivity|].
  by destruct (String.eqb (Interfaces.prefix i) p).
Qed.

Lemma name_of_prefixed_first p l :
  Interfaces.name_of_prefixed p l
  = Interfaces.name <$> Interfaces.first_prefixed p l.
Proof.
  induction l as [|i l IH]; simpl; [reflexivity|].
  by destruct (String.eqb (Interfaces.prefix i) p).
Qed.

Lemma first_prefixed_sound p l j :
  Interfaces.first_prefixed p l = Some j ->
  Interfaces.prefix j = p /\ In j l.
Proof.
  induction l as [|i l IH]; simpl; [discriminate|].
  destruct (String.eqb_spec (Interfaces.prefix i) p) as [E|_].
  - intros [= <-]. auto.
  - intros H. destruct (IH H). auto.
Qed.

Lemma first_prefixed_none p l :
  Interfaces.first_prefixed p l = None <->
  Forall (fun i => Interfaces.prefix i <> p) l.
Proof.
  induction l as [|i l IH]; simpl; [by split; [constructor|]|].
  destruct (String.eqb_spec (Interfaces.prefix i) p) as [E|Hne].
  - split; [discriminate|]. intros H. by inversion H.
  - rewrite IH. split; [by constructor|]. intros H. by inversion H.
Qed.

(** X25.  [uid_to_interface_name] and [create_from_chat_id] agree: the
    name returned is the name of the interface [create_from_chat_id]
    returns for the same id, and the exception is raised exactly when
    [create_from_chat_id] returns [None], which is when no registered or
    built-in interface has the part of the id before its first
    underscore as prefix. *)
Theorem uid_lookup_agrees interfaces uid :
  Interfaces.uid_to_interface_name b interfaces uid
  = match Interfaces.create_from_chat_id b interfaces uid with
    | Some i => inr (Interfaces.name i)
    | None => inl (Interfaces.NoInterfaceFor uid)
    end
  /\ (Interfaces.create_from_chat_id b interfaces uid = None
      <-> Forall (fun i => Interfaces.prefix i
                           <> before_first Interfaces.underscore uid)
            (Interfaces.get_interfaces b interfaces)).
Proof.
  unfold Interfaces.uid_to_interface_name, Interfaces.create_from_chat_id,
    Interfaces.create_from_prefix.
  rewrite name_of_prefixed_first. split.
  - by destruct (Interfaces.first_prefixed _ _).
  - apply first_prefixed_none.
Qed.

(** X26.  A chat id is resolved by what stands before its first
    underscore: the id [<p>_<rest>], with no underscore in [<p>], gets
    the interface of prefix [<p>] whatever [<rest>] is, and an id
    without underscore is its own prefix.  An interface whose prefix
    contains an underscore is never found by chat id. *)
Theorem chat_id_resolves_by_prefix interfaces :
  (forall p rest,
      contains Interfaces.underscore p = false ->
      Interfaces.create_from_chat_id b interfaces (p +:+ "_" +:+ rest)
      = Interfaces.create_from_prefix b interfaces p)
  /\ (forall chat,
         contains Interfaces.underscore chat = false ->
         Interfaces.create_from_chat_id b interfaces chat
         = Interfaces.create_from_prefix b interfaces chat)
  /\ (forall chat i,
         Interfaces.create_from_chat_id b interfaces chat = Some i ->
         contains Interfaces.underscore (Interfaces.prefix i) = false).
Proof.
  unfold Interfaces.create_from_chat_id. split; [|split].
  - intros p rest Hp. unfold before_first.
    change (p +:+ "_" +:+ rest) with (p +:+ String Interfaces.underscore rest).
    by rewrite (split_first_here _ _ _ Hp).
  - intros chat Hc. unfold before_first.
    by rewrite (split_first_none _ _ Hc).
  - intros chat i H. unfold Interfaces.create_from_prefix in H.
    apply first_prefixed_sound in H as [-> _].
    apply contains_before_first_self.
Qed.

(** X27.  Registered interfaces come before the built-in ones and
    earlier registrations before later ones: a newly registered
    interface answers for its prefix unless an interface registered
    before has the same prefix, also when a built-in interface has it;
    it never changes the answer for a prefix some registered interface
    already had, nor for any prefix other than its own. *)
Theorem registered_interfaces_take_precedence interfaces i :
  (Forall (fun j => Interfaces.prefix j <> Interfaces.prefix i) interfaces ->
   Interfaces.create_from_prefix b
     (Interfaces.register_chat_interface i interfaces) (Interfaces.prefix i)
   = Some i)
  /\ (forall p j,
         Interfaces.first_prefixed p interfaces = Some j ->
         Interfaces.create_from_prefix b
           (Interfaces.register_chat_interface i interfaces) p
         = Some j)
  /\ (forall p,
         Interfaces.prefix i <> p ->
         Interfaces.create_from_prefix b
           (Interfaces.register_chat_interface i interfaces) p
         = Interfaces.create_from_prefix b interfaces p).
Proof.
  unfold Interfaces.create_from_prefix, Interfaces.get_interfaces,
    Interfaces.register_chat_interface.
  split; [|split].
  - intros H. apply first_prefixed_none in H.
    rewrite !first_prefixed_app, H. simpl. by rewrite String.eqb_refl.
  - intros p j H. by rewrite !first_prefixed_app, H.
  - intros p Hne. rewrite !first_prefixed_app. simpl.
    apply String.eqb_neq in Hne. rewrite Hne.
    by destruct (Interfaces.first_prefixed p interfaces).
Qed.

Lemma first_prefixed_first p l j :
  Interfaces.first_prefixed p l = Some j ->
  exists before after,
    l = (before ++ j :: after)%list /\ Interfaces.prefix j = p
    /\ Forall (fun i => Interfaces.prefix i <> p) before.
Proof.
  induction l as [|i l IH]; simpl; [discriminate|].
  destruct (String.eqb_spec (Interfaces.prefix i) p) as [E|Hne].
  - intros [= <-]. exists [], l. by repeat split.
  - intros H. destruct (IH H) as (before & after & -> & Hp & Hb).
    exists (i :: before), after. repeat split; [exact Hp|by constructor].
Qed.

Lemma first_named_first n l j :
  Interfaces.first_named n l = Some j ->
  exists before after,
    l = (before ++ j :: after)%list /\ Interfaces.name j = n
    /\ Forall (fun i => Interfaces.name i <> n) before.
Proof.
  induction l as [|i l IH]; simpl; [discriminate|].
  destruct (String.eqb_spec (Interfaces.name i) n) as [E|Hne].
  - intros [= <-]. exists [], l. by repeat split.
  - intros H. destruct (IH H) as (before & after & -> & Hp & Hb).
    exists (i :: before), after. repeat split; [exact Hp|by constructor].
Qed.

Lemma first_named_none n l :
  Interfaces.first_named n l = None <->
  Forall (fun i => Interfaces.name i <> n) l.
Proof.
  induction l as [|i l IH]; simpl; [by split; [constructor|]|].
  destruct (String.eqb_spec (Interfaces.name i) n) as [E|Hne].
  - split; [discriminate|]. intros H. by inversion H.
  - rewrite IH. split; [by constructor|]. intros H. by inversion H.
Qed.

(** X28.  [create_from_name] and [create_from_prefix] return the first
    interface of [get_interfaces()], registered ones first, whose name
    (prefix) is the one asked for, and [None], without raising, exactly
    when there is none. *)
Theorem lookup_returns_first_match interfaces :
  (forall n j,
      Interfaces.create_from_name b interfaces n = Some j ->
      exists before after,
        Interfaces.get_interfaces b interfaces = (before ++ j :: after)%list
        /\ Interfaces.name j = n
        /\ Forall (fun i => Interfaces.name i <> n) before)
  /\ (forall n,
         Interfaces.create_from_name b interfaces n = None
         <-> Forall (fun i => Interfaces.name i <> n)
               (Interfaces.get_interfaces b interfaces))
  /\ (forall p j,
         Interfaces.create_from_prefix b interfaces p = Some j ->
         exists before after,
           Interfaces.get_interfaces b interfaces = (before ++ j :: after)%list
           /\ Interfaces.prefix j = p
           /\ Forall (fun i => Interfaces.prefix i <> p) before)
  /\ (forall p,
         Interfaces.create_from_prefix b interfaces p = None
         <-> Forall (fun i => Interfaces.prefix i <> p)
               (Interfaces.get_interfaces b interfaces)).
Proof.
  unfold Interfaces.create_from_name, Interfaces.create_from_prefix.
  split; [|split; [|split]].
  - intros n j. apply first_named_first.
  - intros n. apply first_named_none.
  - intros p j. apply first_prefixed_first.
  - intros p. apply first_prefixed_none.
Qed.

End Registry.

Lemma uid_lookup_agrees_witness :
  Interfaces.uid_to_interface_name Shop.builtins [] "tg_42_7" = inr "telegram"
  /\ Interfaces.uid_to_interface_name Shop.builtins [] "sms_42"
     = inl (Interfaces.NoInterfaceFor "sms_42").
Proof.
  split.
  - exact (proj1 (uid_lookup_agrees Shop.builtins [] "tg_42_7")).
  - exact (proj1 (uid_lookup_agrees Shop.builtins [] "sms_42")).
Defined.

Lemma chat_id_resolves_by_prefix_witness :
  Interfaces.create_from_chat_id Shop.builtins [] "tg_42_7"
  = Interfaces.create_from_prefix Shop.builtins [] "tg".
Proof.
  exact (proj1 (chat_id_resolves_by_prefix Shop.builtins []) "tg" "42_7"
           eq_refl).
Defined.

Lemma registered_interfaces_take_precedence_witness :
  Interfaces.create_from_prefix Shop.builtins
    (Interfaces.register_chat_interface Shop.custom_telegram []) "tg"
  = Some Shop.custom_telegram.
Proof.
  refine (proj1 (registered_interfaces_take_precedence Shop.builtins []
                   Shop.custom_telegram) _).
  constructor.
Defined.

Lemma lookup_returns_first_match_witness :
  Interfaces.create_from_name Shop.builtins [Shop.custom_telegram] "vk" = None.
Proof.
  apply (proj1 (proj2 (lookup_returns_first_match Shop.builtins
                         [Shop.custom_telegram]))).
  repeat (constructor; [vm_compute; discriminate|]). constructor.
Defined.

(** ** The training command *)

(** X29.  [train_nlp] given entity names always ends with one training
    of exactly those names and returns; when the first name is [all] a
    training of everything comes first, and the training of the names,
    [all] included, still follows.  Without names the command raises and
    has trained nothing. *)
Theorem handle_trains_given_entities entity :
  (forall first rest,
      entity = Some (first :: rest) ->
      (TrainNlp.handle entity).2 = inr tt
      /\ last (TrainNlp.handle entity).1
         = Some (TrainNlp.TrainAll (Some (first :: rest)))
      /\ (In (TrainNlp.TrainAll None) (TrainNlp.handle entity).1
          <-> first = "all"))
  /\ (entity = None \/ entity = Some [] ->
      TrainNlp.handle entity = ([], inl TrainNlp.NoEntityGiven)).
Proof.
  split.
  - intros first rest ->. unfold TrainNlp.handle.
    destruct (String.eqb_spec first "all") as [->|Hne]; simpl.
    + split; [done|]. split; [done|]. split; [done|]. intros _. by left.
    + split; [done|]. split; [done|]. split; [|done].
      intros [H|[]]. discriminate H.
  - by intros [->| ->].
Qed.

Lemma handle_trains_given_entities_witness :
  In (TrainNlp.TrainAll None) (TrainNlp.handle (Some ["all"; "city"])).1
  /\ last (TrainNlp.handle (Some ["all"; "city"])).1
     = Some (TrainNlp.TrainAll (Some ["all"; "city"])).
Proof.
  destruct (proj1 (handle_trains_given_entities (Some ["all"; "city"]))
              "all" ["city"] eq_refl) as (_ & H2 & H3).
  split; [apply H3; reflexivity|exact H2].
Defined.

(** ** Names the registry does not have *)

Section Unregistered.

Variable cfg : Config.

(** X30.  A target whose resolved name has a flow part and is not in
    the Flow Registry: [move_to] logs that the state does not exist and
    returns [False]; the dialog manager (current state, history, store)
    is as it was and no action has run, whatever the flags and the
    current state. *)
Theorem move_to_unregistered_fails t init si d r :
  target_name (context d) t = Ok r ->
  nonempty (before_first dot (qualify (current_state_name d) r.1 r.2).1)
  = true ->
  registered cfg (qualify (current_state_name d) r.1 r.2).1 = false ->
  move_to cfg t init si d
  = mkOut d
      [LogInfo (MsgStateDoesNotExist
                  (qualify (current_state_name d) r.1 r.2).1
                  (current_state_name d))]
      (Ok false).
Proof.
  intros Ht Hf Hr. apply move_to_missing. unfold plan. rewrite Ht.
  pose proof (qualify_contains_dot (current_state_name d) r.1 r.2) as Hd.
  destruct (qualify (current_state_name d) r.1 r.2) as [n a].
  simpl in Hf, Hr, Hd |- *.
  rewrite (find_state_registry cfg _ n Hd Hf).
  unfold registered in Hr. by destruct (registry_state cfg n).
Qed.

End Unregistered.

Lemma move_to_unregistered_fails_witness :
  move_to Example.cfg (TName "default.nowhere") false false Example.at_collect
  = mkOut Example.at_collect
      [LogInfo (MsgStateDoesNotExist "default.nowhere" "billing.collect_amount")]
      (Ok false).
Proof.
  exact (move_to_unregistered_fails Example.cfg (TName "default.nowhere")
           false false Example.at_collect
           (Some "default.nowhere", Some "init") eq_refl eq_refl eq_refl).
Defined.
